(** * MindQuest backend: entitlement engine

    A shallow embedding of the subscription / usage core of the backend:

    - [database.js]  : the SQLite schema (tables [users], [user_subscriptions],
                       [user_usage]) and the [Database] class;
    - [routes/usage] : the plan catalog [PLAN_LIMITS] and the routes
                       [/stats], [/can-use/:feature], [/increment/:feature],
                       [/reset];
    - [server.js]    : the Stripe webhook endpoint and its five handlers;
    - [routes/subscriptions] and [routes/auth] : the routes on the
                       Subscription of the caller, registration, login and
                       the token middleware.

    Every [await] of the source is a node of a small free monad ([Task]); a
    task is run either to completion (one request served alone) or
    interleaved with other tasks at its [await] points (requests served
    concurrently by the event loop).

    Conventions.  A table is the list of its rows in insertion order; [get]
    returns the first row that matches.  Columns guarded by a CHECK over
    literals are enumerations, and the CHECK is applied where text from
    outside is bound to them.  Foreign keys are not enforced (the source does
    not turn them on).  Instants are integers (milliseconds), one [new Date()]
    per request.  A count is an integer: the SQLite INTEGER and the JS number
    read from it are that integer while it is a safe integer
    ([safe_integer]), and the properties that state the value of a count
    after a [+ 1] concern such counts.  The driver may fail any
    statement: the world carries the schedule of such failures. *)

From Stdlib Require Import List String ZArith Bool Lia QArith Qminmax.
Import ListNotations.

Local Open Scope string_scope.
Local Open Scope Z_scope.
Local Open Scope list_scope.

Infix "==?" := String.eqb (at level 70, no associativity).

(** ** Schema: the three tables of [createTables] *)

(** [status TEXT DEFAULT 'free' CHECK (status IN (...))] *)
Inductive Status : Type :=
| StFree | StActive | StCanceled | StPastDue | StTrialing.

(** [plan_type TEXT DEFAULT 'free' CHECK (plan_type IN ('free','pro','premium'))] *)
Inductive PlanType : Type :=
| PlanFree | PlanPro | PlanPremium.

(** [payment_status TEXT DEFAULT 'active' CHECK (...)] *)
Inductive PaymentStatus : Type :=
| PayActive | PayFailed | PayPending.

(** The CHECK on [status]: the text bound to the column is accepted only when
    it is one of the five literals. *)
Definition status_of_text (s : string) : option Status :=
  if s ==? "free" then Some StFree
  else if s ==? "active" then Some StActive
  else if s ==? "canceled" then Some StCanceled
  else if s ==? "past_due" then Some StPastDue
  else if s ==? "trialing" then Some StTrialing
  else None.

(** Instants (ISO strings of [toISOString], [CURRENT_TIMESTAMP]) are kept as
    milliseconds since the epoch. *)
Definition Timestamp := Z.

Record UserRow : Type := mkUser {
  u_id : string;
  u_email : string
}.

Record SubscriptionRow : Type := mkSubscription {
  s_id : string;
  s_user_id : string;
  stripe_customer_id : option string;
  stripe_subscription_id : option string;
  status : Status;
  plan_type : PlanType;
  current_period_start : option Timestamp;
  current_period_end : option Timestamp;
  last_payment_date : option Timestamp;
  payment_status : PaymentStatus;
  s_created_at : Timestamp;
  s_updated_at : Timestamp
}.

Record UsageRow : Type := mkUsage {
  g_id : string;
  g_user_id : string;
  feature_type : string;
  usage_count : Z;      (* INTEGER DEFAULT 0 *)
  last_reset_date : Timestamp;
  g_created_at : Timestamp;
  g_updated_at : Timestamp
}.

(** The CHECK on [user_usage.feature_type]. *)
Definition feature_types : list string :=
  ["assessment"; "journal_entry"; "habit_tracking"; "ai_insights"].

Definition mem_string (s : string) (l : list string) : bool :=
  existsb (String.eqb s) l.

(** The database file together with what the environment decides for it:
    [db_clock] is what [CURRENT_TIMESTAMP] evaluates to, and [faults] says,
    for the statements still to come, which ones the driver fails
    ([true] = the callback receives [err]); past its end nothing fails. *)
Record World : Type := mkWorld {
  users : list UserRow;
  user_subscriptions : list SubscriptionRow;
  user_usage : list UsageRow;
  db_clock : Timestamp;
  faults : list bool
}.

Definition with_subscriptions (l : list SubscriptionRow) (w : World) : World :=
  mkWorld (users w) l (user_usage w) (db_clock w) (faults w).

Definition with_usage (l : list UsageRow) (w : World) : World :=
  mkWorld (users w) (user_subscriptions w) l (db_clock w) (faults w).

Definition with_faults (l : list bool) (w : World) : World :=
  mkWorld (users w) (user_subscriptions w) (user_usage w) (db_clock w) l.

(** ** Statements *)

(** One entry of a [subscriptionData] object: the column it names and the
    value bound to its placeholder.  The object is kept as the list of its
    entries in key order, as [Object.keys] / [Object.values] see it. *)
Inductive SubscriptionField : Type :=
| set_stripe_customer_id (v : option string)
| set_stripe_subscription_id (v : option string)
| set_status (v : string)
| set_plan_type (v : PlanType)
| set_current_period_start (v : Timestamp)
| set_current_period_end (v : Timestamp)
| set_last_payment_date (v : Timestamp)
| set_payment_status (v : PaymentStatus)
| set_updated_at (v : Timestamp).

Inductive Error : Type :=
| StorageFailure        (* the driver reported an error for the statement *)
| ConstraintViolation   (* SQLITE_CONSTRAINT: CHECK, UNIQUE or PRIMARY KEY *)
| RangeError.           (* Invalid time value in toISOString *)

(** [{ id: this.lastID, changes: this.changes }]; only [changes] is kept. *)
Definition RunResult := nat.

(** The SQL texts the [Database] class sends, indexed by what the promise of
    [run] / [get] / [all] resolves to. *)
Inductive Sql : Type -> Type :=
| SelectUserByEmail (email : string) : Sql (option UserRow)
| SelectSubscriptionByUser (userId : string) : Sql (option SubscriptionRow)
| SelectSubscriptionByStripeId (sid : option string) : Sql (option SubscriptionRow)
| UpdateSubscriptionByUser (userId : string) (data : list SubscriptionField) : Sql RunResult
| InsertSubscription (id userId : string) (data : list SubscriptionField) : Sql RunResult
| UpdateSubscriptionByStripeId (sid : option string) (data : list SubscriptionField) : Sql RunResult
| SelectUsage (userId featureType : string) : Sql (option UsageRow)
| SelectUsageByUser (userId : string) : Sql (list UsageRow)
| UpdateUsageIncrement (userId featureType : string) : Sql RunResult
| InsertUsage (id userId featureType : string) : Sql RunResult
| UpdateUsageReset (userId : string) : Sql RunResult.

(** [WHERE col = ?] on a nullable column: NULL equals nothing. *)
Definition sql_eq (col param : option string) : bool :=
  match col, param with
  | Some a, Some b => a ==? b
  | _, _ => false
  end.

(** [SET col = ?] for one entry; [None] when the CHECK of the column
    rejects the value. *)
Definition assign (f : SubscriptionField) (r : SubscriptionRow) : option SubscriptionRow :=
  match f with
  | set_stripe_customer_id v =>
      Some (mkSubscription (s_id r) (s_user_id r) v (stripe_subscription_id r)
              (status r) (plan_type r) (current_period_start r) (current_period_end r)
              (last_payment_date r) (payment_status r) (s_created_at r) (s_updated_at r))
  | set_stripe_subscription_id v =>
      Some (mkSubscription (s_id r) (s_user_id r) (stripe_customer_id r) v
              (status r) (plan_type r) (current_period_start r) (current_period_end r)
              (last_payment_date r) (payment_status r) (s_created_at r) (s_updated_at r))
  | set_status v =>
      match status_of_text v with
      | Some st =>
          Some (mkSubscription (s_id r) (s_user_id r) (stripe_customer_id r)
                  (stripe_subscription_id r) st (plan_type r) (current_period_start r)
                  (current_period_end r) (last_payment_date r) (payment_status r)
                  (s_created_at r) (s_updated_at r))
      | None => None
      end
  | set_plan_type v =>
      Some (mkSubscription (s_id r) (s_user_id r) (stripe_customer_id r)
              (stripe_subscription_id r) (status r) v (current_period_start r)
              (current_period_end r) (last_payment_date r) (payment_status r)
              (s_created_at r) (s_updated_at r))
  | set_current_period_start v =>
      Some (mkSubscription (s_id r) (s_user_id r) (stripe_customer_id r)
              (stripe_subscription_id r) (status r) (plan_type r) (Some v)
              (current_period_end r) (last_payment_date r) (payment_status r)
              (s_created_at r) (s_updated_at r))
  | set_current_period_end v =>
      Some (mkSubscription (s_id r) (s_user_id r) (stripe_customer_id r)
              (stripe_subscription_id r) (status r) (plan_type r) (current_period_start r)
              (Some v) (last_payment_date r) (payment_status r)
              (s_created_at r) (s_updated_at r))
  | set_last_payment_date v =>
      Some (mkSubscription (s_id r) (s_user_id r) (stripe_customer_id r)
              (stripe_subscription_id r) (status r) (plan_type r) (current_period_start r)
              (current_period_end r) (Some v) (payment_status r)
              (s_created_at r) (s_updated_at r))
  | set_payment_status v =>
      Some (mkSubscription (s_id r) (s_user_id r) (stripe_customer_id r)
              (stripe_subscription_id r) (status r) (plan_type r) (current_period_start r)
              (current_period_end r) (last_payment_date r) v
              (s_created_at r) (s_updated_at r))
  | set_updated_at v =>
      Some (mkSubscription (s_id r) (s_user_id r) (stripe_customer_id r)
              (stripe_subscription_id r) (status r) (plan_type r) (current_period_start r)
              (current_period_end r) (last_payment_date r) (payment_status r)
              (s_created_at r) v)
  end.

Fixpoint assign_all (data : list SubscriptionField) (r : SubscriptionRow)
  : option SubscriptionRow :=
  match data with
  | [] => Some r
  | f :: rest =>
      match assign f r with
      | Some r' => assign_all rest r'
      | None => None
      end
  end.

(** [UPDATE user_subscriptions SET ... WHERE <sel>]: the rewritten table and
    the number of rows changed, or [None] when a CHECK fails on some row. *)
Fixpoint update_where (sel : SubscriptionRow -> bool) (data : list SubscriptionField)
  (rows : list SubscriptionRow) : option (list SubscriptionRow * nat) :=
  match rows with
  | [] => Some ([], O)
  | r :: rest =>
      match update_where sel data rest with
      | None => None
      | Some (rest', n) =>
          if sel r then
            match assign_all data r with
            | Some r' => Some (r' :: rest', S n)
            | None => None
            end
          else Some (r :: rest', n)
      end
  end.

(** [stripe_subscription_id TEXT UNIQUE]: no two rows share a non-NULL value. *)
Fixpoint stripe_ids (rows : list SubscriptionRow) : list string :=
  match rows with
  | [] => []
  | r :: rest =>
      match stripe_subscription_id r with
      | Some s => s :: stripe_ids rest
      | None => stripe_ids rest
      end
  end.

Fixpoint nodup_strings (l : list string) : bool :=
  match l with
  | [] => true
  | x :: rest => negb (mem_string x rest) && nodup_strings rest
  end.

Definition unique_stripe_ids (rows : list SubscriptionRow) : bool :=
  nodup_strings (stripe_ids rows).

(** The row an INSERT builds before the listed columns are bound: every
    other column takes its DEFAULT. *)
Definition default_subscription (id userId : string) (now : Timestamp) : SubscriptionRow :=
  mkSubscription id userId None None StFree PlanFree None None None PayActive now now.

Definition run_update (sel : SubscriptionRow -> bool) (data : list SubscriptionField)
  (w : World) : (Error + RunResult) * World :=
  match update_where sel data (user_subscriptions w) with
  | Some (rows', n) =>
      if unique_stripe_ids rows' then (inr n, with_subscriptions rows' w)
      else (inl ConstraintViolation, w)
  | None => (inl ConstraintViolation, w)
  end.

Definition usage_matches (userId featureType : string) (r : UsageRow) : bool :=
  (g_user_id r ==? userId) && (feature_type r ==? featureType).

(** What a statement does to the database when the driver does not fail. *)
Definition exec_sql {X : Type} (q : Sql X) (w : World) : (Error + X) * World :=
  match q in Sql X return (Error + X) * World with
  | SelectUserByEmail email =>
      (inr (find (fun u => u_email u ==? email) (users w)), w)
  | SelectSubscriptionByUser userId =>
      (inr (find (fun r => s_user_id r ==? userId) (user_subscriptions w)), w)
  | SelectSubscriptionByStripeId sid =>
      (inr (find (fun r => sql_eq (stripe_subscription_id r) sid) (user_subscriptions w)), w)
  | UpdateSubscriptionByUser userId data =>
      run_update (fun r => s_user_id r ==? userId) data w
  | InsertSubscription id userId data =>
      if mem_string id (map s_id (user_subscriptions w)) then (inl ConstraintViolation, w)
      else
        match assign_all data (default_subscription id userId (db_clock w)) with
        | None => (inl ConstraintViolation, w)
        | Some r =>
            let rows' := user_subscriptions w ++ [r] in
            if unique_stripe_ids rows' then (inr 1%nat, with_subscriptions rows' w)
            else (inl ConstraintViolation, w)
        end
  | UpdateSubscriptionByStripeId sid data =>
      run_update (fun r => sql_eq (stripe_subscription_id r) sid) data w
  | SelectUsage userId featureType =>
      (inr (find (usage_matches userId featureType) (user_usage w)), w)
  | SelectUsageByUser userId =>
      (inr (filter (fun r => g_user_id r ==? userId) (user_usage w)), w)
  | UpdateUsageIncrement userId featureType =>
      let hit := usage_matches userId featureType in
      (inr (List.length (filter hit (user_usage w))),
       with_usage
         (map (fun r =>
                 if hit r then
                   mkUsage (g_id r) (g_user_id r) (feature_type r) (usage_count r + 1)
                     (last_reset_date r) (g_created_at r) (db_clock w)
                 else r)
            (user_usage w)) w)
  | InsertUsage id userId featureType =>
      if mem_string id (map g_id (user_usage w))
         || negb (mem_string featureType feature_types)
         || existsb (usage_matches userId featureType) (user_usage w)
      then (inl ConstraintViolation, w)
      else
        (inr 1%nat,
         with_usage
           (user_usage w ++
              [mkUsage id userId featureType 1 (db_clock w) (db_clock w) (db_clock w)]) w)
  | UpdateUsageReset userId =>
      let hit := fun r => g_user_id r ==? userId in
      (inr (List.length (filter hit (user_usage w))),
       with_usage
         (map (fun r =>
                 if hit r then
                   mkUsage (g_id r) (g_user_id r) (feature_type r) 0
                     (db_clock w) (g_created_at r) (db_clock w)
                 else r)
            (user_usage w)) w)
  end.

(** [Database.run] / [get] / [all]: the driver either reports an error
    (the promise rejects) or the statement takes effect. *)
Definition exec {X : Type} (q : Sql X) (w : World) : (Error + X) * World :=
  match faults w with
  | true :: rest => (inl StorageFailure, with_faults rest w)
  | false :: rest => exec_sql q (with_faults rest w)
  | [] => exec_sql q w
  end.

(** ** Asynchronous code *)

(** An [async] function: it returns, throws, or awaits the promise of one
    statement and goes on with what the promise settles to (rejections
    arrive as [inl]). *)
Inductive Task (A : Type) : Type :=
| Return (a : A)
| Throw (e : Error)
| Await {X : Type} (q : Sql X) (k : Error + X -> Task A).

Arguments Return {A} a.
Arguments Throw {A} e.
Arguments Await {A X} q k.

(** Sequencing: what follows an [await] in the body of the function. *)
Fixpoint bind {A B : Type} (t : Task A) (f : A -> Task B) : Task B :=
  match t with
  | Return a => f a
  | Throw e => Throw e
  | Await q k => Await q (fun r => bind (k r) f)
  end.

(** [try { t } catch (error) { h error }] *)
Fixpoint try_catch {A : Type} (t : Task A) (h : Error -> Task A) : Task A :=
  match t with
  | Return a => Return a
  | Throw e => h e
  | Await q k => Await q (fun r => try_catch (k r) h)
  end.

(** [await this.run(...)]: a rejected promise throws at the [await]. *)
Definition await {X : Type} (q : Sql X) : Task X :=
  Await q (fun r => match r with inl e => Throw e | inr x => Return x end).

Notation "x <- t ;; k" := (bind t (fun x => k))
  (at level 61, t at next level, right associativity).
Notation "t ;;; k" := (bind t (fun _ => k))
  (at level 61, right associativity).

(** A request served alone: every statement runs as soon as it is awaited. *)
Fixpoint run {A : Type} (t : Task A) (w : World) : (Error + A) * World :=
  match t with
  | Return a => (inr a, w)
  | Throw e => (inl e, w)
  | Await q k => let (r, w') := exec q w in run (k r) w'
  end.

(** For each statement a run sends, whether the driver or a constraint
    failed it. *)
Fixpoint outcomes {A : Type} (t : Task A) (w : World) : list bool :=
  match t with
  | Return _ => []
  | Throw _ => []
  | Await q k =>
      let (r, w') := exec q w in
      (match r with inl _ => true | inr _ => false end) :: outcomes (k r) w'
  end.

(** Requests in flight together: the event loop resumes one of them at a
    time, up to its next [await]. *)
Definition step {A : Type} (t : Task A) (w : World) : Task A * World :=
  match t with
  | Await q k => let (r, w') := exec q w in (k r, w')
  | _ => (t, w)
  end.

(** [l] with its element at position [i] replaced. *)
Fixpoint replace_nth {A : Type} (i : nat) (x : A) (l : list A) : list A :=
  match l, i with
  | [], _ => []
  | _ :: rest, O => x :: rest
  | y :: rest, S j => y :: replace_nth j x rest
  end.

(** [order] names, turn after turn, the request that is resumed. *)
Fixpoint interleave {A : Type} (order : list nat) (tasks : list (Task A)) (w : World)
  : list (Task A) * World :=
  match order with
  | [] => (tasks, w)
  | i :: rest =>
      match nth_error tasks i with
      | None => interleave rest tasks w
      | Some t =>
          let (t', w') := step t w in
          interleave rest (replace_nth i t' tasks) w'
      end
  end.

(** What [new Date()] and [uuidv4()] give while one request is served. *)
Record Runtime : Type := mkRuntime {
  date_now : Timestamp;
  uuidv4 : string
}.

(** ** database.js: the [Database] class *)

Definition getUserByEmail (email : string) : Task (option UserRow) :=
  await (SelectUserByEmail email).

Definition updateUserSubscription (rt : Runtime) (userId : string)
  (subscriptionData : list SubscriptionField) : Task RunResult :=
  existing <- await (SelectSubscriptionByUser userId) ;;
  match existing with
  | Some _ => await (UpdateSubscriptionByUser userId subscriptionData)
  | None => await (InsertSubscription (uuidv4 rt) userId subscriptionData)
  end.

Definition updateSubscriptionByStripeId (stripeSubscriptionId : option string)
  (subscriptionData : list SubscriptionField) : Task RunResult :=
  await (UpdateSubscriptionByStripeId stripeSubscriptionId subscriptionData).

Definition getSubscriptionByStripeId (stripeSubscriptionId : option string)
  : Task (option SubscriptionRow) :=
  await (SelectSubscriptionByStripeId stripeSubscriptionId).

Definition getUserSubscription (userId : string) : Task (option SubscriptionRow) :=
  await (SelectSubscriptionByUser userId).

(** [existing.usage_count + 1] is the sum of JS numbers: the successor of
    the stored count while that is a safe integer ([safe_integer]). *)
Definition incrementUsage (rt : Runtime) (userId featureType : string) : Task Z :=
  existing <- await (SelectUsage userId featureType) ;;
  match existing with
  | Some row =>
      await (UpdateUsageIncrement userId featureType) ;;;
      Return (usage_count row + 1)
  | None =>
      await (InsertUsage (uuidv4 rt) userId featureType) ;;;
      Return 1
  end.

Definition getUserUsage (userId : string) : Task (list UsageRow) :=
  await (SelectUsageByUser userId).

Definition resetUserUsage (userId : string) : Task RunResult :=
  await (UpdateUsageReset userId).

(** ** routes/usage: plan catalog *)

(** What a property read on one of the catalog's object literals gives: a
    number for an own key, a member of [Object.prototype] for an inherited
    one, [undefined] otherwise. *)
Inductive JsValue : Type :=
| JsNumber (n : Z)
| JsInherited
| JsUndefined.

Definition object_prototype_keys : list string :=
  ["constructor"; "__defineGetter__"; "__defineSetter__"; "hasOwnProperty";
   "__lookupGetter__"; "__lookupSetter__"; "isPrototypeOf"; "propertyIsEnumerable";
   "toString"; "valueOf"; "__proto__"; "toLocaleString"].

Definition PLAN_LIMITS (planType : PlanType) : list (string * Z) :=
  match planType with
  | PlanFree =>
      [("assessment", 2); ("journal_entry", 5); ("habit_tracking", 3); ("ai_insights", 1)]
  | PlanPro =>
      [("assessment", 10); ("journal_entry", 50); ("habit_tracking", 20); ("ai_insights", 10)]
  | PlanPremium =>
      [("assessment", -1); ("journal_entry", -1); ("habit_tracking", -1); ("ai_insights", -1)]
  end.

(** [obj[key]] *)
Definition js_get (obj : list (string * Z)) (key : string) : JsValue :=
  match find (fun kv => fst kv ==? key) obj with
  | Some kv => JsNumber (snd kv)
  | None => if mem_string key object_prototype_keys then JsInherited else JsUndefined
  end.

(** [Object.keys(obj)] *)
Definition js_keys (obj : list (string * Z)) : list string := map fst obj.

(** ToBoolean *)
Definition truthy (v : JsValue) : bool :=
  match v with
  | JsNumber n => negb (n =? 0)
  | JsInherited => true
  | JsUndefined => false
  end.

(** [v === n] for a number [n] *)
Definition strict_eq (v : JsValue) (n : Z) : bool :=
  match v with
  | JsNumber m => m =? n
  | _ => false
  end.

(** [n < v] and [n >= v] for a number [n]: a function, an object or
    [undefined] converts to NaN, and every comparison with NaN is false. *)
Definition js_lt (n : Z) (v : JsValue) : bool :=
  match v with
  | JsNumber m => n <? m
  | _ => false
  end.

Definition js_ge (n : Z) (v : JsValue) : bool :=
  match v with
  | JsNumber m => m <=? n
  | _ => false
  end.

(** ** routes/usage: the routes

    [req.user.userId] is what [authenticateToken] left on the request;
    [req.params.feature] is any path segment. *)

Record FeatureStats : Type := mkStats {
  used : Z;
  limit : JsValue;
  unlimited : bool;
  percentage : option Q
}.

Inductive Response : Type :=
| StatsOk (planType : PlanType) (usage : list (string * FeatureStats))
    (lastResetDate : option Timestamp)
| CanUseOk (canUse : bool) (currentUsage : Z) (limit : JsValue) (unlimited : bool)
    (planType : PlanType)
| IncrementOk (newUsage : Z) (limit : JsValue) (unlimited : bool) (planType : PlanType)
| ResetOk
| InvalidFeatureType                                                   (* 400 *)
| UsageLimitExceeded (currentUsage : Z) (limit : JsValue) (planType : PlanType) (* 403 *)
| InternalServerError.                                                 (* 500 *)

(** [subscription ? subscription.plan_type : 'free'] *)
Definition planType_of (subscription : option SubscriptionRow) : PlanType :=
  match subscription with
  | Some s => plan_type s
  | None => PlanFree
  end.

(** [usage.find(u => u.feature_type === feature)] and
    [userUsage ? userUsage.usage_count : 0] *)
Definition currentUsage_of (usage : list UsageRow) (feature : string) : Z :=
  match find (fun u => feature_type u ==? feature) usage with
  | Some userUsage => usage_count userUsage
  | None => 0
  end.

(** The double nearest to the positive rational [n / d], ties to even: a
    mantissa of 53 bits times a power of two (the magnitudes met here are
    far from overflow and from the subnormal numbers). *)
Definition nearest_double_pos (n d : positive) : Q :=
  let e0 := Z.log2 (Zpos n) - Z.log2 (Zpos d) - 53 in
  let scaled (e : Z) : Z * Z :=
    if 0 <=? e then (Zpos n, Zpos d * 2 ^ e) else (Zpos n * 2 ^ (- e), Zpos d) in
  let e :=
    let (num, den) := scaled e0 in
    if num / den <? 2 ^ 53 then e0 else e0 + 1 in
  let (num, den) := scaled e in
  let m := num / den in
  let r := num mod den in
  let m' :=
    if 2 * r <? den then m
    else if den <? 2 * r then m + 1
    else if Z.even m then m else m + 1 in
  if 0 <=? e then inject_Z (m' * 2 ^ e)
  else Qmake m' (Z.to_pos (2 ^ (- e))).

(** What an arithmetic operation of JS returns for the exact result [q]. *)
Definition nearest_double (q : Q) : Q :=
  match Qnum q with
  | Z0 => 0%Q
  | Zpos n => nearest_double_pos n (Qden q)
  | Zneg n => (- nearest_double_pos n (Qden q))%Q
  end.

(** [limit === -1 ? 0 : Math.min(100, (used / limit) * 100)]: the quotient
    and the product are each rounded to a double; [None] where JS gives NaN
    or divides by zero. *)
Definition percentage_of (used : Z) (limit : JsValue) : option Q :=
  match limit with
  | JsNumber l =>
      if l =? -1 then Some 0%Q
      else if l =? 0 then None
      else
        Some (Qmin 100
                (nearest_double
                   (nearest_double (nearest_double (inject_Z used) / inject_Z l) * 100)))%Q
  | _ => None
  end.

Definition stats (userId : string) : Task Response :=
  try_catch
    (usage <- getUserUsage userId ;;
     subscription <- getUserSubscription userId ;;
     let planType := planType_of subscription in
     let limits := PLAN_LIMITS planType in
     let usageStats :=
       map (fun feature =>
              let used := currentUsage_of usage feature in
              (feature,
               mkStats used (js_get limits feature) (strict_eq (js_get limits feature) (-1))
                 (percentage_of used (js_get limits feature))))
         (js_keys (PLAN_LIMITS PlanFree)) in
     Return (StatsOk planType usageStats
               (match usage with
                | first :: _ => Some (last_reset_date first)
                | [] => None
                end)))
    (fun _ => Return InternalServerError).

Definition can_use (userId feature : string) : Task Response :=
  try_catch
    (if negb (truthy (js_get (PLAN_LIMITS PlanFree) feature)) then Return InvalidFeatureType
     else
       usage <- getUserUsage userId ;;
       subscription <- getUserSubscription userId ;;
       let planType := planType_of subscription in
       let limits := PLAN_LIMITS planType in
       let currentUsage := currentUsage_of usage feature in
       let limit := js_get limits feature in
       let canUse := strict_eq limit (-1) || js_lt currentUsage limit in
       Return (CanUseOk canUse currentUsage limit (strict_eq limit (-1)) planType))
    (fun _ => Return InternalServerError).

Definition increment (rt : Runtime) (userId feature : string) : Task Response :=
  try_catch
    (if negb (truthy (js_get (PLAN_LIMITS PlanFree) feature)) then Return InvalidFeatureType
     else
       usage <- getUserUsage userId ;;
       subscription <- getUserSubscription userId ;;
       let planType := planType_of subscription in
       let limits := PLAN_LIMITS planType in
       let currentUsage := currentUsage_of usage feature in
       let limit := js_get limits feature in
       if negb (strict_eq limit (-1)) && js_ge currentUsage limit
       then Return (UsageLimitExceeded currentUsage limit planType)
       else
         newUsage <- incrementUsage rt userId feature ;;
         Return (IncrementOk newUsage limit (strict_eq limit (-1)) planType))
    (fun _ => Return InternalServerError).

Definition reset (userId : string) : Task Response :=
  try_catch
    (resetUserUsage userId ;;; Return ResetOk)
    (fun _ => Return InternalServerError).

(** ** server.js: Stripe events *)

(** The fields of [event.data.object] the handlers read. *)
Record CheckoutSession : Type := mkSession {
  session_id : string;
  customer_details_email : option string;  (* session.customer_details?.email *)
  session_customer : option string;
  session_subscription : option string
}.

(** A period boundary as it stands in the event. *)
Inductive JsonNumber : Type :=
| JsonNum (n : Z)   (* a whole number of seconds, as Stripe sends it *)
| JsonNull          (* null *)
| JsonAbsent.       (* undefined, or what [* 1000] turns into NaN *)

(** The number [x * 1000 / 1000] stands for: [null * 1000] is 0, and
    [undefined * 1000] is NaN ([None]). *)
Definition to_number (x : JsonNumber) : option Z :=
  match x with
  | JsonNum n => Some n
  | JsonNull => Some 0
  | JsonAbsent => None
  end.

Record StripeSubscription : Type := mkStripeSubscription {
  sub_id : string;
  sub_status : string;
  sub_unit_amount : option Z;           (* items?.data?.[0]?.price?.unit_amount *)
  sub_current_period_start : JsonNumber;
  sub_current_period_end : JsonNumber
}.

Record Invoice : Type := mkInvoice {
  invoice_id : string;
  invoice_subscription : option string
}.

Inductive StripeEvent : Type :=
| checkout_session_completed (session : CheckoutSession)
| customer_subscription_created (subscription : StripeSubscription)
| customer_subscription_updated (subscription : StripeSubscription)
| customer_subscription_deleted (subscription : StripeSubscription)
| invoice_payment_succeeded (invoice : Invoice)
| invoice_payment_failed (invoice : Invoice)
| unhandled_event (type : string).

Inductive WebhookResponse : Type :=
| WebhookError                 (* 400, signature verification failed *)
| Received                     (* 200 { received: true } *)
| WebhookProcessingFailed.     (* 500 *)

(** [new Date(seconds * 1000).toISOString()]: throws on an invalid date,
    which is NaN ([None]) or an instant out of the range of [Date]. *)
Definition toISOString (seconds : option Z) : Task Timestamp :=
  match seconds with
  | None => Throw RangeError
  | Some s =>
      if Z.abs (s * 1000) <=? 8640000000000000 then Return (s * 1000)
      else Throw RangeError
  end.

Definition handleCheckoutCompleted (rt : Runtime) (session : CheckoutSession) : Task unit :=
  match customer_details_email session with
  | None => Return tt
  | Some customerEmail =>
      if customerEmail ==? "" then Return tt
      else
        try_catch
          (user <- getUserByEmail customerEmail ;;
           match user with
           | None => Return tt
           | Some user =>
               updateUserSubscription rt (u_id user)
                 [set_stripe_customer_id (session_customer session);
                  set_stripe_subscription_id (session_subscription session);
                  set_status "active";
                  set_updated_at (date_now rt)] ;;;
               Return tt
           end)
          (fun _ => Return tt)
  end.

(** [let planType = 'free'; if (unit_amount) { if (amount === 999) ... }] *)
Definition planType_of_amount (unit_amount : option Z) : PlanType :=
  match unit_amount with
  | Some amount =>
      if negb (amount =? 0) then
        if amount =? 999 then PlanPro
        else if amount =? 2999 then PlanPremium
        else PlanFree
      else PlanFree
  | None => PlanFree
  end.

Definition handleSubscriptionChange (rt : Runtime) (subscription : StripeSubscription)
  : Task unit :=
  let planType := planType_of_amount (sub_unit_amount subscription) in
  try_catch
    (period_start <- toISOString (to_number (sub_current_period_start subscription)) ;;
     period_end <- toISOString (to_number (sub_current_period_end subscription)) ;;
     updateSubscriptionByStripeId (Some (sub_id subscription))
       [set_status (sub_status subscription);
        set_plan_type planType;
        set_current_period_start period_start;
        set_current_period_end period_end;
        set_updated_at (date_now rt)] ;;;
     Return tt)
    (fun _ => Return tt).

Definition handleSubscriptionDeleted (rt : Runtime) (subscription : StripeSubscription)
  : Task unit :=
  try_catch
    (updateSubscriptionByStripeId (Some (sub_id subscription))
       [set_status "canceled";
        set_plan_type PlanFree;
        set_updated_at (date_now rt)] ;;;
     Return tt)
    (fun _ => Return tt).

Definition handlePaymentSucceeded (rt : Runtime) (invoice : Invoice) : Task unit :=
  try_catch
    (updateSubscriptionByStripeId (invoice_subscription invoice)
       [set_last_payment_date (date_now rt);
        set_payment_status PayActive;
        set_updated_at (date_now rt)] ;;;
     subscription <- getSubscriptionByStripeId (invoice_subscription invoice) ;;
     match subscription with
     | Some s => resetUserUsage (s_user_id s) ;;; Return tt
     | None => Return tt
     end)
    (fun _ => Return tt).

Definition handlePaymentFailed (rt : Runtime) (invoice : Invoice) : Task unit :=
  try_catch
    (updateSubscriptionByStripeId (invoice_subscription invoice)
       [set_payment_status PayFailed;
        set_updated_at (date_now rt)] ;;;
     Return tt)
    (fun _ => Return tt).

Definition handle (rt : Runtime) (event : StripeEvent) : Task unit :=
  match event with
  | checkout_session_completed session => handleCheckoutCompleted rt session
  | customer_subscription_created subscription => handleSubscriptionChange rt subscription
  | customer_subscription_updated subscription => handleSubscriptionChange rt subscription
  | customer_subscription_deleted subscription => handleSubscriptionDeleted rt subscription
  | invoice_payment_succeeded invoice => handlePaymentSucceeded rt invoice
  | invoice_payment_failed invoice => handlePaymentFailed rt invoice
  | unhandled_event _ => Return tt
  end.

(** [app.post('/api/webhooks/stripe', ...)]; [constructEvent] is [None] when
    the signature check throws. *)
Definition webhook (rt : Runtime) (constructEvent : option StripeEvent)
  : Task WebhookResponse :=
  match constructEvent with
  | None => Return WebhookError
  | Some event =>
      try_catch
        (handle rt event ;;; Return Received)
        (fun _ => Return WebhookProcessingFailed)
  end.

(** ** Vocabulary of the properties *)

(** The Subscription of a user, and the one a billing reference names. *)
Definition subscription_of (w : World) (userId : string) : option SubscriptionRow :=
  find (fun r => s_user_id r ==? userId) (user_subscriptions w).

Definition subscription_by_ref (w : World) (ref : string) : option SubscriptionRow :=
  find (fun r => sql_eq (stripe_subscription_id r) (Some ref)) (user_subscriptions w).

(** The stored count of a UsageCounter (0 while the row does not exist). *)
Definition stored_count (w : World) (userId featureType : string) : Z :=
  match find (usage_matches userId featureType) (user_usage w) with
  | Some r => usage_count r
  | None => 0
  end.

(** [planTier = free] whenever [status] is [free] or [canceled]. *)
Definition tier_follows_status (w : World) : Prop :=
  forall r, In r (user_subscriptions w) ->
    status r = StFree \/ status r = StCanceled -> plan_type r = PlanFree.

(** Verified events delivered one after another to the webhook endpoint. *)
Fixpoint deliver (events : list (Runtime * StripeEvent)) (w : World) : World :=
  match events with
  | [] => w
  | (rt, event) :: rest => deliver rest (snd (run (webhook rt (Some event)) w))
  end.

(** A SubscriptionChanged event whose status and price agree on the tier. *)
Definition consistent_change (subscription : StripeSubscription) : Prop :=
  status_of_text (sub_status subscription) = Some StFree \/
  status_of_text (sub_status subscription) = Some StCanceled ->
  planType_of_amount (sub_unit_amount subscription) = PlanFree.

Definition consistent_event (event : StripeEvent) : Prop :=
  match event with
  | customer_subscription_created subscription => consistent_change subscription
  | customer_subscription_updated subscription => consistent_change subscription
  | _ => True
  end.

(** Requests served one after another, each with its own runtime values. *)
Fixpoint serve {A : Type} (requests : list (Task A)) (w : World)
  : list (Error + A) * World :=
  match requests with
  | [] => ([], w)
  | t :: rest =>
      let (r, w') := run t w in
      let (rs, w'') := serve rest w' in
      (r :: rs, w'')
  end.

(** ** Rows after an event, and what a task may send *)

(** A row after the update of [handleSubscriptionDeleted]. *)
Definition canceled_at (now : Timestamp) (r : SubscriptionRow) : SubscriptionRow :=
  mkSubscription (s_id r) (s_user_id r) (stripe_customer_id r) (stripe_subscription_id r)
    StCanceled PlanFree (current_period_start r) (current_period_end r)
    (last_payment_date r) (payment_status r) (s_created_at r) now.

(** [WHERE stripe_subscription_id = ?] *)
Definition named_by (ref : option string) (r : SubscriptionRow) : bool :=
  sql_eq (stripe_subscription_id r) ref.

(** The amount-to-tier mapping in the words of the specification: exact
    match on 999 and 2999, free for anything else or no amount. *)
Definition tier_by_exact_match (amount : option Z) : PlanType :=
  match amount with
  | Some a => if a =? 999 then PlanPro else if a =? 2999 then PlanPremium else PlanFree
  | None => PlanFree
  end.

(** A row after the update of [handleSubscriptionChange]. *)
Definition changed_to (st : Status) (tier : PlanType) (period_start period_end : Timestamp)
  (now : Timestamp) (r : SubscriptionRow) : SubscriptionRow :=
  mkSubscription (s_id r) (s_user_id r) (stripe_customer_id r) (stripe_subscription_id r)
    st tier (Some period_start) (Some period_end)
    (last_payment_date r) (payment_status r) (s_created_at r) now.

(** Seconds that [new Date(s * 1000)] turns into a valid date. *)
Definition valid_seconds (s : Z) : Prop := Z.abs (s * 1000) <= 8640000000000000.

Definition is_valid_boundary (x : JsonNumber) : bool :=
  match to_number x with
  | Some s => Z.abs (s * 1000) <=? 8640000000000000
  | None => false
  end.

(** A SubscriptionChanged event whose UPDATE can be stored: its status is
    one that the CHECK on [status] lists, and both of its period boundaries
    convert to valid dates. *)
Definition storable (subscription : StripeSubscription) : bool :=
  match status_of_text (sub_status subscription) with
  | Some _ =>
      is_valid_boundary (sub_current_period_start subscription)
      && is_valid_boundary (sub_current_period_end subscription)
  | None => false
  end.

(** Whether a run met a failed statement. *)
Definition failed (l : list bool) : bool := existsb (fun b => b) l.

(** [Number.isSafeInteger]: the integers that a JS number holds exactly,
    and whose successor it holds exactly. *)
Definition safe_integer (n : Z) : Prop := - 2 ^ 53 < n < 2 ^ 53.

(** What [getUserUsage] reads. *)
Definition usage_of (w : World) (userId : string) : list UsageRow :=
  filter (fun r => g_user_id r ==? userId) (user_usage w).

(** A row after the update of [handlePaymentSucceeded]. *)
Definition paid_at (now : Timestamp) (r : SubscriptionRow) : SubscriptionRow :=
  mkSubscription (s_id r) (s_user_id r) (stripe_customer_id r) (stripe_subscription_id r)
    (status r) (plan_type r) (current_period_start r) (current_period_end r)
    (Some now) PayActive (s_created_at r) now.

(** A usage row after [resetUserUsage] for [userId]. *)
Definition zeroed (clock : Timestamp) (userId : string) (g : UsageRow) : UsageRow :=
  if g_user_id g ==? userId
  then mkUsage (g_id g) (g_user_id g) (feature_type g) 0 clock (g_created_at g) clock
  else g.

(** A usage row after the UPDATE of [incrementUsage]. *)
Definition bumped (clock : Timestamp) (userId feature : string) (r : UsageRow) : UsageRow :=
  if usage_matches userId feature r
  then mkUsage (g_id r) (g_user_id r) (feature_type r) (usage_count r + 1)
         (last_reset_date r) (g_created_at r) clock
  else r.

(** The row the INSERT of [incrementUsage] creates. *)
Definition first_use (clock : Timestamp) (id userId feature : string) : UsageRow :=
  mkUsage id userId feature 1 clock clock clock.

(** Every statement the task can reach satisfies [ok]. *)
Inductive issues_only {A : Type} (ok : forall X : Type, Sql X -> Prop) : Task A -> Prop :=
| issues_return (a : A) : issues_only ok (Return a)
| issues_throw (e : Error) : issues_only ok (Throw e)
| issues_await (X : Type) (q : Sql X) (k : Error + X -> Task A) :
    ok X q -> (forall r, issues_only ok (k r)) -> issues_only ok (Await q k).

(** The tier invariant on one row. *)
Definition row_ok (r : SubscriptionRow) : Prop :=
  status r = StFree \/ status r = StCanceled -> plan_type r = PlanFree.

(** Entries that cannot break the invariant of the row they are bound to. *)
Definition keeps_tier (data : list SubscriptionField) : Prop :=
  forall r r', row_ok r -> assign_all data r = Some r' -> row_ok r'.

(** Statements whose entries keep the invariant. *)
Definition tier_safe (X : Type) (q : Sql X) : Prop :=
  match q with
  | UpdateSubscriptionByUser _ data => keeps_tier data
  | InsertSubscription _ _ data => keeps_tier data
  | UpdateSubscriptionByStripeId _ data => keeps_tier data
  | _ => True
  end.

(** Whose row it is and the tier it stores. *)
Definition tier_entry (r : SubscriptionRow) : string * PlanType :=
  (s_user_id r, plan_type r).

(** The rows of [w0] are still there, in order and with their tiers; rows
    created since store the tier free. *)
Definition tiers_framed (w0 w : World) : Prop :=
  exists created : list string,
    map tier_entry (user_subscriptions w) =
    map tier_entry (user_subscriptions w0) ++ map (fun u => (u, PlanFree)) created.

(** Entries that leave the owner and the tier of a row alone. *)
Definition no_plan_write (data : list SubscriptionField) : Prop :=
  forall r r', assign_all data r = Some r' -> tier_entry r' = tier_entry r.

(** Statements that do not write the tier. *)
Definition plan_safe (X : Type) (q : Sql X) : Prop :=
  match q with
  | UpdateSubscriptionByUser _ data => no_plan_write data
  | InsertSubscription _ _ data => no_plan_write data
  | UpdateSubscriptionByStripeId _ data => no_plan_write data
  | _ => True
  end.

(** The statement is the UPDATE of the Subscription a reference names, and
    the tier it binds to [plan_type] is [tier] (and no other). *)
Definition writes_tier (ref : string) (tier : PlanType) (X : Type) (q : Sql X) : Prop :=
  match q with
  | UpdateSubscriptionByStripeId sid data =>
      sid = Some ref /\
      In (set_plan_type tier) data /\
      forall t, In (set_plan_type t) data -> t = tier
  | _ => False
  end.

(** The tier of the first entry of a user, free when there is none. *)
Definition tier_in (entries : list (string * PlanType)) (userId : string) : PlanType :=
  match find (fun e => fst e ==? userId) entries with
  | Some e => snd e
  | None => PlanFree
  end.

(** A row after the entries of [handleCheckoutCompleted] are bound. *)
Definition checked_out (c s : option string) (now : Timestamp) (r : SubscriptionRow)
  : SubscriptionRow :=
  mkSubscription (s_id r) (s_user_id r) c s StActive (plan_type r)
    (current_period_start r) (current_period_end r) (last_payment_date r)
    (payment_status r) (s_created_at r) now.

(** No restriction on the statements. *)
Definition any_statement (X : Type) (q : Sql X) : Prop := True.

(** UNIQUE(stripe_subscription_id) holds of the table. *)
Definition schema_unique (w : World) : Prop :=
  unique_stripe_ids (user_subscriptions w) = true.

(** The task a finished run has become. *)
Definition settled {A : Type} (r : Error + A) : Task A :=
  match r with
  | inl e => Throw e
  | inr a => Return a
  end.

(** No statement follows a failed one. *)
Fixpoint failure_last (l : list bool) : bool :=
  match l with
  | [] => true
  | true :: rest => match rest with [] => true | _ :: _ => false end
  | false :: rest => failure_last rest
  end.

(** ** Sample data *)

(** A registered user. *)
Definition alice : UserRow := mkUser "u-alice" "alice@example.com".

(** Three requests, a quarter of a second apart, with their uuids. *)
Definition request_1 : Runtime :=
  mkRuntime 1700000000000 "0b6c1f0e-5a51-4c0e-9d0a-000000000001".

Definition request_2 : Runtime :=
  mkRuntime 1700000000250 "0b6c1f0e-5a51-4c0e-9d0a-000000000002".

Definition request_3 : Runtime :=
  mkRuntime 1700000000500 "0b6c1f0e-5a51-4c0e-9d0a-000000000003".

(** Alice has registered and nothing else has happened. *)
Definition signup_world : World := mkWorld [alice] [] [] 1700000000000 [].

(** Her checkout session, her subscription at 9.99, and its invoice. *)
Definition alice_checkout : CheckoutSession :=
  mkSession "cs_1" (Some "alice@example.com") (Some "cus_1") (Some "sub_1").

Definition alice_pro : StripeSubscription :=
  mkStripeSubscription "sub_1" "active" (Some 999) (JsonNum 1700000000) (JsonNum 1702592000).

(** The subscription was canceled; the price on its item is still 999. *)
Definition alice_pro_canceled : StripeSubscription :=
  mkStripeSubscription "sub_1" "canceled" (Some 999) (JsonNum 1700000000) (JsonNum 1702592000).

(** The same subscription while its first payment is pending: a status the
    CHECK on [status] does not list. *)
Definition alice_incomplete : StripeSubscription :=
  mkStripeSubscription "sub_1" "incomplete" (Some 999) (JsonNum 1700000000) (JsonNum 1702592000).

(** The same subscription once its payments have been given up: again a
    status the CHECK does not list. *)
Definition alice_unpaid : StripeSubscription :=
  mkStripeSubscription "sub_1" "unpaid" (Some 999) (JsonNum 1700000000) (JsonNum 1702592000).

Definition alice_invoice : Invoice := mkInvoice "in_1" (Some "sub_1").

(** After her checkout. *)
Definition subscribed_world : World :=
  deliver [(request_1, checkout_session_completed alice_checkout)] signup_world.

(** After the update that reports the cancellation. *)
Definition lapsed_world : World :=
  deliver [(request_2, customer_subscription_updated alice_pro_canceled)] subscribed_world.

(** Alice on the free tier with one of her two assessments used. *)
Definition one_left_world : World :=
  mkWorld [alice] []
    [mkUsage "0b6c1f0e-5a51-4c0e-9d0a-000000000000" "u-alice" "assessment" 1
       1700000000000 1700000000000 1700000000000]
    1700000000100 [].

(** The driver fails the next statement. *)
Definition failing_world : World :=
  mkWorld (users subscribed_world) (user_subscriptions subscribed_world)
    (user_usage subscribed_world) (db_clock subscribed_world) [true].

(** Alice, subscribed and still on the free tier, has used both of her
    assessments. *)
Definition exhausted_world : World :=
  snd (serve [increment request_2 "u-alice" "assessment";
              increment request_3 "u-alice" "assessment"] subscribed_world).

(** ** More vocabulary: tables, frames, schema invariants *)

(** What the database holds, apart from the schedule of failures. *)
Definition tables (w : World)
  : list UserRow * list SubscriptionRow * list UsageRow * Timestamp :=
  (users w, user_subscriptions w, user_usage w, db_clock w).

(** The statements that only read. *)
Definition is_select (X : Type) (q : Sql X) : Prop :=
  match q with
  | SelectUserByEmail _ => True
  | SelectSubscriptionByUser _ => True
  | SelectSubscriptionByStripeId _ => True
  | SelectUsage _ _ => True
  | SelectUsageByUser _ => True
  | _ => False
  end.

(** The statements of [/increment/:feature] for one user and feature: reads,
    and writes of that one counter. *)
Definition counts_only (userId featureType : string) (X : Type) (q : Sql X) : Prop :=
  match q with
  | SelectSubscriptionByUser _ => True
  | SelectUsage _ _ => True
  | SelectUsageByUser _ => True
  | UpdateUsageIncrement u f => u = userId /\ f = featureType
  | InsertUsage _ u f => u = userId /\ f = featureType
  | _ => False
  end.

(** Everything but the counter of [(userId, featureType)] is as in [w0]. *)
Definition counter_framed (userId featureType : string) (w0 w : World) : Prop :=
  users w = users w0 /\
  user_subscriptions w = user_subscriptions w0 /\
  forall u f, u <> userId \/ f <> featureType ->
    stored_count w u f = stored_count w0 u f.

(** The key of a counter row, and what never changes in a row. *)
Definition usage_key (g : UsageRow) : string * string := (g_user_id g, feature_type g).

Definition usage_identity (g : UsageRow) : string * string * string * Timestamp :=
  (g_id g, g_user_id g, feature_type g, g_created_at g).

(** The schema of [user_usage], as far as the code relies on it: the primary
    key, UNIQUE(user_id, feature_type), the CHECK on [feature_type], and
    counts that are not negative. *)
Definition usage_schema (w : World) : Prop :=
  NoDup (map g_id (user_usage w)) /\
  NoDup (map usage_key (user_usage w)) /\
  Forall (fun g => mem_string (feature_type g) feature_types = true /\ 0 <= usage_count g)
    (user_usage w).

(** The statements that leave [user_usage] alone. *)
Definition spares_usage (X : Type) (q : Sql X) : Prop :=
  match q with
  | UpdateUsageIncrement _ _ => False
  | InsertUsage _ _ _ => False
  | UpdateUsageReset _ => False
  | _ => True
  end.

(** A billing event that resolves to nothing stored: a checkout without an
    email or for an email no user has, a subscription or invoice event whose
    reference names no Subscription (or is null), an event of a type the
    endpoint does not handle. *)
Definition unresolved (event : StripeEvent) (w : World) : Prop :=
  match event with
  | checkout_session_completed session =>
      match customer_details_email session with
      | None => True
      | Some email => email = "" \/ find (fun u => u_email u ==? email) (users w) = None
      end
  | customer_subscription_created subscription =>
      subscription_by_ref w (sub_id subscription) = None
  | customer_subscription_updated subscription =>
      subscription_by_ref w (sub_id subscription) = None
  | customer_subscription_deleted subscription =>
      subscription_by_ref w (sub_id subscription) = None
  | invoice_payment_succeeded invoice =>
      match invoice_subscription invoice with
      | None => True
      | Some ref => subscription_by_ref w ref = None
      end
  | invoice_payment_failed invoice =>
      match invoice_subscription invoice with
      | None => True
      | Some ref => subscription_by_ref w ref = None
      end
  | unhandled_event _ => True
  end.

(** A row after the update of [handlePaymentFailed]. *)
Definition failed_at (now : Timestamp) (r : SubscriptionRow) : SubscriptionRow :=
  mkSubscription (s_id r) (s_user_id r) (stripe_customer_id r) (stripe_subscription_id r)
    (status r) (plan_type r) (current_period_start r) (current_period_end r)
    (last_payment_date r) PayFailed (s_created_at r) now.

(** The statements that neither create a counter nor raise one. *)
Definition no_counting (X : Type) (q : Sql X) : Prop :=
  match q with
  | UpdateUsageIncrement _ _ => False
  | InsertUsage _ _ _ => False
  | _ => True
  end.

(** A counter row that is still the same row, with the count it had or
    with 0. *)
Definition kept_or_reset (g g' : UsageRow) : Prop :=
  usage_identity g' = usage_identity g /\
  (usage_count g' = usage_count g \/ usage_count g' = 0).

(** The one event whose handler writes [user_usage]. *)
Definition resets_usage (event : StripeEvent) : bool :=
  match event with
  | invoice_payment_succeeded _ => true
  | _ => false
  end.

(** At most one Subscription row for a user. *)
Definition one_subscription_each (w : World) : Prop :=
  NoDup (map s_user_id (user_subscriptions w)).

(** The statements that create no Subscription. *)
Definition no_insert (X : Type) (q : Sql X) : Prop :=
  match q with
  | InsertSubscription _ _ _ => False
  | _ => True
  end.

(** The rows of a user after the entries of a checkout are bound to them. *)
Definition checked_out_rows (session : CheckoutSession) (now : Timestamp)
  (userId : string) (rows : list SubscriptionRow) : list SubscriptionRow :=
  map (fun r => if s_user_id r ==? userId
                then checked_out (session_customer session) (session_subscription session)
                       now r
                else r) rows.

(** What [handleCheckoutCompleted] leaves on a database that does not fail. *)
Definition checkout_world (rt : Runtime) (session : CheckoutSession) (w : World) : World :=
  match customer_details_email session with
  | None => w
  | Some email =>
      if email ==? "" then w
      else
        match find (fun u => u_email u ==? email) (users w) with
        | None => w
        | Some user =>
            match find (fun r => s_user_id r ==? u_id user) (user_subscriptions w) with
            | Some _ =>
                let rows' :=
                  checked_out_rows session (date_now rt) (u_id user) (user_subscriptions w) in
                if unique_stripe_ids rows' then with_subscriptions rows' w else w
            | None =>
                if mem_string (uuidv4 rt) (map s_id (user_subscriptions w)) then w
                else
                  let rows' :=
                    user_subscriptions w ++
                    [checked_out (session_customer session) (session_subscription session)
                       (date_now rt)
                       (default_subscription (uuidv4 rt) (u_id user) (db_clock w))] in
                  if unique_stripe_ids rows' then with_subscriptions rows' w else w
            end
        end
  end.

(** ** routes/subscriptions: the routes that read the Subscription

    [stripeClient] is the billing provider's API: a call either resolves
    ([Some]) or rejects ([None]), and a rejection lands in the route's
    [catch]. *)

Record StripeClient : Type := mkStripeClient {
  (** [billingPortal.sessions.create({ customer, return_url })], its [url] *)
  billingPortal_sessions_create : string -> option string;
  (** [subscriptions.update(id, { cancel_at_period_end: true })] *)
  subscriptions_update : string -> option unit
}.

Inductive SubscriptionResponse : Type :=
| StatusFree          (* { status: 'free', plan_type: 'free', ...: null } *)
| StatusOf (status : Status) (plan_type : PlanType)
    (current_period_start current_period_end : option Timestamp)
    (payment_status : PaymentStatus) (stripe_customer_id : option string)
| PortalUrl (url : string)
| CancelAtPeriodEnd   (* 'Subscription will be canceled at the end of ...' *)
| NoActiveSubscription                                                (* 400 *)
| SubscriptionServerError.                                            (* 500 *)

(** [!subscription.stripe_customer_id]: NULL and the empty text are falsy. *)
Definition present (reference : option string) : option string :=
  match reference with
  | Some s => if s ==? "" then None else Some s
  | None => None
  end.

Definition subscription_status (userId : string) : Task SubscriptionResponse :=
  try_catch
    (subscription <- getUserSubscription userId ;;
     match subscription with
     | None => Return StatusFree
     | Some s =>
         Return (StatusOf (status s) (plan_type s) (current_period_start s)
                   (current_period_end s) (payment_status s) (stripe_customer_id s))
     end)
    (fun _ => Return SubscriptionServerError).

Definition create_portal_session (stripeClient : StripeClient) (userId : string)
  : Task SubscriptionResponse :=
  try_catch
    (subscription <- getUserSubscription userId ;;
     match subscription with
     | None => Return NoActiveSubscription
     | Some s =>
         match present (stripe_customer_id s) with
         | None => Return NoActiveSubscription
         | Some customer =>
             match billingPortal_sessions_create stripeClient customer with
             | Some url => Return (PortalUrl url)
             | None => Return SubscriptionServerError
             end
         end
     end)
    (fun _ => Return SubscriptionServerError).

Definition cancel (stripeClient : StripeClient) (userId : string)
  : Task SubscriptionResponse :=
  try_catch
    (subscription <- getUserSubscription userId ;;
     match subscription with
     | None => Return NoActiveSubscription
     | Some s =>
         match present (stripe_subscription_id s) with
         | None => Return NoActiveSubscription
         | Some reference =>
             match subscriptions_update stripeClient reference with
             | Some _ => Return CancelAtPeriodEnd
             | None => Return SubscriptionServerError
             end
         end
     end)
    (fun _ => Return SubscriptionServerError).

(** ** database.js: [resetAllUsage]

    No route calls it; its one statement,
    [UPDATE user_usage SET usage_count = 0, last_reset_date = CURRENT_TIMESTAMP,
    updated_at = CURRENT_TIMESTAMP], is given by what [Database.run] does
    with it. *)

Definition zero_row (clock : Timestamp) (g : UsageRow) : UsageRow :=
  mkUsage (g_id g) (g_user_id g) (feature_type g) 0 clock (g_created_at g) clock.

Definition resetAllUsage (w : World) : (Error + RunResult) * World :=
  let update := fun w0 : World =>
    (inr (List.length (user_usage w0)),
     with_usage (map (zero_row (db_clock w0)) (user_usage w0)) w0) in
  match faults w with
  | true :: rest => (inl StorageFailure, with_faults rest w)
  | false :: rest => update (with_faults rest w)
  | [] => update w
  end.

(** [resetUserUsage] for one user after the other. *)
Definition reset_each (userIds : list string) (w : World) : World :=
  fold_left (fun w0 userId => snd (run (resetUserUsage userId) w0)) userIds w.

(** ** The [users] table in full, and routes/auth

    The entitlement code above reads only the id and the email of a user.
    Registration and login use the whole row, so the table is given here
    with all its columns, with its own statements and its own tasks; a
    [UserRow] is what is left of an [Account] ([account_row]). *)

Record Account : Type := mkAccount {
  a_id : string;
  a_email : string;
  a_password_hash : option string;
  a_name : option string;
  a_created_at : Timestamp;
  a_updated_at : Timestamp
}.


Record Directory : Type := mkDirectory {
  accounts : list Account;
  dir_clock : Timestamp;
  dir_faults : list bool
}.

Inductive AuthError : Type :=
| DriverError       (* the driver reported an error for the statement *)
| ConstraintError   (* PRIMARY KEY or UNIQUE(email) *)
| BcryptError       (* bcrypt.compare without a hash *)
| TypeError.        (* a property read on undefined *)

Inductive UserSql : Type -> Type :=
| InsertUser (id email passwordHash : string) (name : option string) : UserSql RunResult
| SelectUserById (id : string) : UserSql (option Account)
| SelectAccountByEmail (email : string) : UserSql (option Account).

Definition exec_user_sql {X : Type} (q : UserSql X) (d : Directory)
  : (AuthError + X) * Directory :=
  match q in UserSql X return (AuthError + X) * Directory with
  | InsertUser id email passwordHash name =>
      if mem_string id (map a_id (accounts d)) || mem_string email (map a_email (accounts d))
      then (inl ConstraintError, d)
      else
        (inr 1%nat,
         mkDirectory
           (accounts d ++
              [mkAccount id email (Some passwordHash) name (dir_clock d) (dir_clock d)])
           (dir_clock d) (dir_faults d))
  | SelectUserById id => (inr (find (fun a => a_id a ==? id) (accounts d)), d)
  | SelectAccountByEmail email => (inr (find (fun a => a_email a ==? email) (accounts d)), d)
  end.

Definition exec_users {X : Type} (q : UserSql X) (d : Directory)
  : (AuthError + X) * Directory :=
  match dir_faults d with
  | true :: rest => (inl DriverError, mkDirectory (accounts d) (dir_clock d) rest)
  | false :: rest => exec_user_sql q (mkDirectory (accounts d) (dir_clock d) rest)
  | [] => exec_user_sql q d
  end.

(** The [async] functions of routes/auth. *)
Inductive AuthTask (A : Type) : Type :=
| Finish (a : A)
| Raise (e : AuthError)
| AwaitUsers {X : Type} (q : UserSql X) (k : AuthError + X -> AuthTask A).

Arguments Finish {A} a.
Arguments Raise {A} e.
Arguments AwaitUsers {A X} q k.

Fixpoint auth_bind {A B : Type} (t : AuthTask A) (f : A -> AuthTask B) : AuthTask B :=
  match t with
  | Finish a => f a
  | Raise e => Raise e
  | AwaitUsers q k => AwaitUsers q (fun r => auth_bind (k r) f)
  end.

Fixpoint auth_try {A : Type} (t : AuthTask A) (h : AuthError -> AuthTask A) : AuthTask A :=
  match t with
  | Finish a => Finish a
  | Raise e => h e
  | AwaitUsers q k => AwaitUsers q (fun r => auth_try (k r) h)
  end.

Definition auth_await {X : Type} (q : UserSql X) : AuthTask X :=
  AwaitUsers q (fun r => match r with inl e => Raise e | inr x => Finish x end).

Fixpoint auth_run {A : Type} (t : AuthTask A) (d : Directory)
  : (AuthError + A) * Directory :=
  match t with
  | Finish a => (inr a, d)
  | Raise e => (inl e, d)
  | AwaitUsers q k => let (r, d') := exec_users q d in auth_run (k r) d'
  end.

(** [bcrypt] and [jsonwebtoken], as they answer during the requests at
    hand. *)
Record Crypto : Type := mkCrypto {
  bcrypt_hash : string -> string;             (* bcrypt.hash(password, 10) *)
  bcrypt_compare : string -> string -> bool;  (* bcrypt.compare(password, hash) *)
  jwt_sign : string -> string -> string;      (* jwt.sign({ userId, email }, ...) *)
  jwt_verify : string -> option (string * string)
}.

(** database.js: the user methods. *)
Definition getUserById (id : string) : AuthTask (option Account) :=
  auth_await (SelectUserById id).

Definition getAccountByEmail (email : string) : AuthTask (option Account) :=
  auth_await (SelectAccountByEmail email).

Definition createUser (rt : Runtime) (email passwordHash : string) (name : option string)
  : AuthTask (option Account) :=
  auth_bind (auth_await (InsertUser (uuidv4 rt) email passwordHash name))
    (fun _ => getUserById (uuidv4 rt)).

Inductive AuthResponse : Type :=
| UserCreated (id email : string) (name : option string) (token : string)   (* 201 *)
| LoginSuccessful (id email : string) (name : option string) (token : string)
| CurrentUser (id email : string) (name : option string)
| EmailAndPasswordRequired                                                  (* 400 *)
| InvalidCredentials                                                        (* 401 *)
| UserNotFound                                                              (* 404 *)
| UserAlreadyExists                                                         (* 409 *)
| AuthServerError.                                                          (* 500 *)

Definition register (crypto : Crypto) (rt : Runtime) (email password name : option string)
  : AuthTask AuthResponse :=
  auth_try
    (match present email, present password with
     | Some email, Some password =>
         auth_bind (getAccountByEmail email) (fun existingUser =>
         match existingUser with
         | Some _ => Finish UserAlreadyExists
         | None =>
             auth_bind (createUser rt email (bcrypt_hash crypto password) name) (fun user =>
             match user with
             | Some user =>
                 Finish (UserCreated (a_id user) (a_email user) (a_name user)
                           (jwt_sign crypto (a_id user) (a_email user)))
             | None => Raise TypeError
             end)
         end)
     | _, _ => Finish EmailAndPasswordRequired
     end)
    (fun _ => Finish AuthServerError).

Definition login (crypto : Crypto) (email password : option string) : AuthTask AuthResponse :=
  auth_try
    (match present email, present password with
     | Some email, Some password =>
         auth_bind (getAccountByEmail email) (fun user =>
         match user with
         | None => Finish InvalidCredentials
         | Some user =>
             match a_password_hash user with
             | None => Raise BcryptError
             | Some hash =>
                 if bcrypt_compare crypto password hash
                 then Finish (LoginSuccessful (a_id user) (a_email user) (a_name user)
                                (jwt_sign crypto (a_id user) (a_email user)))
                 else Finish InvalidCredentials
             end
         end)
     | _, _ => Finish EmailAndPasswordRequired
     end)
    (fun _ => Finish AuthServerError).

Definition me (userId : string) : AuthTask AuthResponse :=
  auth_try
    (auth_bind (getUserById userId) (fun user =>
     match user with
     | None => Finish UserNotFound
     | Some user => Finish (CurrentUser (a_id user) (a_email user) (a_name user))
     end))
    (fun _ => Finish AuthServerError).

(** [authHeader.split(' ')] *)
Fixpoint split_space (s : string) : list string :=
  match s with
  | EmptyString => [EmptyString]
  | String c rest =>
      if Ascii.eqb c Ascii.Space then EmptyString :: split_space rest
      else
        match split_space rest with
        | segment :: segments => String c segment :: segments
        | [] => [String c EmptyString]
        end
  end.

Fixpoint has_space (s : string) : bool :=
  match s with
  | EmptyString => false
  | String c rest => Ascii.eqb c Ascii.Space || has_space rest
  end.

(** [authHeader && authHeader.split(' ')[1]], [None] when [!token]. *)
Definition bearer_token (authorization : option string) : option string :=
  match present authorization with
  | None => None
  | Some authHeader => present (nth_error (split_space authHeader) 1)
  end.

Inductive AuthOutcome : Type :=
| AccessTokenRequired      (* 401 *)
| InvalidOrExpiredToken    (* 403 *)
| Next (userId email : string).   (* req.user = user; next() *)

Definition authenticateToken (crypto : Crypto) (authorization : option string)
  : AuthOutcome :=
  match bearer_token authorization with
  | None => AccessTokenRequired
  | Some token =>
      match jwt_verify crypto token with
      | None => InvalidOrExpiredToken
      | Some (userId, email) => Next userId email
      end
  end.

(** The row [createUser] inserts for a registration. *)
Definition registered (crypto : Crypto) (rt : Runtime) (email password : string)
    (name : option string) (d : Directory) : Account :=
  mkAccount (uuidv4 rt) email (Some (bcrypt_hash crypto password)) name
    (dir_clock d) (dir_clock d).

(** What a login answers for a stored account. *)
Definition login_answer (crypto : Crypto) (attempt : string) (a : Account) : AuthResponse :=
  match a_password_hash a with
  | Some hash =>
      if bcrypt_compare crypto attempt hash
      then LoginSuccessful (a_id a) (a_email a) (a_name a)
             (jwt_sign crypto (a_id a) (a_email a))
      else InvalidCredentials
  | None => AuthServerError
  end.

(** ** More sample data *)

(** Alice's subscription at 29.99, and her store after the update that
    reports it. *)
Definition alice_premium : StripeSubscription :=
  mkStripeSubscription "sub_1" "active" (Some 2999) (JsonNum 1700000000) (JsonNum 1702592000).

Definition premium_world : World :=
  deliver [(request_2, customer_subscription_updated alice_premium)] subscribed_world.

(** A second delivery at the instant of [request_2]. *)
Definition request_2_again : Runtime :=
  mkRuntime 1700000000250 "0b6c1f0e-5a51-4c0e-9d0a-000000000004".

(** A billing provider that accepts what it is asked. *)
Definition accepting_stripe : StripeClient :=
  mkStripeClient (fun customer => Some ("https://billing.example/p/" ++ customer)%string)
    (fun _ => Some tt).

(** The [users] table with Alice's row in full. *)
Definition alice_account : Account :=
  mkAccount "u-alice" "alice@example.com" (Some "$2b$10$alice") (Some "Alice")
    1700000000000 1700000000000.


(** The same table when the third statement to come fails in the driver. *)
Definition flaky_directory : Directory :=
  mkDirectory [alice_account] 1700000000000 [false; false; true].

(** Stand-ins for bcrypt and jsonwebtoken in the examples. *)
Definition example_crypto : Crypto :=
  mkCrypto (fun password => ("$2b$10$" ++ password)%string)
    (fun password hash => hash ==? ("$2b$10$" ++ password)%string)
    (fun userId email => ("jwt:" ++ userId)%string)
    (fun token => if token ==? "jwt:u-alice" then Some ("u-alice", "alice@example.com")
                  else None).

(** * Properties *)

(** ** Running tasks *)

Section RunLaws.
Context {A B : Type}.

(** [run] goes through a sequence: the rest runs when the first part
    returned, and is skipped when it threw. *)
Lemma run_bind (t : Task A) (f : A -> Task B) (w : World) :
  run (bind t f) w =
  match run t w with
  | (inr a, w') => run (f a) w'
  | (inl e, w') => (inl e, w')
  end.
Proof.
  revert w; induction t as [a | e | X q k IH]; intros w; simpl; try reflexivity.
  destruct (exec q w) as [r w']. apply IH.
Qed.

(** [run] goes through [try]/[catch]: the handler runs on what was thrown. *)
Lemma run_try_catch (t : Task A) (h : Error -> Task A) (w : World) :
  run (try_catch t h) w =
  match run t w with
  | (inr a, w') => (inr a, w')
  | (inl e, w') => run (h e) w'
  end.
Proof.
  revert w; induction t as [a | e | X q k IH]; intros w; simpl; try reflexivity.
  destruct (exec q w) as [r w']. apply IH.
Qed.

(** The statements of a sequence are those of its first part followed by
    those of the rest. *)
Lemma outcomes_bind (t : Task A) (f : A -> Task B) (w : World) :
  outcomes (bind t f) w =
  outcomes t w ++
  match run t w with
  | (inr a, w') => outcomes (f a) w'
  | (inl _, _) => []
  end.
Proof.
  revert w; induction t as [a | e | X q k IH]; intros w; simpl; try reflexivity.
  destruct (exec q w) as [r w']. simpl. f_equal. apply IH.
Qed.

(** The statements of a [try]/[catch] are those of the body followed by
    those of the handler. *)
Lemma outcomes_try_catch (t : Task A) (h : Error -> Task A) (w : World) :
  outcomes (try_catch t h) w =
  outcomes t w ++
  match run t w with
  | (inr _, _) => []
  | (inl e, w') => outcomes (h e) w'
  end.
Proof.
  revert w; induction t as [a | e | X q k IH]; intros w; simpl; try reflexivity.
  destruct (exec q w) as [r w']. simpl. f_equal. apply IH.
Qed.
End RunLaws.

(** Awaiting one statement is executing it. *)
Lemma run_await {X : Type} (q : Sql X) (w : World) :
  run (await q) w = exec q w.
Proof.
  unfold await; simpl. destruct (exec q w) as [[e | x] w']; reflexivity.
Qed.

(** With no failure scheduled, a statement does what its SQL says. *)
Lemma exec_no_fault {X : Type} (q : Sql X) (w : World) :
  faults w = [] -> exec q w = exec_sql q w.
Proof. intros H; unfold exec; rewrite H; reflexivity. Qed.

Lemma world_eta (w : World) :
  mkWorld (users w) (user_subscriptions w) (user_usage w) (db_clock w) (faults w) = w.
Proof. destruct w; reflexivity. Qed.

Lemma with_subscriptions_same (w : World) :
  with_subscriptions (user_subscriptions w) w = w.
Proof. apply world_eta. Qed.

Lemma with_usage_same (w : World) : with_usage (user_usage w) w = w.
Proof. apply world_eta. Qed.

(** ** What a task may send to the database *)

Lemma issues_only_bind {A B : Type} (ok : forall X : Type, Sql X -> Prop)
  (t : Task A) (f : A -> Task B) :
  issues_only ok t -> (forall a, issues_only ok (f a)) -> issues_only ok (bind t f).
Proof.
  intros Ht Hf. induction Ht as [a | e | X q k Hq Hk IH]; simpl.
  - apply Hf.
  - constructor.
  - constructor; [exact Hq | exact IH].
Qed.

Lemma issues_only_try_catch {A : Type} (ok : forall X : Type, Sql X -> Prop)
  (t : Task A) (h : Error -> Task A) :
  issues_only ok t -> (forall e, issues_only ok (h e)) -> issues_only ok (try_catch t h).
Proof.
  intros Ht Hh. induction Ht as [a | e | X q k Hq Hk IH]; simpl.
  - constructor.
  - apply Hh.
  - constructor; [exact Hq | exact IH].
Qed.

Lemma issues_only_await {X : Type} (ok : forall X : Type, Sql X -> Prop) (q : Sql X) :
  ok X q -> issues_only ok (await q).
Proof.
  intros Hq. unfold await. constructor; [exact Hq |].
  intros [e | x]; constructor.
Qed.

(** A property of the world that every allowed statement keeps is kept by
    the whole run. *)
Lemma run_invariant {A : Type} (ok : forall X : Type, Sql X -> Prop) (I : World -> Prop) :
  (forall (X : Type) (q : Sql X) (w : World), ok X q -> I w -> I (snd (exec q w))) ->
  forall t : Task A, issues_only ok t -> forall w, I w -> I (snd (run t w)).
Proof.
  intros Hstep t Ht. induction Ht as [a | e | X q k Hq Hk IH]; intros w Hw; simpl; auto.
  specialize (Hstep X q w Hq Hw). destruct (exec q w) as [r w']. apply IH, Hstep.
Qed.

(** [toISOString] sends nothing. *)
Lemma toISOString_issues {ok : forall X : Type, Sql X -> Prop} (s : option Z) :
  issues_only ok (toISOString s).
Proof.
  unfold toISOString. destruct s as [s |]; [| constructor].
  destruct (Z.abs (s * 1000) <=? 8640000000000000); constructor.
Qed.

(** Walks a handler down to its statements; [ok_unfold] exposes what is
    asked of each. *)
Ltac issues ok_unfold :=
  repeat match goal with
    | |- issues_only _ (try_catch _ _) => apply issues_only_try_catch
    | |- issues_only _ (bind _ _) => apply issues_only_bind
    | |- issues_only _ (await _) => apply issues_only_await
    | |- issues_only _ (Return _) => apply issues_return
    | |- issues_only _ (Throw _) => apply issues_throw
    | |- issues_only _ (toISOString _) => apply toISOString_issues
    | |- issues_only _ (match ?x with _ => _ end) => destruct x
    | |- issues_only _ (if ?x then _ else _) => destruct x
    | |- forall _, _ => intro
    | |- True => exact I
    | |- _ => progress ok_unfold
    end.

(** The methods of the [Database] class are their statements. *)
Ltac unfold_database :=
  unfold getUserByEmail, updateUserSubscription, updateSubscriptionByStripeId,
    getSubscriptionByStripeId, getUserSubscription, incrementUsage, getUserUsage,
    resetUserUsage.

(** ** Updates of [user_subscriptions] *)

(** An update whose entries pass every CHECK rewrites exactly the selected
    rows. *)
Lemma update_where_total
  (sel : SubscriptionRow -> bool) (data : list SubscriptionField)
  (f : SubscriptionRow -> SubscriptionRow) (rows : list SubscriptionRow) :
  (forall r, assign_all data r = Some (f r)) ->
  update_where sel data rows =
  Some (map (fun r => if sel r then f r else r) rows, List.length (filter sel rows)).
Proof.
  intros Hf. induction rows as [| r rest IH]; simpl; [reflexivity |].
  rewrite IH. destruct (sel r); simpl; [rewrite Hf |]; reflexivity.
Qed.

(** Rewriting rows without touching their billing reference keeps the
    references. *)
Lemma stripe_ids_map (g : SubscriptionRow -> SubscriptionRow) (rows : list SubscriptionRow) :
  (forall r, stripe_subscription_id (g r) = stripe_subscription_id r) ->
  stripe_ids (map g rows) = stripe_ids rows.
Proof.
  intros Hg. induction rows as [| r rest IH]; simpl; [reflexivity |].
  rewrite Hg, IH. reflexivity.
Qed.

(** A lookup commutes with a rewriting that does not change what the
    lookup tests. *)
Lemma find_map_preserved {T : Type} (p : T -> bool) (g : T -> T) (l : list T) :
  (forall x, p (g x) = p x) ->
  find p (map g l) = option_map g (find p l).
Proof.
  intros Hp. induction l as [| x rest IH]; simpl; [reflexivity |].
  rewrite Hp. destruct (p x); [reflexivity | apply IH].
Qed.

(** [UPDATE ... WHERE stripe_subscription_id = ?] with entries that pass
    their CHECKs and leave [stripe_subscription_id] alone. *)
Lemma run_update_total
  (sel : SubscriptionRow -> bool) (data : list SubscriptionField)
  (f : SubscriptionRow -> SubscriptionRow) (w : World) :
  (forall r, assign_all data r = Some (f r)) ->
  (forall r, stripe_subscription_id (f r) = stripe_subscription_id r) ->
  unique_stripe_ids (user_subscriptions w) = true ->
  run_update sel data w =
  (inr (List.length (filter sel (user_subscriptions w))),
   with_subscriptions (map (fun r => if sel r then f r else r) (user_subscriptions w)) w).
Proof.
  intros Hf Hid Hu. unfold run_update.
  rewrite (update_where_total sel data f _ Hf).
  unfold unique_stripe_ids. rewrite stripe_ids_map.
  - unfold unique_stripe_ids in Hu. rewrite Hu. reflexivity.
  - intros r. destruct (sel r); [apply Hid | reflexivity].
Qed.

(** ** SubscriptionDeleted *)

Lemma deleted_run (rt : Runtime) (subscription : StripeSubscription) (w : World) :
  faults w = [] ->
  unique_stripe_ids (user_subscriptions w) = true ->
  run (webhook rt (Some (customer_subscription_deleted subscription))) w =
  (inr Received,
   with_subscriptions
     (map (fun r => if named_by (Some (sub_id subscription)) r
                    then canceled_at (date_now rt) r else r)
        (user_subscriptions w)) w).
Proof.
  intros Hf Hu. unfold webhook, handle, handleSubscriptionDeleted.
  rewrite run_try_catch, run_bind, run_try_catch, run_bind.
  unfold updateSubscriptionByStripeId. rewrite run_await, exec_no_fault by exact Hf.
  cbn [exec_sql].
  rewrite (run_update_total _ _ (canceled_at (date_now rt))); auto.
Qed.

(** Canceling rows keeps the billing references unique. *)
Lemma canceled_rows_unique (now : Timestamp) (ref : option string)
  (rows : list SubscriptionRow) :
  unique_stripe_ids
    (map (fun r => if named_by ref r then canceled_at now r else r) rows) =
  unique_stripe_ids rows.
Proof.
  unfold unique_stripe_ids. rewrite stripe_ids_map; [reflexivity |].
  intros r. destruct (named_by ref r); reflexivity.
Qed.

(** The row a reference names, after the rows it names were canceled. *)
Lemma canceled_lookup (now : Timestamp) (ref : string) (rows : list SubscriptionRow) :
  find (named_by (Some ref))
    (map (fun r => if named_by (Some ref) r then canceled_at now r else r) rows) =
  option_map (canceled_at now) (find (named_by (Some ref)) rows).
Proof.
  induction rows as [| r rest IH]; simpl; [reflexivity |].
  destruct (named_by (Some ref) r) eqn:E.
  - unfold named_by in *. simpl. rewrite E. reflexivity.
  - rewrite E. apply IH.
Qed.

(** C8. Processing the same SubscriptionDeleted event once or twice leaves
    the Subscription the event names with status canceled and plan tier
    free; the second application changes no status and no plan tier, and
    nothing at all when it runs at the same instant. *)
Theorem C8_subscription_deleted_idempotent :
  forall (rt rt' : Runtime) (subscription : StripeSubscription) (w : World)
         (r : SubscriptionRow),
    faults w = [] ->
    schema_unique w ->
    subscription_by_ref w (sub_id subscription) = Some r ->
    let event := customer_subscription_deleted subscription in
    let once := deliver [(rt, event)] w in
    let twice := deliver [(rt, event); (rt', event)] w in
    (exists r1, subscription_by_ref once (sub_id subscription) = Some r1 /\
                status r1 = StCanceled /\ plan_type r1 = PlanFree) /\
    (exists r2, subscription_by_ref twice (sub_id subscription) = Some r2 /\
                status r2 = StCanceled /\ plan_type r2 = PlanFree) /\
    map (fun x => (status x, plan_type x)) (user_subscriptions twice) =
    map (fun x => (status x, plan_type x)) (user_subscriptions once) /\
    (date_now rt' = date_now rt -> twice = once).
Proof.
  intros rt rt' subscription w r Hf Hu Hr event once twice.
  assert (E1 : once =
               with_subscriptions
                 (map (fun x => if named_by (Some (sub_id subscription)) x
                                then canceled_at (date_now rt) x else x)
                    (user_subscriptions w)) w).
  { change once with (snd (run (webhook rt (Some event)) w)).
    unfold event. rewrite deleted_run by assumption. reflexivity. }
  assert (E2 : twice =
               with_subscriptions
                 (map (fun x => if named_by (Some (sub_id subscription)) x
                                then canceled_at (date_now rt') x else x)
                    (user_subscriptions once)) once).
  { change twice with (snd (run (webhook rt' (Some event)) once)).
    unfold event. rewrite deleted_run; [reflexivity | |].
    - rewrite E1. exact Hf.
    - rewrite E1. simpl. rewrite canceled_rows_unique. exact Hu. }
  assert (L1 : subscription_by_ref once (sub_id subscription) =
               Some (canceled_at (date_now rt) r)).
  { rewrite E1. unfold subscription_by_ref in *. simpl.
    change (fun x => sql_eq (stripe_subscription_id x) (Some (sub_id subscription)))
      with (named_by (Some (sub_id subscription))) in *.
    rewrite canceled_lookup, Hr. reflexivity. }
  assert (L2 : subscription_by_ref twice (sub_id subscription) =
               Some (canceled_at (date_now rt') (canceled_at (date_now rt) r))).
  { rewrite E2. unfold subscription_by_ref in *. simpl.
    change (fun x => sql_eq (stripe_subscription_id x) (Some (sub_id subscription)))
      with (named_by (Some (sub_id subscription))) in *.
    rewrite canceled_lookup, L1. reflexivity. }
  split; [eexists; split; [exact L1 | split; reflexivity] |].
  split; [eexists; split; [exact L2 | split; reflexivity] |].
  split.
  - rewrite E2. simpl. rewrite map_map. rewrite E1. simpl. rewrite !map_map.
    apply map_ext. intros x.
    destruct (named_by (Some (sub_id subscription)) x) eqn:E.
    + unfold named_by in *. simpl. rewrite E. reflexivity.
    + rewrite E. reflexivity.
  - intros Hnow. rewrite E2. rewrite Hnow.
    replace (map _ (user_subscriptions once)) with (user_subscriptions once).
    + apply with_subscriptions_same.
    + rewrite E1. simpl. rewrite map_map. apply map_ext. intros x.
      destruct (named_by (Some (sub_id subscription)) x) eqn:E.
      * unfold named_by in *. simpl. rewrite E. reflexivity.
      * rewrite E. reflexivity.
Qed.

(** ** SubscriptionChanged *)

Lemma planType_of_amount_exact (amount : option Z) :
  planType_of_amount amount = tier_by_exact_match amount.
Proof.
  destruct amount as [a |]; [| reflexivity]. unfold planType_of_amount, tier_by_exact_match.
  destruct (a =? 0) eqn:E0; [| reflexivity]. simpl.
  apply Z.eqb_eq in E0. subst a. reflexivity.
Qed.

(** A period boundary in range converts without throwing. *)
Lemma toISOString_valid (s : Z) :
  valid_seconds s -> toISOString (Some s) = Return (s * 1000).
Proof.
  unfold valid_seconds, toISOString. intros H.
  apply Z.leb_le in H. rewrite H. reflexivity.
Qed.

(** [handleSubscriptionChange] when the event is accepted: one UPDATE of
    the rows the reference names. *)
Lemma changed_run (rt : Runtime) (subscription : StripeSubscription) (w : World)
  (st : Status) (ps pe : Z) :
  faults w = [] ->
  unique_stripe_ids (user_subscriptions w) = true ->
  status_of_text (sub_status subscription) = Some st ->
  to_number (sub_current_period_start subscription) = Some ps -> valid_seconds ps ->
  to_number (sub_current_period_end subscription) = Some pe -> valid_seconds pe ->
  run (handleSubscriptionChange rt subscription) w =
  (inr tt,
   with_subscriptions
     (map (fun r => if named_by (Some (sub_id subscription)) r
                    then changed_to st (planType_of_amount (sub_unit_amount subscription))
                           (ps * 1000) (pe * 1000) (date_now rt) r
                    else r)
        (user_subscriptions w)) w).
Proof.
  intros Hf Hu Hst Hps Vps Hpe Vpe. unfold handleSubscriptionChange.
  rewrite Hps, Hpe, !toISOString_valid by assumption.
  rewrite run_try_catch. cbn [bind]. rewrite run_bind.
  unfold updateSubscriptionByStripeId. rewrite run_await, exec_no_fault by exact Hf.
  cbn [exec_sql].
  rewrite (run_update_total _ _
             (changed_to st (planType_of_amount (sub_unit_amount subscription))
                (ps * 1000) (pe * 1000) (date_now rt))); auto.
  intros r. simpl. rewrite Hst. reflexivity.
Qed.

(** The endpoint adds no store effect to those of the handler. *)
Lemma webhook_world (rt : Runtime) (event : StripeEvent) (w : World) :
  snd (run (webhook rt (Some event)) w) = snd (run (handle rt event) w).
Proof.
  unfold webhook. rewrite run_try_catch, run_bind.
  destruct (run (handle rt event) w) as [[e | []] w']; reflexivity.
Qed.

(** The row a reference names, after the rows it names were rewritten
    without touching their reference. *)
Lemma changed_lookup (g : SubscriptionRow -> SubscriptionRow) (ref : string)
  (rows : list SubscriptionRow) :
  (forall r, stripe_subscription_id (g r) = stripe_subscription_id r) ->
  find (named_by (Some ref))
    (map (fun r => if named_by (Some ref) r then g r else r) rows) =
  option_map g (find (named_by (Some ref)) rows).
Proof.
  intros Hg. induction rows as [| r rest IH]; simpl; [reflexivity |].
  destruct (named_by (Some ref) r) eqn:E.
  - unfold named_by in *. rewrite Hg, E. reflexivity.
  - rewrite E. apply IH.
Qed.

(** An UPDATE whose entries fail a CHECK on every row changes nothing:
    either it selects no row, or it is rejected. *)
Lemma run_update_rejected (sel : SubscriptionRow -> bool) (data : list SubscriptionField)
  (w : World) :
  (forall r, assign_all data r = None) ->
  snd (run_update sel data w) = w.
Proof.
  intros Hno. unfold run_update.
  assert (H : update_where sel data (user_subscriptions w) = None \/
              exists n, update_where sel data (user_subscriptions w)
                        = Some (user_subscriptions w, n)).
  { induction (user_subscriptions w) as [| r rest IH]; simpl.
    - right. exists O. reflexivity.
    - destruct IH as [-> | [n ->]]; [left; reflexivity |].
      destruct (sel r); [rewrite Hno; left; reflexivity | right; exists n; reflexivity]. }
  destruct H as [-> | [n ->]]; [reflexivity |].
  destruct (unique_stripe_ids (user_subscriptions w)); [| reflexivity].
  apply with_subscriptions_same.
Qed.

(** The statements of the endpoint are those of the handler. *)
Lemma webhook_outcomes (rt : Runtime) (event : StripeEvent) (w : World) :
  outcomes (webhook rt (Some event)) w = outcomes (handle rt event) w.
Proof.
  unfold webhook. rewrite outcomes_try_catch, outcomes_bind, run_bind.
  destruct (run (handle rt event) w) as [[e | []] w']; cbn [outcomes run];
    rewrite ?app_nil_r; reflexivity.
Qed.

(** The UPDATE of [handleSubscriptionChange] once the driver lets it
    through: when it succeeds the row the reference names holds the tier of
    the amount; when it is rejected, as it is with a status the CHECK does
    not list, the row is what it was. *)
Lemma change_statement (rt : Runtime) (subscription : StripeSubscription)
  (ps pe : Timestamp) (w : World) (r : SubscriptionRow) :
  subscription_by_ref w (sub_id subscription) = Some r ->
  exists (result : Error + RunResult) (w' : World) (r' : SubscriptionRow),
    exec_sql
      (UpdateSubscriptionByStripeId (Some (sub_id subscription))
         [set_status (sub_status subscription);
          set_plan_type (planType_of_amount (sub_unit_amount subscription));
          set_current_period_start ps;
          set_current_period_end pe;
          set_updated_at (date_now rt)]) w = (result, w') /\
    subscription_by_ref w' (sub_id subscription) = Some r' /\
    match status_of_text (sub_status subscription), result with
    | Some _, inr _ => plan_type r' = tier_by_exact_match (sub_unit_amount subscription)
    | _, _ => r' = r
    end.
Proof.
  intros Hr. cbn [exec_sql].
  destruct (status_of_text (sub_status subscription)) as [st |] eqn:Hst.
  - unfold run_update.
    rewrite (update_where_total _ _
               (changed_to st (planType_of_amount (sub_unit_amount subscription))
                  ps pe (date_now rt)))
      by (intros x; simpl; rewrite Hst; reflexivity).
    destruct (unique_stripe_ids _); [| exists (inl ConstraintViolation), w, r; auto].
    eexists _, _, _. split; [reflexivity |].
    unfold subscription_by_ref in *. cbn [user_subscriptions with_subscriptions].
    change (fun x => sql_eq (stripe_subscription_id x) (Some (sub_id subscription)))
      with (named_by (Some (sub_id subscription))) in *.
    rewrite changed_lookup by reflexivity. rewrite Hr.
    split; [reflexivity |]. simpl. apply planType_of_amount_exact.
  - pose proof (run_update_rejected
                  (fun x => sql_eq (stripe_subscription_id x) (Some (sub_id subscription)))
                  [set_status (sub_status subscription);
                   set_plan_type (planType_of_amount (sub_unit_amount subscription));
                   set_current_period_start ps;
                   set_current_period_end pe;
                   set_updated_at (date_now rt)] w) as Hsame.
    destruct (run_update _ _ w) as [result w'].
    cbn [snd] in Hsame. rewrite Hsame by (intros x; simpl; rewrite Hst; reflexivity).
    exists result, w, r. auto.
Qed.

(** C6 (amended). For every SubscriptionChanged event (created or updated)
    that names a stored Subscription, whatever the driver fails: when the
    event can be stored (its status is one of the five the CHECK on
    [status] lists and both period boundaries convert to valid dates) and
    its UPDATE does not fail, the plan tier of the Subscription afterwards
    is derived from the price amount by exact match: 999 is pro, 2999 is
    premium, any other amount, or none, is free.  Otherwise the
    Subscription is what it was, with the tier it had. *)
Theorem C6_tier_derived_from_amount :
  forall (rt : Runtime) (subscription : StripeSubscription) (event : StripeEvent)
         (w : World) (r : SubscriptionRow),
    event = customer_subscription_created subscription \/
    event = customer_subscription_updated subscription ->
    subscription_by_ref w (sub_id subscription) = Some r ->
    exists r',
      subscription_by_ref (deliver [(rt, event)] w) (sub_id subscription) = Some r' /\
      if storable subscription && negb (failed (outcomes (webhook rt (Some event)) w))
      then plan_type r' = tier_by_exact_match (sub_unit_amount subscription)
      else r' = r.
Proof.
  intros rt subscription event w r Hev Hr.
  assert (Hh : handle rt event = handleSubscriptionChange rt subscription)
    by (destruct Hev as [-> | ->]; reflexivity).
  cbn [deliver]. rewrite webhook_world, webhook_outcomes, Hh.
  unfold handleSubscriptionChange, toISOString, storable, is_valid_boundary.
  assert (Hkept : exists r',
            subscription_by_ref w (sub_id subscription) = Some r' /\ r' = r)
    by (exists r; auto).
  destruct (to_number (sub_current_period_start subscription)) as [ps |];
    [| destruct (status_of_text _); exact Hkept].
  destruct (Z.abs (ps * 1000) <=? 8640000000000000);
    [| destruct (status_of_text _); exact Hkept].
  destruct (to_number (sub_current_period_end subscription)) as [pe |];
    [| destruct (status_of_text _); exact Hkept].
  destruct (Z.abs (pe * 1000) <=? 8640000000000000);
    [| destruct (status_of_text _); exact Hkept].
  clear Hkept.
  unfold updateSubscriptionByStripeId.
  cbn [run outcomes try_catch bind await]. unfold exec.
  destruct (faults w) as [| [|] rest].
  - destruct (change_statement rt subscription (ps * 1000) (pe * 1000) w r Hr)
      as (result & w' & r' & E & Hr' & Hcase).
    rewrite E. exists r'.
    destruct (status_of_text (sub_status subscription)); destruct result;
      cbn [run outcomes try_catch bind fst snd failed existsb andb orb negb];
      split; auto.
  - cbn [run outcomes try_catch bind fst snd failed existsb].
    exists r. rewrite andb_false_r. split; [exact Hr | reflexivity].
  - destruct (change_statement rt subscription (ps * 1000) (pe * 1000)
                (with_faults rest w) r Hr)
      as (result & w' & r' & E & Hr' & Hcase).
    rewrite E. exists r'.
    destruct (status_of_text (sub_status subscription)); destruct result;
      cbn [run outcomes try_catch bind fst snd failed existsb andb orb negb];
      split; auto.
Qed.

(** ** The routes, served alone on a database that does not fail *)

Lemma can_use_run (userId feature : string) (w : World) :
  faults w = [] ->
  truthy (js_get (PLAN_LIMITS PlanFree) feature) = true ->
  run (can_use userId feature) w =
  (let planType := planType_of (subscription_of w userId) in
   let currentUsage := currentUsage_of (usage_of w userId) feature in
   let limit := js_get (PLAN_LIMITS planType) feature in
   (inr (CanUseOk (strict_eq limit (-1) || js_lt currentUsage limit)
           currentUsage limit (strict_eq limit (-1)) planType), w)).
Proof.
  intros Hf Hg. unfold can_use. rewrite Hg. cbn [negb].
  rewrite run_try_catch, run_bind. unfold getUserUsage, getUserSubscription.
  rewrite run_await, exec_no_fault by exact Hf. cbn [exec_sql].
  rewrite run_bind, run_await, exec_no_fault by exact Hf. cbn [exec_sql].
  reflexivity.
Qed.

(** [/stats] reports the resolved tier and changes nothing. *)
Lemma stats_run (userId : string) (w : World) :
  faults w = [] ->
  exists usage lastResetDate,
    run (stats userId) w =
    (inr (StatsOk (planType_of (subscription_of w userId)) usage lastResetDate), w).
Proof.
  intros Hf. unfold stats.
  rewrite run_try_catch, run_bind. unfold getUserUsage, getUserSubscription.
  rewrite run_await, exec_no_fault by exact Hf. cbn [exec_sql].
  rewrite run_bind, run_await, exec_no_fault by exact Hf. cbn [exec_sql].
  eexists _, _. reflexivity.
Qed.

(** The own keys of the free tier's limits. *)
Lemma own_feature_cases (feature : string) :
  In feature (js_keys (PLAN_LIMITS PlanFree)) ->
  feature = "assessment" \/ feature = "journal_entry" \/
  feature = "habit_tracking" \/ feature = "ai_insights".
Proof.
  simpl. intros [H | [H | [H | [H | []]]]]; subst; auto.
Qed.

(** Every own key passes the guard: no free limit is 0. *)
Lemma own_feature_accepted (feature : string) :
  In feature (js_keys (PLAN_LIMITS PlanFree)) ->
  truthy (js_get (PLAN_LIMITS PlanFree) feature) = true.
Proof.
  intros H. destruct (own_feature_cases feature H) as [-> | [-> | [-> | ->]]]; reflexivity.
Qed.

(** Among counters that are all 0, the current usage is 0. *)
Lemma currentUsage_zero (usage : list UsageRow) (feature : string) :
  (forall g, In g usage -> usage_count g = 0) ->
  currentUsage_of usage feature = 0.
Proof.
  intros H. unfold currentUsage_of.
  destruct (find _ usage) as [g |] eqn:E; [| reflexivity].
  apply find_some in E. apply H, E.
Qed.

(** ** PaymentSucceeded *)

Lemma payment_succeeded_run (rt : Runtime) (invoice : Invoice) (ref : string)
  (w : World) (r : SubscriptionRow) :
  invoice_subscription invoice = Some ref ->
  faults w = [] ->
  unique_stripe_ids (user_subscriptions w) = true ->
  subscription_by_ref w ref = Some r ->
  run (handlePaymentSucceeded rt invoice) w =
  (inr tt,
   with_usage (map (zeroed (db_clock w) (s_user_id r)) (user_usage w))
     (with_subscriptions
        (map (fun x => if named_by (Some ref) x then paid_at (date_now rt) x else x)
           (user_subscriptions w)) w)).
Proof.
  intros Hi Hf Hu Hr. unfold handlePaymentSucceeded. rewrite Hi.
  rewrite run_try_catch, run_bind.
  unfold updateSubscriptionByStripeId. rewrite run_await, exec_no_fault by exact Hf.
  cbn [exec_sql].
  rewrite (run_update_total _ _ (paid_at (date_now rt))); auto.
  rewrite run_bind. unfold getSubscriptionByStripeId.
  rewrite run_await, exec_no_fault by exact Hf. cbn [exec_sql].
  cbn [user_subscriptions with_subscriptions].
  change (fun x => sql_eq (stripe_subscription_id x) (Some ref)) with (named_by (Some ref)).
  rewrite changed_lookup by reflexivity.
  unfold subscription_by_ref in Hr.
  change (fun x => sql_eq (stripe_subscription_id x) (Some ref))
    with (named_by (Some ref)) in Hr.
  rewrite Hr. cbn [option_map]. rewrite run_bind. unfold resetUserUsage.
  rewrite run_await, exec_no_fault by exact Hf. cbn [exec_sql].
  reflexivity.
Qed.

(** After the reset, every counter of the user is 0. *)
Lemma zeroed_rows (clock : Timestamp) (userId : string) (rows : list UsageRow) (g : UsageRow) :
  In g (map (zeroed clock userId) rows) -> g_user_id g = userId -> usage_count g = 0.
Proof.
  intros Hin Hu. apply in_map_iff in Hin. destruct Hin as [g0 [<- _]].
  unfold zeroed in *. destruct (g_user_id g0 ==? userId) eqn:E; [reflexivity |].
  apply String.eqb_neq in E. contradiction.
Qed.

(** At usage 0 every limit of every plan lets the user in. *)
Lemma every_limit_allows_zero (planType : PlanType) (feature : string) :
  In feature (js_keys (PLAN_LIMITS PlanFree)) ->
  strict_eq (js_get (PLAN_LIMITS planType) feature) (-1)
  || js_lt 0 (js_get (PLAN_LIMITS planType) feature) = true.
Proof.
  intros H. destruct (own_feature_cases feature H) as [-> | [-> | [-> | ->]]];
    destruct planType; reflexivity.
Qed.

(** C7. A PaymentSucceeded event whose subscription reference names a
    stored Subscription sets that Subscription's payment status to active
    and its last payment date to the current time, and resets every
    UsageCounter of the owning user to 0; whatever the user had used,
    canUse then answers true for every feature. *)
Theorem C7_payment_succeeded_resets_usage :
  forall (rt : Runtime) (invoice : Invoice) (ref : string) (w : World)
         (r : SubscriptionRow),
    invoice_subscription invoice = Some ref ->
    faults w = [] ->
    schema_unique w ->
    subscription_by_ref w ref = Some r ->
    let w' := deliver [(rt, invoice_payment_succeeded invoice)] w in
    (exists r', subscription_by_ref w' ref = Some r' /\
                payment_status r' = PayActive /\
                last_payment_date r' = Some (date_now rt) /\
                s_user_id r' = s_user_id r) /\
    (forall g, In g (user_usage w') -> g_user_id g = s_user_id r -> usage_count g = 0) /\
    (forall feature, stored_count w' (s_user_id r) feature = 0) /\
    (forall feature, In feature (js_keys (PLAN_LIMITS PlanFree)) ->
       exists lim unl tier,
         run (can_use (s_user_id r) feature) w' = (inr (CanUseOk true 0 lim unl tier), w')).
Proof.
  intros rt invoice ref w r Hi Hf Hu Hr w'.
  assert (E : w' =
    with_usage (map (zeroed (db_clock w) (s_user_id r)) (user_usage w))
      (with_subscriptions
         (map (fun x => if named_by (Some ref) x then paid_at (date_now rt) x else x)
            (user_subscriptions w)) w)).
  { unfold w'. cbn [deliver]. rewrite webhook_world. cbn [handle].
    rewrite (payment_succeeded_run rt invoice ref w r) by assumption. reflexivity. }
  assert (Z0 : forall g, In g (user_usage w') -> g_user_id g = s_user_id r ->
                         usage_count g = 0).
  { rewrite E. cbn [user_usage with_usage]. apply zeroed_rows. }
  split; [| split; [exact Z0 | split]].
  - rewrite E. unfold subscription_by_ref in *.
    cbn [user_subscriptions with_usage with_subscriptions].
    change (fun x => sql_eq (stripe_subscription_id x) (Some ref))
      with (named_by (Some ref)) in *.
    rewrite changed_lookup by reflexivity. rewrite Hr.
    eexists; split; [reflexivity |]. repeat split.
  - intros feature. unfold stored_count.
    destruct (find _ (user_usage w')) as [g |] eqn:Eg; [| reflexivity].
    apply find_some in Eg. destruct Eg as [Hin Hm].
    apply Z0; [exact Hin |]. unfold usage_matches in Hm.
    apply andb_true_iff in Hm. apply String.eqb_eq, Hm.
  - intros feature Hfeat.
    assert (Hf' : faults w' = []) by (rewrite E; exact Hf).
    rewrite can_use_run; [| exact Hf' | apply own_feature_accepted, Hfeat].
    cbv zeta.
    assert (C0 : currentUsage_of (usage_of w' (s_user_id r)) feature = 0).
    { apply currentUsage_zero. intros g Hg. unfold usage_of in Hg.
      apply filter_In in Hg. destruct Hg as [Hin Hm].
      apply Z0; [exact Hin | apply String.eqb_eq, Hm]. }
    rewrite C0, every_limit_allows_zero by exact Hfeat.
    eexists _, _, _. reflexivity.
Qed.

(** ** Increments served one after another *)

Lemma currentUsage_stored (w : World) (userId feature : string) :
  currentUsage_of (usage_of w userId) feature = stored_count w userId feature.
Proof.
  unfold currentUsage_of, usage_of, stored_count.
  induction (user_usage w) as [| g rest IH]; simpl; [reflexivity |].
  unfold usage_matches at 1.
  destruct (g_user_id g ==? userId); simpl; [| exact IH].
  destruct (feature_type g ==? feature); [reflexivity | exact IH].
Qed.

(** A feature with a numeric limit in some plan is an own key of the
    free tier's limits: the plans share their keys. *)
Lemma quota_is_own_key (planType : PlanType) (feature : string) (q : Z) :
  js_get (PLAN_LIMITS planType) feature = JsNumber q ->
  In feature (js_keys (PLAN_LIMITS PlanFree)).
Proof.
  unfold js_get. intros H.
  destruct (find (fun kv => fst kv ==? feature) (PLAN_LIMITS planType)) as [kv |] eqn:E.
  - apply find_some in E. destruct E as [Hin Heq].
    apply String.eqb_eq in Heq. subst feature.
    destruct planType; simpl in Hin;
      repeat (destruct Hin as [<- | Hin]; [simpl; tauto |]); destruct Hin.
  - destruct (mem_string feature object_prototype_keys); discriminate.
Qed.

(** The own keys are the feature types the CHECK of [user_usage] lists. *)
Lemma own_key_is_feature_type (feature : string) :
  In feature (js_keys (PLAN_LIMITS PlanFree)) ->
  mem_string feature feature_types = true.
Proof.
  intros H. destruct (own_feature_cases feature H) as [-> | [-> | [-> | ->]]]; reflexivity.
Qed.

(** [/increment/:feature] past the guard, on a database that does not
    fail: refusal at the limit, else UPDATE of the row or INSERT of a new one. *)
Lemma increment_run (rt : Runtime) (userId feature : string) (w : World) :
  faults w = [] ->
  truthy (js_get (PLAN_LIMITS PlanFree) feature) = true ->
  run (increment rt userId feature) w =
  (let planType := planType_of (subscription_of w userId) in
   let currentUsage := stored_count w userId feature in
   let limit := js_get (PLAN_LIMITS planType) feature in
   if negb (strict_eq limit (-1)) && js_ge currentUsage limit
   then (inr (UsageLimitExceeded currentUsage limit planType), w)
   else
     match find (usage_matches userId feature) (user_usage w) with
     | Some row =>
         (inr (IncrementOk (usage_count row + 1) limit (strict_eq limit (-1)) planType),
          with_usage (map (bumped (db_clock w) userId feature) (user_usage w)) w)
     | None =>
         if mem_string (uuidv4 rt) (map g_id (user_usage w))
            || negb (mem_string feature feature_types)
            || existsb (usage_matches userId feature) (user_usage w)
         then (inr InternalServerError, w)
         else
           (inr (IncrementOk 1 limit (strict_eq limit (-1)) planType),
            with_usage
              (user_usage w ++ [first_use (db_clock w) (uuidv4 rt) userId feature]) w)
     end).
Proof.
  intros Hf Hg. unfold increment. rewrite Hg. cbn [negb].
  rewrite run_try_catch, run_bind. unfold getUserUsage, getUserSubscription.
  rewrite run_await, exec_no_fault by exact Hf. cbn [exec_sql].
  rewrite run_bind, run_await, exec_no_fault by exact Hf. cbn [exec_sql].
  fold (usage_of w userId). fold (subscription_of w userId).
  rewrite currentUsage_stored. cbv zeta.
  destruct (negb _ && js_ge _ _); [reflexivity |].
  rewrite run_bind. unfold incrementUsage. rewrite run_bind.
  rewrite run_await, exec_no_fault by exact Hf. cbn [exec_sql].
  destruct (find (usage_matches userId feature) (user_usage w)) as [row |].
  - rewrite run_bind, run_await, exec_no_fault by exact Hf. reflexivity.
  - rewrite run_bind, run_await, exec_no_fault by exact Hf. cbn [exec_sql].
    destruct (mem_string (uuidv4 rt) (map g_id (user_usage w))
              || negb (mem_string feature feature_types)
              || existsb (usage_matches userId feature) (user_usage w)); reflexivity.
Qed.

(** A lookup that finds nothing means nothing matches. *)
Lemma find_none_existsb {T : Type} (p : T -> bool) (l : list T) :
  find p l = None -> existsb p l = false.
Proof.
  induction l as [| x rest IH]; simpl; [reflexivity |].
  destruct (p x); [discriminate | exact IH].
Qed.

(** A lookup that finds nothing in [l] looks at what was appended. *)
Lemma find_app_none {T : Type} (p : T -> bool) (l : list T) (x : T) :
  find p l = None -> find p (l ++ [x]) = if p x then Some x else None.
Proof.
  induction l as [| y rest IH]; simpl; [reflexivity |].
  destruct (p y); [discriminate | exact IH].
Qed.

(** The counter row after the UPDATE of [incrementUsage]. *)
Lemma bumped_lookup (clock : Timestamp) (userId feature : string) (rows : list UsageRow) :
  find (usage_matches userId feature) (map (bumped clock userId feature) rows) =
  option_map (bumped clock userId feature) (find (usage_matches userId feature) rows).
Proof.
  apply find_map_preserved. intros g. unfold bumped.
  destruct (usage_matches userId feature g) eqn:E; [| exact E].
  unfold usage_matches in *. exact E.
Qed.

(** One increment below the limit succeeds, reports the count plus one
    and stores it; the counter row exists afterwards. *)
Lemma increment_below_limit (rt : Runtime) (userId feature : string) (w : World) (q : Z) :
  faults w = [] ->
  js_get (PLAN_LIMITS (planType_of (subscription_of w userId))) feature = JsNumber q ->
  q <> -1 ->
  stored_count w userId feature < q ->
  (find (usage_matches userId feature) (user_usage w) <> None \/
   mem_string (uuidv4 rt) (map g_id (user_usage w)) = false) ->
  exists w',
    run (increment rt userId feature) w =
    (inr (IncrementOk (stored_count w userId feature + 1) (JsNumber q) false
            (planType_of (subscription_of w userId))), w') /\
    faults w' = [] /\
    user_subscriptions w' = user_subscriptions w /\
    stored_count w' userId feature = stored_count w userId feature + 1 /\
    find (usage_matches userId feature) (user_usage w') <> None.
Proof.
  intros Hf Hq Hfin Hlt Hins.
  pose proof (quota_is_own_key _ _ _ Hq) as Hown.
  rewrite increment_run; [| exact Hf | apply own_feature_accepted, Hown].
  cbv zeta. rewrite Hq. cbn [strict_eq js_ge].
  replace (q =? -1) with false by (symmetry; apply Z.eqb_neq; exact Hfin).
  replace (q <=? stored_count w userId feature) with false
    by (symmetry; apply Z.leb_gt; exact Hlt).
  cbn [negb andb]. unfold stored_count in *.
  destruct (find (usage_matches userId feature) (user_usage w)) as [row |] eqn:E.
  - eexists; split; [reflexivity |]. cbn [faults user_subscriptions user_usage with_usage].
    rewrite bumped_lookup, E. cbn [option_map].
    repeat split; auto; try discriminate.
    apply find_some in E. destruct E as [_ E]. unfold bumped. rewrite E. reflexivity.
  - destruct Hins as [Hins | Hins]; [contradiction |].
    rewrite Hins, (own_key_is_feature_type _ Hown), (find_none_existsb _ _ E).
    cbn [negb orb].
    eexists; split; [reflexivity |]. cbn [faults user_subscriptions user_usage with_usage].
    rewrite (find_app_none _ _ _ E).
    unfold usage_matches, first_use. cbn [g_user_id feature_type usage_count].
    rewrite !String.eqb_refl. cbn [andb].
    repeat split; auto; discriminate.
Qed.

(** One increment at or above the limit is refused and changes nothing. *)
Lemma increment_at_limit (rt : Runtime) (userId feature : string) (w : World) (q : Z) :
  faults w = [] ->
  js_get (PLAN_LIMITS (planType_of (subscription_of w userId))) feature = JsNumber q ->
  q <> -1 ->
  q <= stored_count w userId feature ->
  run (increment rt userId feature) w =
  (inr (UsageLimitExceeded (stored_count w userId feature) (JsNumber q)
          (planType_of (subscription_of w userId))), w).
Proof.
  intros Hf Hq Hfin Hle.
  pose proof (quota_is_own_key _ _ _ Hq) as Hown.
  rewrite increment_run; [| exact Hf | apply own_feature_accepted, Hown].
  cbv zeta. rewrite Hq. cbn [strict_eq js_ge].
  replace (q =? -1) with false by (symmetry; apply Z.eqb_neq; exact Hfin).
  replace (q <=? stored_count w userId feature) with true
    by (symmetry; apply Z.leb_le; exact Hle).
  reflexivity.
Qed.

(** Increments served in turn while the limit is not reached: each reports
    the next count. *)
Lemma serve_increments (userId feature : string) (q : Z) (rts : list Runtime) :
  forall (w : World) (c : Z),
    faults w = [] ->
    js_get (PLAN_LIMITS (planType_of (subscription_of w userId))) feature = JsNumber q ->
    q <> -1 ->
    stored_count w userId feature = c ->
    c + Z.of_nat (List.length rts) <= q ->
    (find (usage_matches userId feature) (user_usage w) <> None \/
     forall rt, In rt rts -> mem_string (uuidv4 rt) (map g_id (user_usage w)) = false) ->
    exists w',
      serve (map (fun rt => increment rt userId feature) rts) w =
      (map (fun k => inr (IncrementOk (c + Z.of_nat k) (JsNumber q) false
                            (planType_of (subscription_of w userId))))
         (seq 1 (List.length rts)), w') /\
      faults w' = [] /\
      user_subscriptions w' = user_subscriptions w /\
      stored_count w' userId feature = c + Z.of_nat (List.length rts).
Proof.
  induction rts as [| rt rest IH]; intros w c Hf Hq Hfin Hc Hle Hins.
  - exists w. simpl. repeat split; auto. rewrite Hc. lia.
  - cbn [List.length] in Hle. rewrite Nat2Z.inj_succ in Hle.
    destruct (increment_below_limit rt userId feature w q Hf Hq Hfin)
      as (w1 & Hrun & Hf1 & Hs1 & Hc1 & Hrow1).
    + rewrite Hc. lia.
    + destruct Hins as [H | H]; [left; exact H | right; apply H; left; reflexivity].
    + assert (Ht : subscription_of w1 userId = subscription_of w userId)
        by (unfold subscription_of; rewrite Hs1; reflexivity).
      assert (Hq1 : js_get (PLAN_LIMITS (planType_of (subscription_of w1 userId))) feature
                    = JsNumber q) by (rewrite Ht; exact Hq).
      assert (Hc1' : stored_count w1 userId feature = c + 1)
        by (rewrite Hc1, Hc; reflexivity).
      assert (Hle1 : c + 1 + Z.of_nat (List.length rest) <= q) by lia.
      destruct (IH w1 (c + 1) Hf1 Hq1 Hfin Hc1' Hle1 (or_introl Hrow1))
        as (w' & Hserve & Hf' & Hs' & Hc').
      exists w'. cbn [map serve]. rewrite Hrun, Hserve, Hc, Ht.
      split; [| split; [exact Hf' | split; [congruence |]]].
      * cbn [List.length seq map]. apply f_equal2; [| reflexivity].
        apply f_equal2; [reflexivity |].
        rewrite <- (seq_shift (List.length rest) 1), map_map. apply map_ext. intros k.
        do 2 f_equal. lia.
      * rewrite Hc'. cbn [List.length]. lia.
Qed.

(** C2. From a counter at 0 and a finite quota q, q increments served one
    after another succeed and return 1, ..., q; the next one is refused with
    the used count q and the limit q, and leaves everything, the counter
    included, as it was. *)
Theorem C2_quota_enforced_sequentially :
  forall (w : World) (userId feature : string) (q : Z) (rts : list Runtime)
         (last : Runtime),
    faults w = [] ->
    js_get (PLAN_LIMITS (planType_of (subscription_of w userId))) feature = JsNumber q ->
    q <> -1 ->
    stored_count w userId feature = 0 ->
    Z.of_nat (List.length rts) = q ->
    (forall rt, In rt rts -> mem_string (uuidv4 rt) (map g_id (user_usage w)) = false) ->
    let tier := planType_of (subscription_of w userId) in
    let served := serve (map (fun rt => increment rt userId feature) rts) w in
    fst served =
      map (fun k => inr (IncrementOk (Z.of_nat k) (JsNumber q) false tier))
        (seq 1 (List.length rts)) /\
    stored_count (snd served) userId feature = q /\
    run (increment last userId feature) (snd served) =
      (inr (UsageLimitExceeded q (JsNumber q) tier), snd served).
Proof.
  intros w userId feature q rts last Hf Hq Hfin H0 Hlen Hfresh tier served.
  destruct (serve_increments userId feature q rts w 0 Hf Hq Hfin H0)
    as (w' & Hserve & Hf' & Hs' & Hc'); [lia | right; exact Hfresh |].
  unfold served. rewrite Hserve. cbn [fst snd].
  assert (Ht : subscription_of w' userId = subscription_of w userId)
    by (unfold subscription_of; rewrite Hs'; reflexivity).
  split; [reflexivity |]. split; [lia |].
  rewrite (increment_at_limit last userId feature w' q); auto.
  - rewrite Ht, Hc'. unfold tier. do 3 f_equal. lia.
  - rewrite Ht. exact Hq.
  - lia.
Qed.

(** ** The tier invariant under billing events *)

Lemma update_where_keeps (sel : SubscriptionRow -> bool) (data : list SubscriptionField) :
  keeps_tier data ->
  forall rows rows' n,
    (forall r, In r rows -> row_ok r) ->
    update_where sel data rows = Some (rows', n) ->
    forall r, In r rows' -> row_ok r.
Proof.
  intros Hk. induction rows as [| x rest IH]; intros rows' n Hrows Hup r Hin; simpl in Hup.
  - inversion Hup; subst. destruct Hin.
  - destruct (update_where sel data rest) as [[rest' m] |] eqn:E; [| discriminate].
    assert (Hrest : forall y, In y rest' -> row_ok y).
    { apply (IH rest' m); [intros y Hy; apply Hrows; right; exact Hy | reflexivity]. }
    destruct (sel x).
    + destruct (assign_all data x) as [x' |] eqn:Ex; [| discriminate].
      inversion Hup; subst. destruct Hin as [<- | Hin]; [| apply Hrest, Hin].
      apply (Hk x); [apply Hrows; left; reflexivity | exact Ex].
    + inversion Hup; subst. destruct Hin as [<- | Hin]; [| apply Hrest, Hin].
      apply Hrows; left; reflexivity.
Qed.

Lemma run_update_keeps (sel : SubscriptionRow -> bool) (data : list SubscriptionField)
  (w : World) :
  keeps_tier data -> tier_follows_status w ->
  tier_follows_status (snd (run_update sel data w)).
Proof.
  intros Hk Hw. unfold run_update.
  destruct (update_where sel data (user_subscriptions w)) as [[rows' n] |] eqn:E;
    [| exact Hw].
  destruct (unique_stripe_ids rows'); [| exact Hw].
  unfold tier_follows_status. simpl.
  apply (update_where_keeps sel data Hk _ _ _ Hw E).
Qed.

Lemma exec_sql_keeps_tier {X : Type} (q : Sql X) (w : World) :
  tier_safe X q -> tier_follows_status w -> tier_follows_status (snd (exec_sql q w)).
Proof.
  intros Hq Hw. destruct q; simpl in *; try exact Hw.
  - apply run_update_keeps; assumption.
  - destruct (mem_string id (map s_id (user_subscriptions w))); [exact Hw |].
    destruct (assign_all data _) as [r |] eqn:E; [| exact Hw].
    destruct (unique_stripe_ids _); [| exact Hw].
    unfold tier_follows_status. simpl. intros x Hx.
    apply in_app_or in Hx. destruct Hx as [Hx | [<- | []]]; [apply Hw, Hx |].
    apply (Hq (default_subscription id userId (db_clock w))); [| exact E].
    intros _. reflexivity.
  - apply run_update_keeps; assumption.
  - destruct (_ || _ || _); exact Hw.
Qed.

(** So does every allowed statement, whether the driver fails it or not. *)
Lemma exec_keeps_tier (X : Type) (q : Sql X) (w : World) :
  tier_safe X q -> tier_follows_status w -> tier_follows_status (snd (exec q w)).
Proof.
  intros Hq Hw. unfold exec. destruct (faults w) as [| [|] rest].
  - apply exec_sql_keeps_tier; assumption.
  - exact Hw.
  - apply exec_sql_keeps_tier; [exact Hq | exact Hw].
Qed.

(** The entries of each handler, against the tier invariant. *)
Lemma checkout_keeps_tier (c s : option string) (now : Timestamp) :
  keeps_tier
    [set_stripe_customer_id c; set_stripe_subscription_id s; set_status "active";
     set_updated_at now].
Proof.
  intros r r' _ Ha. simpl in Ha. inversion Ha; subst.
  intros [H | H]; discriminate H.
Qed.

Lemma change_keeps_tier (subscription : StripeSubscription) (ps pe now : Timestamp) :
  consistent_change subscription ->
  keeps_tier
    [set_status (sub_status subscription);
     set_plan_type (planType_of_amount (sub_unit_amount subscription));
     set_current_period_start ps; set_current_period_end pe; set_updated_at now].
Proof.
  intros Hc r r' _ Ha. simpl in Ha.
  destruct (status_of_text (sub_status subscription)) as [st |] eqn:E; [| discriminate].
  inversion Ha; subst. intros H; simpl in *. apply Hc.
  destruct H as [-> | ->]; auto.
Qed.

Lemma deleted_keeps_tier (now : Timestamp) :
  keeps_tier [set_status "canceled"; set_plan_type PlanFree; set_updated_at now].
Proof.
  intros r r' _ Ha. simpl in Ha. inversion Ha; subst. intros _. reflexivity.
Qed.

Lemma payment_succeeded_keeps_tier (now : Timestamp) :
  keeps_tier [set_last_payment_date now; set_payment_status PayActive; set_updated_at now].
Proof.
  intros r r' Hr Ha. simpl in Ha. inversion Ha; subst. exact Hr.
Qed.

Lemma payment_failed_keeps_tier (now : Timestamp) :
  keeps_tier [set_payment_status PayFailed; set_updated_at now].
Proof.
  intros r r' Hr Ha. simpl in Ha. inversion Ha; subst. exact Hr.
Qed.

(** Every statement a handler sends for a consistent event keeps the
    invariant. *)
Lemma handle_tier_safe (rt : Runtime) (event : StripeEvent) :
  consistent_event event -> issues_only tier_safe (handle rt event).
Proof.
  intros Hc. destruct event as [session | sub | sub | sub | invoice | invoice | ty];
    cbn [handle consistent_event] in *;
    unfold handleCheckoutCompleted, handleSubscriptionChange, handleSubscriptionDeleted,
      handlePaymentSucceeded, handlePaymentFailed;
    unfold_database;
    issues ltac:(cbn [tier_safe]).
  - apply checkout_keeps_tier.
  - apply checkout_keeps_tier.
  - apply change_keeps_tier, Hc.
  - apply change_keeps_tier, Hc.
  - apply deleted_keeps_tier.
  - apply payment_succeeded_keeps_tier.
  - apply payment_failed_keeps_tier.
Qed.

(** C4 (amended). The invariant, plan tier free whenever status is free
    or canceled, is kept by every sequence of billing events in which no
    SubscriptionChanged event pairs a status free or canceled with a price
    of 999 or 2999, whatever the database fails on the way; CheckoutCompleted,
    SubscriptionDeleted, PaymentSucceeded and PaymentFailed keep it
    unconditionally. *)
Theorem C4_tier_invariant_preserved :
  forall (events : list (Runtime * StripeEvent)) (w : World),
    tier_follows_status w ->
    Forall (fun delivery => consistent_event (snd delivery)) events ->
    tier_follows_status (deliver events w).
Proof.
  induction events as [| [rt event] rest IH]; intros w Hw Hev; [exact Hw |].
  inversion Hev as [| d l Hd Hl]; subst. cbn [deliver]. apply IH; [| exact Hl].
  rewrite webhook_world.
  apply (run_invariant tier_safe tier_follows_status exec_keeps_tier);
    [apply handle_tier_safe; exact Hd | exact Hw].
Qed.

(** ** The UNIQUE constraint on the billing reference *)

Lemma issues_anything {A : Type} (t : Task A) : issues_only any_statement t.
Proof.
  induction t as [a | e | X q k IH]; constructor; [exact I | exact IH].
Qed.

(** A statement that would break UNIQUE is rejected, so the table stays
    unique. *)
Lemma exec_keeps_unique (X : Type) (q : Sql X) (w : World) :
  any_statement X q -> schema_unique w -> schema_unique (snd (exec q w)).
Proof.
  intros _ Hw. unfold exec.
  assert (Hsql : forall w0, schema_unique w0 -> schema_unique (snd (exec_sql q w0))).
  { intros w0 H0. destruct q; simpl; try exact H0.
    - unfold run_update.
      destruct (update_where _ _ _) as [[rows' n] |]; [| exact H0].
      destruct (unique_stripe_ids rows') eqn:E; [exact E | exact H0].
    - destruct (mem_string id (map s_id (user_subscriptions w0))); [exact H0 |].
      destruct (assign_all data _) as [r |]; [| exact H0].
      destruct (unique_stripe_ids _) eqn:E; [exact E | exact H0].
    - unfold run_update.
      destruct (update_where _ _ _) as [[rows' n] |]; [| exact H0].
      destruct (unique_stripe_ids rows') eqn:E; [exact E | exact H0].
    - destruct (_ || _ || _); exact H0. }
  destruct (faults w) as [| [|] rest]; [apply Hsql, Hw | exact Hw | apply Hsql, Hw].
Qed.

(** Whatever is run, the billing references stay unique: the hypothesis of
    the theorems below holds of every world reached from an empty table. *)
Lemma schema_unique_kept {A : Type} (t : Task A) (w : World) :
  schema_unique w -> schema_unique (snd (run t w)).
Proof.
  apply (run_invariant any_statement schema_unique exec_keeps_unique), issues_anything.
Qed.

(** ** CheckoutCompleted and the plan tier *)

Lemma update_where_entries (sel : SubscriptionRow -> bool) (data : list SubscriptionField) :
  no_plan_write data ->
  forall rows rows' n,
    update_where sel data rows = Some (rows', n) ->
    map tier_entry rows' = map tier_entry rows.
Proof.
  intros Hn. induction rows as [| x rest IH]; intros rows' n Hup; simpl in Hup.
  - inversion Hup; reflexivity.
  - destruct (update_where sel data rest) as [[rest' m] |] eqn:E; [| discriminate].
    specialize (IH rest' m eq_refl). destruct (sel x).
    + destruct (assign_all data x) as [x' |] eqn:Ex; [| discriminate].
      inversion Hup; subst. simpl. rewrite IH, (Hn x x' Ex). reflexivity.
    + inversion Hup; subst. simpl. rewrite IH. reflexivity.
Qed.

Lemma run_update_framed (sel : SubscriptionRow -> bool) (data : list SubscriptionField)
  (w0 w : World) :
  no_plan_write data -> tiers_framed w0 w -> tiers_framed w0 (snd (run_update sel data w)).
Proof.
  intros Hn Hw. unfold run_update.
  destruct (update_where sel data (user_subscriptions w)) as [[rows' n] |] eqn:E;
    [| exact Hw].
  destruct (unique_stripe_ids rows'); [| exact Hw].
  destruct Hw as [created Hw]. exists created. simpl.
  rewrite (update_where_entries sel data Hn _ _ _ E). exact Hw.
Qed.

Lemma exec_sql_framed {X : Type} (q : Sql X) (w0 w : World) :
  plan_safe X q -> tiers_framed w0 w -> tiers_framed w0 (snd (exec_sql q w)).
Proof.
  intros Hq Hw. destruct q; simpl in *; try exact Hw.
  - apply run_update_framed; assumption.
  - destruct (mem_string id (map s_id (user_subscriptions w))); [exact Hw |].
    destruct (assign_all data _) as [r |] eqn:E; [| exact Hw].
    destruct (unique_stripe_ids _); [| exact Hw].
    destruct Hw as [created Hw]. exists (created ++ [userId]). simpl.
    rewrite !map_app, Hw, <- app_assoc. simpl. rewrite (Hq _ _ E). reflexivity.
  - apply run_update_framed; assumption.
  - destruct (_ || _ || _); exact Hw.
Qed.

(** Statements that do not write the tier keep the tiers framed. *)
Lemma exec_framed (w0 : World) (X : Type) (q : Sql X) (w : World) :
  plan_safe X q -> tiers_framed w0 w -> tiers_framed w0 (snd (exec q w)).
Proof.
  intros Hq Hw. unfold exec. destruct (faults w) as [| [|] rest].
  - apply exec_sql_framed; assumption.
  - exact Hw.
  - apply exec_sql_framed; [exact Hq | exact Hw].
Qed.

(** The entries of [handleCheckoutCompleted] do not name [plan_type]. *)
Lemma checkout_no_plan_write (c s : option string) (now : Timestamp) :
  no_plan_write
    [set_stripe_customer_id c; set_stripe_subscription_id s; set_status "active";
     set_updated_at now].
Proof.
  intros r r' Ha. simpl in Ha. inversion Ha; subst. reflexivity.
Qed.

(** [handleCheckoutCompleted] only sends statements that do not write the
    tier. *)
Lemma checkout_plan_safe (rt : Runtime) (session : CheckoutSession) :
  issues_only plan_safe (handleCheckoutCompleted rt session).
Proof.
  unfold handleCheckoutCompleted. unfold_database.
  issues ltac:(cbn [plan_safe]); apply checkout_no_plan_write.
Qed.

(** The resolved tier of a user, read off the entries of the table. *)
Lemma resolved_tier_entries (w : World) (userId : string) :
  planType_of (subscription_of w userId) =
  tier_in (map tier_entry (user_subscriptions w)) userId.
Proof.
  unfold subscription_of, tier_in.
  induction (user_subscriptions w) as [| r rest IH]; simpl; [reflexivity |].
  destruct (s_user_id r ==? userId); [reflexivity | exact IH].
Qed.

(** Entries created with the tier free change no resolved tier. *)
Lemma tier_in_created (entries : list (string * PlanType)) (created : list string)
  (userId : string) :
  tier_in (entries ++ map (fun u => (u, PlanFree)) created) userId = tier_in entries userId.
Proof.
  unfold tier_in. induction entries as [| e rest IH]; simpl.
  - induction created as [| u more IHc]; simpl; [reflexivity |].
    destruct (u ==? userId); [reflexivity | exact IHc].
  - destruct (fst e ==? userId); [reflexivity | exact IH].
Qed.

(** When its three statements succeed, the handler leaves the user with a
    Subscription that is active and stores the tier the user resolved to
    before. *)
Lemma checkout_applied (rt : Runtime) (session : CheckoutSession) (w : World)
  (email : string) (user : UserRow) :
  faults w = [] ->
  customer_details_email session = Some email ->
  (email ==? "") = false ->
  find (fun u => u_email u ==? email) (users w) = Some user ->
  outcomes (handleCheckoutCompleted rt session) w = [false; false; false] ->
  exists r',
    subscription_of (snd (run (handleCheckoutCompleted rt session) w)) (u_id user) = Some r' /\
    status r' = StActive /\
    plan_type r' = planType_of (subscription_of w (u_id user)).
Proof.
  intros Hf He Hne Hu Ho. unfold handleCheckoutCompleted in *. rewrite He, Hne in *.
  unfold_database. unfold getUserByEmail, updateUserSubscription in Ho.
  cbn [run outcomes try_catch bind await] in *.
  rewrite (exec_no_fault _ w Hf) in *. cbn [exec_sql] in *. rewrite Hu in *.
  cbn [run outcomes try_catch bind await] in *.
  rewrite (exec_no_fault _ w Hf) in *. cbn [exec_sql] in *.
  fold (subscription_of w (u_id user)) in *.
  destruct (subscription_of w (u_id user)) as [existing |] eqn:Ex.
  - cbn [run outcomes try_catch bind await] in *.
    rewrite (exec_no_fault _ w Hf) in *. cbn [exec_sql] in *.
    unfold run_update in *.
    rewrite (update_where_total _ _
               (checked_out (session_customer session) (session_subscription session)
                  (date_now rt))) in * by reflexivity.
    destruct (unique_stripe_ids _); [| discriminate Ho].
    cbn [run try_catch bind snd]. unfold subscription_of in *.
    cbn [user_subscriptions with_subscriptions].
    rewrite (find_map_preserved (fun r => s_user_id r ==? u_id user)).
    + rewrite Ex. cbn [option_map].
      apply find_some in Ex. destruct Ex as [_ Hm]. rewrite Hm.
      eexists; repeat split.
    + intros x. destruct (s_user_id x ==? u_id user) eqn:Hx; exact Hx.
  - cbn [run outcomes try_catch bind await] in *.
    rewrite (exec_no_fault _ w Hf) in *. cbn [exec_sql assign_all assign] in *.
    change (status_of_text "active") with (Some StActive) in *. cbv iota in *.
    destruct (mem_string (uuidv4 rt) (map s_id (user_subscriptions w)));
      [discriminate Ho |].
    destruct (unique_stripe_ids _); [| discriminate Ho].
    cbn [run try_catch bind snd]. unfold subscription_of in *.
    cbn [user_subscriptions with_subscriptions].
    rewrite (find_app_none _ _ _ Ex). cbn [s_user_id default_subscription].
    rewrite String.eqb_refl. eexists; repeat split.
Qed.

(** C10. Processing a CheckoutCompleted event never writes the plan tier:
    whatever the database does, the Subscriptions that were there keep their
    tier, a Subscription the event creates stores the tier free, and every
    user resolves to the same tier as before; when the handler's statements
    succeed, the paying user holds an active Subscription that still stores
    the tier resolved before (free for a user who had none). *)
Theorem C10_checkout_never_writes_plan_type :
  forall (rt : Runtime) (session : CheckoutSession) (w : World),
    let w' := deliver [(rt, checkout_session_completed session)] w in
    tiers_framed w w' /\
    (forall userId,
       planType_of (subscription_of w' userId) = planType_of (subscription_of w userId)) /\
    (forall email user,
       faults w = [] ->
       customer_details_email session = Some email ->
       (email ==? "") = false ->
       find (fun u => u_email u ==? email) (users w) = Some user ->
       outcomes (handleCheckoutCompleted rt session) w = [false; false; false] ->
       exists r',
         subscription_of w' (u_id user) = Some r' /\
         status r' = StActive /\
         plan_type r' = planType_of (subscription_of w (u_id user))).
Proof.
  intros rt session w w'.
  assert (E : w' = snd (run (handleCheckoutCompleted rt session) w)).
  { unfold w'. cbn [deliver]. apply webhook_world. }
  assert (F : tiers_framed w w').
  { rewrite E.
    apply (run_invariant plan_safe (tiers_framed w) (exec_framed w));
      [apply checkout_plan_safe |].
    exists []. simpl. rewrite app_nil_r. reflexivity. }
  split; [exact F | split].
  - intros userId. destruct F as [created F].
    rewrite !resolved_tier_entries, F. apply tier_in_created.
  - intros email user Hf He Hne Hu Ho. rewrite E.
    apply (checkout_applied rt session w email user); assumption.
Qed.

(** ** Plan resolution in the routes *)

(** C3 (amended). The three routes resolve the user's plan tier to free
    when the user has no Subscription row, and otherwise to the tier stored
    in the row, whatever its status. *)
Theorem C3_plan_resolved_from_stored_tier :
  forall (w : World) (userId feature : string) (rt : Runtime),
    faults w = [] ->
    In feature (js_keys (PLAN_LIMITS PlanFree)) ->
    let tier := planType_of (subscription_of w userId) in
    (subscription_of w userId = None -> tier = PlanFree) /\
    (forall s, subscription_of w userId = Some s -> tier = plan_type s) /\
    (exists usage lastResetDate,
       run (stats userId) w = (inr (StatsOk tier usage lastResetDate), w)) /\
    (exists canUse currentUsage lim unl,
       run (can_use userId feature) w = (inr (CanUseOk canUse currentUsage lim unl tier), w)) /\
    (exists w',
       (exists newUsage lim unl,
          run (increment rt userId feature) w = (inr (IncrementOk newUsage lim unl tier), w')) \/
       (exists currentUsage lim,
          run (increment rt userId feature) w =
          (inr (UsageLimitExceeded currentUsage lim tier), w')) \/
       run (increment rt userId feature) w = (inr InternalServerError, w')).
Proof.
  intros w userId feature rt Hf Hfeat tier.
  pose proof (own_feature_accepted feature Hfeat) as Hg.
  split; [intros H; unfold tier; rewrite H; reflexivity |].
  split; [intros s H; unfold tier; rewrite H; reflexivity |].
  split; [apply stats_run, Hf |].
  split.
  - rewrite can_use_run by assumption. cbv zeta. eexists _, _, _, _. reflexivity.
  - rewrite increment_run by assumption. cbv zeta.
    destruct (negb _ && js_ge _ _).
    + eexists. right. left. eexists _, _. reflexivity.
    + destruct (find (usage_matches userId feature) (user_usage w)) as [row |].
      * eexists. left. eexists _, _, _. reflexivity.
      * destruct (_ || _ || _).
        -- eexists. right. right. reflexivity.
        -- eexists. left. eexists _, _, _. reflexivity.
Qed.

(** ** Store failures inside the webhook *)

(** Follows a run through every way its statements can settle. *)
Ltac settle_run :=
  cbn [run outcomes try_catch bind await fst failure_last];
  repeat match goal with
    | |- context [exec ?q ?w] =>
        destruct (exec q w) as [[? | ?] ?];
        cbn [run outcomes try_catch bind await fst failure_last]
    | |- context [match ?x with Some _ => _ | None => _ end] =>
        destruct x; cbn [run outcomes try_catch bind await fst failure_last]
    | |- context [if ?x then _ else _] =>
        destruct x; cbn [run outcomes try_catch bind await fst failure_last]
    end.

(** C5. The code does not propagate store failures.  The endpoint awaits
    the handler inside a [try] whose [catch] answers 500, which is how a
    failure would reach the caller; but every handler catches the failures
    of its own store operations and only logs them.  So whatever store
    operation fails while a billing event is handled, the handler returns
    normally, the endpoint answers that the event was received, and the
    500 is never given; nothing is retried: no statement is sent after a
    failed one. *)
Theorem C5_store_failures_are_swallowed :
  forall (rt : Runtime) (event : StripeEvent) (w : World),
    fst (run (handle rt event) w) = inr tt /\
    fst (run (webhook rt (Some event)) w) = inr Received /\
    failure_last (outcomes (webhook rt (Some event)) w) = true.
Proof.
  intros rt event w.
  destruct event as [session | sub | sub | sub | invoice | invoice | ty];
    unfold webhook; cbn [handle];
    unfold handleCheckoutCompleted, handleSubscriptionChange, handleSubscriptionDeleted,
      handlePaymentSucceeded, handlePaymentFailed, toISOString;
    unfold_database; settle_run; repeat split; reflexivity.
Qed.

(** ** Requests in flight, one at a time *)

(** A request that is alone in flight, resumed once for each statement it
    sends, ends as [run] says. *)
Lemma interleave_alone {A : Type} (t : Task A) :
  forall w : World,
    interleave (repeat 0%nat (List.length (outcomes t w))) [t] w =
    ([settled (fst (run t w))], snd (run t w)).
Proof.
  induction t as [a | e | X q k IH]; intros w; try reflexivity.
  cbn [outcomes run]. destruct (exec q w) as [r w'] eqn:E.
  cbn [List.length repeat interleave nth_error step replace_nth].
  rewrite E. apply IH.
Qed.

(** With one unit of quota left, two increments served in turn end as the
    quota demands: the first succeeds, the second is refused. *)
Lemma last_unit_served_in_turn (rt rt' : Runtime) (userId feature : string) (w : World)
  (q : Z) :
  faults w = [] ->
  js_get (PLAN_LIMITS (planType_of (subscription_of w userId))) feature = JsNumber q ->
  q <> -1 ->
  stored_count w userId feature = q - 1 ->
  find (usage_matches userId feature) (user_usage w) <> None ->
  exists w',
    serve [increment rt userId feature; increment rt' userId feature] w =
    ([inr (IncrementOk q (JsNumber q) false (planType_of (subscription_of w userId)));
      inr (UsageLimitExceeded q (JsNumber q) (planType_of (subscription_of w userId)))],
     w') /\
    stored_count w' userId feature = q.
Proof.
  intros Hf Hq Hfin Hc Hrow.
  destruct (increment_below_limit rt userId feature w q Hf Hq Hfin)
    as (w1 & Hrun & Hf1 & Hs1 & Hc1 & _); [lia | left; exact Hrow |].
  assert (Ht : subscription_of w1 userId = subscription_of w userId)
    by (unfold subscription_of; rewrite Hs1; reflexivity).
  exists w1. cbn [serve]. rewrite Hrun.
  rewrite (increment_at_limit rt' userId feature w1 q); auto.
  - rewrite Ht, Hc1, Hc. replace (q - 1 + 1) with q by lia. split; reflexivity.
  - rewrite Ht. exact Hq.
  - lia.
Qed.

(** One resumption of the task at position [i]. *)
Lemma interleave_step {A : Type} (i : nat) (rest : list nat) (tasks : list (Task A))
  (w w' : World) (t t' : Task A) :
  nth_error tasks i = Some t ->
  step t w = (t', w') ->
  interleave (i :: rest) tasks w = interleave rest (replace_nth i t' tasks) w'.
Proof. intros Hn Hs. cbn [interleave]. rewrite Hn, Hs. reflexivity. Qed.

(** Resuming a task parked at an [await] on a database that does not fail. *)
Lemma step_await {A X : Type} (q : Sql X) (k : Error + X -> Task A) (w : World) :
  faults w = [] ->
  step (Await q k) w = (k (fst (exec_sql q w)), snd (exec_sql q w)).
Proof.
  intros Hf. cbn [step]. rewrite exec_no_fault by exact Hf.
  destruct (exec_sql q w); reflexivity.
Qed.

(** Resumes the next task of the schedule on a database that does not fail. *)
Ltac resume Hf :=
  erewrite interleave_step;
  [ | cbn [nth_error replace_nth]; reflexivity
    | cbn [try_catch bind await]; rewrite step_await by exact Hf;
      cbn [exec_sql fst snd]; reflexivity ];
  cbn [replace_nth try_catch bind].

(** With one unit of quota left and the counter row in place, two
    increments resumed in alternation both pass the check before either
    writes: both succeed, both report q, and the stored count ends at
    q + 1. *)
Lemma race_on_last_unit (rt rt' : Runtime) (userId feature : string) (w : World)
  (q : Z) (row : UsageRow) :
  faults w = [] ->
  js_get (PLAN_LIMITS (planType_of (subscription_of w userId))) feature = JsNumber q ->
  q <> -1 ->
  find (usage_matches userId feature) (user_usage w) = Some row ->
  usage_count row = q - 1 ->
  let finished :=
    interleave [0; 1; 0; 1; 0; 1; 0; 1]%nat
      [increment rt userId feature; increment rt' userId feature] w in
  fst finished =
    [Return (IncrementOk q (JsNumber q) false (planType_of (subscription_of w userId)));
     Return (IncrementOk q (JsNumber q) false (planType_of (subscription_of w userId)))] /\
  stored_count (snd finished) userId feature = q + 1.
Proof.
  intros Hf Hq Hfin Hrow Hc finished.
  pose proof (quota_is_own_key _ _ _ Hq) as Hown.
  pose proof (own_feature_accepted _ Hown) as Hg.
  assert (Hs : stored_count w userId feature = q - 1)
    by (unfold stored_count; rewrite Hrow; exact Hc).
  unfold finished, increment. rewrite Hg. cbn [negb].
  unfold_database.
  do 4 resume Hf.
  fold (usage_of w userId). fold (subscription_of w userId).
  rewrite currentUsage_stored, Hq, Hs. cbn [strict_eq js_ge].
  replace (q =? -1) with false by (symmetry; apply Z.eqb_neq; exact Hfin).
  replace (q <=? q - 1) with false by (symmetry; apply Z.leb_gt; lia).
  cbn [negb andb].
  do 2 resume Hf. rewrite Hrow. cbn [try_catch bind].
  resume Hf. resume Hf. cbn [interleave fst snd].
  rewrite Hc. replace (q - 1 + 1) with q by lia.
  split; [reflexivity |].
  unfold stored_count. cbn [user_usage with_usage db_clock].
  change (fun r : UsageRow =>
            if usage_matches userId feature r
            then mkUsage (g_id r) (g_user_id r) (feature_type r) (usage_count r + 1)
                   (last_reset_date r) (g_created_at r) (db_clock w)
            else r)
    with (bumped (db_clock w) userId feature).
  rewrite !bumped_lookup, Hrow. cbn [option_map].
  apply find_some in Hrow. destruct Hrow as [_ Hm].
  unfold bumped at 2. rewrite Hm. unfold bumped, usage_matches in *.
  cbn [g_user_id feature_type usage_count]. rewrite Hm.
  cbn [usage_count]. lia.
Qed.

(** ** Concrete runs *)

(** C1. Two increment requests in flight together, with one unit of quota
    left (free tier, assessment: limit 2, used 1) and the event loop
    alternating between them: both read the count 1 before either writes,
    both succeed and report 2, and the stored count ends at 3, above the
    limit. *)
Theorem C1_concurrent_increments_overshoot :
  stored_count one_left_world "u-alice" "assessment" = 1 /\
  js_get (PLAN_LIMITS (planType_of (subscription_of one_left_world "u-alice"))) "assessment"
  = JsNumber 2 /\
  let finished :=
    interleave [0; 1; 0; 1; 0; 1; 0; 1]%nat
      [increment request_1 "u-alice" "assessment";
       increment request_2 "u-alice" "assessment"]
      one_left_world in
  fst finished =
    [Return (IncrementOk 2 (JsNumber 2) false PlanFree);
     Return (IncrementOk 2 (JsNumber 2) false PlanFree)] /\
  stored_count (snd finished) "u-alice" "assessment" = 3.
Proof. vm_compute. repeat split. Qed.

(** Before the counter row exists the race ends differently: both requests
    find no row, both INSERT, and the second INSERT violates
    UNIQUE(user_id, feature_type); its request ends in a 500, not in a
    refusal for quota. *)
Lemma race_on_first_use :
  fst (interleave [0; 1; 0; 1; 0; 1; 0; 1]%nat
         [increment request_1 "u-alice" "ai_insights";
          increment request_2 "u-alice" "ai_insights"]
         signup_world) =
  [Return (IncrementOk 1 (JsNumber 1) false PlanFree); Return InternalServerError].
Proof. vm_compute. reflexivity. Qed.

(** C9. The feature name "constructor" is not a key of the free tier's
    limits, yet the guard lets it through, because the lookup finds the
    member inherited from Object.prototype: canUse answers 200 with
    canUse = false instead of rejecting the request, and tryIncrement ends
    in a 500 when the INSERT violates the CHECK on feature_type.  Neither
    changes the store. *)
Theorem C9_inherited_key_passes_guard :
  mem_string "constructor" (js_keys (PLAN_LIMITS PlanFree)) = false /\
  truthy (js_get (PLAN_LIMITS PlanFree) "constructor") = true /\
  run (can_use "u-alice" "constructor") signup_world =
    (inr (CanUseOk false 0 JsInherited false PlanFree), signup_world) /\
  run (increment request_1 "u-alice" "constructor") signup_world =
    (inr InternalServerError, signup_world).
Proof. vm_compute. repeat split. Qed.

(** A member of Object.prototype is not an own key of any plan's limits, and
    it gets past the guard of the routes on every database that does not
    fail. *)
Lemma inherited_key_not_rejected (userId feature : string) (w : World) :
  faults w = [] ->
  In feature object_prototype_keys ->
  run (can_use userId feature) w =
  (inr (CanUseOk false (stored_count w userId feature) JsInherited false
          (planType_of (subscription_of w userId))), w).
Proof.
  intros Hf Hin.
  assert (Hget : forall planType, js_get (PLAN_LIMITS planType) feature = JsInherited).
  { intros planType. simpl in Hin.
    repeat (destruct Hin as [<- | Hin]; [destruct planType; reflexivity |]).
    destruct Hin. }
  rewrite can_use_run; [| exact Hf | rewrite Hget; reflexivity].
  cbv zeta. rewrite currentUsage_stored, Hget. reflexivity.
Qed.

(** A feature name that is neither an own key of the free tier's limits nor
    a member of Object.prototype is rejected before the store is touched. *)
Lemma unknown_feature_rejected (rt : Runtime) (userId feature : string) (w : World) :
  js_get (PLAN_LIMITS PlanFree) feature = JsUndefined ->
  run (can_use userId feature) w = (inr InvalidFeatureType, w) /\
  run (increment rt userId feature) w = (inr InvalidFeatureType, w).
Proof.
  intros H. unfold can_use, increment. rewrite H. split; reflexivity.
Qed.

(** C3, as stated, fails: Alice's Subscription is canceled but still stores
    the tier pro (the state the cancellation update left), and canUse
    resolves her plan to pro, not free. *)
Lemma C3_counterexample :
  (exists s, subscription_of lapsed_world "u-alice" = Some s /\ status s = StCanceled) /\
  (exists canUse currentUsage lim unl tier,
     run (can_use "u-alice" "assessment") lapsed_world =
     (inr (CanUseOk canUse currentUsage lim unl tier), lapsed_world) /\
     tier <> PlanFree).
Proof.
  split.
  - eexists. split; vm_compute; reflexivity.
  - exists true, 0, (JsNumber 10), false, PlanPro.
    split; [vm_compute; reflexivity | discriminate].
Qed.

(** C4, as stated, fails: from a store that satisfies the invariant, a
    checkout followed by an update that reports status canceled with the
    price 999 reaches a Subscription that is canceled with tier pro. *)
Lemma C4_counterexample :
  tier_follows_status signup_world /\
  ~ tier_follows_status
      (deliver [(request_1, checkout_session_completed alice_checkout);
                (request_2, customer_subscription_updated alice_pro_canceled)]
         signup_world).
Proof.
  split; [intros r [] |]. intros H.
  assert (Hrow : exists r,
             In r (user_subscriptions
                     (deliver [(request_1, checkout_session_completed alice_checkout);
                               (request_2, customer_subscription_updated alice_pro_canceled)]
                        signup_world)) /\
             status r = StCanceled /\ plan_type r = PlanPro).
  { eexists. vm_compute. split; [left; reflexivity | split; reflexivity]. }
  destruct Hrow as (r & Hin & Hs & Hp).
  specialize (H r Hin (or_intror Hs)). rewrite Hp in H. discriminate H.
Qed.

(** C5, as stated, fails: the one statement of a handler fails (the driver
    fails the UPDATE of SubscriptionDeleted; the CHECK on [status] rejects
    the UPDATE of SubscriptionChanged), and the webhook still answers that
    the event was received instead of failing the delivery; the
    Subscriptions are as they were. *)
Lemma C5_counterexample :
  (outcomes (webhook request_2 (Some (customer_subscription_deleted alice_pro_canceled)))
     failing_world = [true] /\
   fst (run (webhook request_2 (Some (customer_subscription_deleted alice_pro_canceled)))
          failing_world) = inr Received /\
   user_subscriptions
     (snd (run (webhook request_2 (Some (customer_subscription_deleted alice_pro_canceled)))
             failing_world)) = user_subscriptions failing_world) /\
  (outcomes (webhook request_2 (Some (customer_subscription_updated alice_incomplete)))
     subscribed_world = [true] /\
   run (webhook request_2 (Some (customer_subscription_updated alice_incomplete)))
     subscribed_world = (inr Received, subscribed_world)).
Proof. vm_compute. repeat split. Qed.

(** C6, as stated, fails: an update whose amount is 999 does not leave pro
    when its status is not one the CHECK on [status] lists.  With status
    incomplete Alice's Subscription, free after her checkout, stays free;
    with status unpaid her Subscription at premium stays premium.  In both
    cases the UPDATE is rejected and the store is what it was. *)
Lemma C6_counterexample :
  tier_by_exact_match (sub_unit_amount alice_incomplete) = PlanPro /\
  option_map plan_type
    (subscription_by_ref
       (deliver [(request_2, customer_subscription_updated alice_incomplete)]
          subscribed_world) "sub_1") = Some PlanFree /\
  tier_by_exact_match (sub_unit_amount alice_unpaid) = PlanPro /\
  option_map plan_type
    (subscription_by_ref
       (deliver [(request_3, customer_subscription_updated alice_unpaid)]
          premium_world) "sub_1") = Some PlanPremium /\
  deliver [(request_3, customer_subscription_updated alice_unpaid)] premium_world
    = premium_world.
Proof. vm_compute. repeat split. Qed.

(** ** The theorems at concrete inputs *)

(** Alice, newly registered, uses her two free assessments; the third
    request is refused. *)
Lemma C2_witness :
  stored_count signup_world "u-alice" "assessment" = 0 /\
  fst (serve (map (fun rt => increment rt "u-alice" "assessment") [request_1; request_2])
         signup_world) =
    [inr (IncrementOk 1 (JsNumber 2) false PlanFree);
     inr (IncrementOk 2 (JsNumber 2) false PlanFree)] /\
  stored_count
    (snd (serve (map (fun rt => increment rt "u-alice" "assessment") [request_1; request_2])
            signup_world)) "u-alice" "assessment" = 2 /\
  fst (run (increment request_3 "u-alice" "assessment")
         (snd (serve (map (fun rt => increment rt "u-alice" "assessment")
                        [request_1; request_2]) signup_world))) =
    inr (UsageLimitExceeded 2 (JsNumber 2) PlanFree).
Proof.
  assert (Hfresh : forall rt, In rt [request_1; request_2] ->
            mem_string (uuidv4 rt) (map g_id (user_usage signup_world)) = false).
  { intros rt [<- | [<- | []]]; reflexivity. }
  assert (Hq : 2 <> -1) by discriminate.
  destruct (C2_quota_enforced_sequentially signup_world "u-alice" "assessment" 2
              [request_1; request_2] request_3 eq_refl eq_refl Hq eq_refl eq_refl Hfresh)
    as (H1 & H2 & H3).
  split; [reflexivity |]. split; [exact H1 |]. split; [exact H2 |].
  rewrite H3. reflexivity.
Defined.

(** Alice's canceled Subscription: the routes report the stored tier. *)
Lemma C3_witness :
  faults lapsed_world = [] /\
  exists usage lastResetDate,
    run (stats "u-alice") lapsed_world =
    (inr (StatsOk (planType_of (subscription_of lapsed_world "u-alice"))
            usage lastResetDate), lapsed_world).
Proof.
  assert (Hfeat : In "assessment" (js_keys (PLAN_LIMITS PlanFree)))
    by (left; reflexivity).
  split; [reflexivity |].
  exact (proj1 (proj2 (proj2
           (C3_plan_resolved_from_stored_tier lapsed_world "u-alice" "assessment"
              request_3 eq_refl Hfeat)))).
Defined.

(** Checkout, upgrade to pro, deletion: the invariant holds at the end. *)
Lemma C4_witness :
  tier_follows_status signup_world /\
  tier_follows_status
    (deliver [(request_1, checkout_session_completed alice_checkout);
              (request_2, customer_subscription_updated alice_pro);
              (request_3, customer_subscription_deleted alice_pro)]
       signup_world).
Proof.
  assert (H0 : tier_follows_status signup_world) by (intros r []).
  split; [exact H0 |].
  apply (C4_tier_invariant_preserved _ signup_world H0).
  repeat constructor. simpl. intros [H | H]; discriminate H.
Defined.

(** The update that upgrades Alice to pro: her Subscription, free after
    the checkout, holds pro afterwards. *)
Lemma C6_witness :
  option_map plan_type (subscription_by_ref subscribed_world (sub_id alice_pro))
    = Some PlanFree /\
  exists r',
    subscription_by_ref
      (deliver [(request_2, customer_subscription_updated alice_pro)] subscribed_world)
      (sub_id alice_pro) = Some r' /\
    plan_type r' = PlanPro.
Proof.
  assert (Hr : exists r, subscription_by_ref subscribed_world (sub_id alice_pro) = Some r).
  { eexists. vm_compute. reflexivity. }
  destruct Hr as (r & Hr).
  split; [reflexivity |].
  destruct (C6_tier_derived_from_amount request_2 alice_pro
              (customer_subscription_updated alice_pro) subscribed_world r
              (or_intror eq_refl) Hr) as (r' & Hr' & Htier).
  exists r'. split; [exact Hr' | exact Htier].
Defined.

(** Alice at used = 2 of 2: the payment resets her counter, and canUse
    answers true again. *)
Lemma C7_witness :
  stored_count exhausted_world "u-alice" "assessment" = 2 /\
  stored_count
    (deliver [(request_3, invoice_payment_succeeded alice_invoice)] exhausted_world)
    "u-alice" "assessment" = 0 /\
  exists lim unl tier,
    run (can_use "u-alice" "assessment")
      (deliver [(request_3, invoice_payment_succeeded alice_invoice)] exhausted_world) =
    (inr (CanUseOk true 0 lim unl tier),
     deliver [(request_3, invoice_payment_succeeded alice_invoice)] exhausted_world).
Proof.
  assert (Hr : exists r, subscription_by_ref exhausted_world "sub_1" = Some r /\
                         s_user_id r = "u-alice").
  { eexists. split; vm_compute; reflexivity. }
  destruct Hr as (r & Hr & Hu).
  destruct (C7_payment_succeeded_resets_usage request_3 alice_invoice "sub_1"
              exhausted_world r eq_refl eq_refl eq_refl Hr)
    as (_ & _ & H0 & Hcan).
  rewrite Hu in *.
  split; [reflexivity |]. split; [apply H0 |].
  apply Hcan. left. reflexivity.
Defined.

(** The deletion of Alice's subscription, delivered twice. *)
Lemma C8_witness :
  schema_unique subscribed_world /\
  exists r2,
    subscription_by_ref
      (deliver [(request_2, customer_subscription_deleted alice_pro);
                (request_3, customer_subscription_deleted alice_pro)] subscribed_world)
      (sub_id alice_pro) = Some r2 /\
    status r2 = StCanceled /\ plan_type r2 = PlanFree.
Proof.
  assert (Hr : exists r, subscription_by_ref subscribed_world (sub_id alice_pro) = Some r).
  { eexists. vm_compute. reflexivity. }
  destruct Hr as (r & Hr).
  split; [reflexivity |].
  exact (proj1 (proj2
           (C8_subscription_deleted_idempotent request_2 request_3 alice_pro
              subscribed_world r eq_refl eq_refl Hr))).
Defined.

(** Alice's checkout: she gets an active Subscription on the tier free. *)
Lemma C10_witness :
  outcomes (handleCheckoutCompleted request_1 alice_checkout) signup_world
  = [false; false; false] /\
  exists r',
    subscription_of
      (deliver [(request_1, checkout_session_completed alice_checkout)] signup_world)
      (u_id alice) = Some r' /\
    status r' = StActive /\
    plan_type r' = planType_of (subscription_of signup_world (u_id alice)).
Proof.
  split; [reflexivity |].
  exact (proj2 (proj2
           (C10_checkout_never_writes_plan_type request_1 alice_checkout signup_world))
           "alice@example.com" alice eq_refl eq_refl eq_refl eq_refl eq_refl).
Defined.

(** * More of the code *)

(** ** Routes that only read *)

Lemma exec_select_tables (w0 : World) (X : Type) (q : Sql X) (w : World) :
  is_select X q -> tables w = tables w0 -> tables (snd (exec q w)) = tables w0.
Proof.
  intros Hq Hw. unfold exec.
  destruct (faults w) as [| [|] rest]; destruct q; simpl in *; try contradiction; exact Hw.
Qed.

Lemma stats_selects (userId : string) : issues_only is_select (stats userId).
Proof. unfold stats. unfold_database. issues ltac:(cbn [is_select]). Qed.

Lemma can_use_selects (userId feature : string) :
  issues_only is_select (can_use userId feature).
Proof. unfold can_use. unfold_database. issues ltac:(cbn [is_select]). Qed.

(** X1. [/stats] and [/can-use/:feature] never write: whatever the driver fails,
    every table is afterwards what it was; and they answer 500 exactly when
    one of their two reads failed. *)
Theorem stats_and_can_use_only_read :
  forall (userId feature : string) (w : World),
    tables (snd (run (stats userId) w)) = tables w /\
    tables (snd (run (can_use userId feature) w)) = tables w /\
    (fst (run (stats userId) w) = inr InternalServerError <->
     failed (outcomes (stats userId) w) = true) /\
    (fst (run (can_use userId feature) w) = inr InternalServerError <->
     failed (outcomes (can_use userId feature) w) = true).
Proof.
  intros userId feature w.
  split; [| split; [| split]].
  - apply (run_invariant is_select (fun w' => tables w' = tables w) (exec_select_tables w));
      [apply stats_selects | reflexivity].
  - apply (run_invariant is_select (fun w' => tables w' = tables w) (exec_select_tables w));
      [apply can_use_selects | reflexivity].
  - unfold stats. unfold_database.
    cbn [run outcomes try_catch bind await fst failed existsb].
    destruct (exec (SelectUsageByUser userId) w) as [[e | usage] w1];
      cbn [run outcomes try_catch bind await fst failed existsb orb];
      [split; reflexivity |].
    destruct (exec (SelectSubscriptionByUser userId) w1) as [[e | subscription] w2];
      cbn [run outcomes try_catch bind await fst failed existsb orb];
      split; intros H; try reflexivity; discriminate H.
  - unfold can_use. unfold_database.
    destruct (negb (truthy (js_get (PLAN_LIMITS PlanFree) feature)));
      cbn [run outcomes try_catch bind await fst failed existsb];
      [split; intros H; discriminate H |].
    destruct (exec (SelectUsageByUser userId) w) as [[e | usage] w1];
      cbn [run outcomes try_catch bind await fst failed existsb orb];
      [split; reflexivity |].
    destruct (exec (SelectSubscriptionByUser userId) w1) as [[e | subscription] w2];
      cbn [run outcomes try_catch bind await fst failed existsb orb];
      split; intros H; try reflexivity; discriminate H.
Qed.

(** ** What an increment and a reset leave alone *)

(** A lookup does not see a rewriting that spares the rows it tests for. *)
Lemma find_map_spared {T : Type} (p : T -> bool) (g : T -> T) (l : list T) :
  (forall x, p (g x) = p x) ->
  (forall x, p x = true -> g x = x) ->
  find p (map g l) = find p l.
Proof.
  intros Hp Hg. rewrite find_map_preserved by exact Hp.
  destruct (find p l) as [x |] eqn:E; [| reflexivity].
  apply find_some in E. simpl. rewrite (Hg x); [reflexivity | apply E].
Qed.

(** A lookup does not see an appended row it does not test for. *)
Lemma find_app_other {T : Type} (p : T -> bool) (l : list T) (x : T) :
  p x = false -> find p (l ++ [x]) = find p l.
Proof.
  intros Hx. induction l as [| y rest IH]; simpl; [rewrite Hx; reflexivity |].
  destruct (p y); [reflexivity | exact IH].
Qed.

(** A row is the counter of at most one user and feature. *)
Lemma usage_matches_other (u f userId featureType : string) (g : UsageRow) :
  u <> userId \/ f <> featureType ->
  usage_matches u f g = true -> usage_matches userId featureType g = false.
Proof.
  unfold usage_matches. intros Hne Hm.
  apply andb_true_iff in Hm. destruct Hm as [Hu Hf].
  apply String.eqb_eq in Hu. apply String.eqb_eq in Hf. rewrite Hu, Hf.
  destruct Hne as [Hne | Hne].
  - apply String.eqb_neq in Hne. rewrite Hne. reflexivity.
  - apply String.eqb_neq in Hne. rewrite Hne. apply andb_false_r.
Qed.

Lemma exec_sql_counter_framed (userId featureType : string) (w0 : World)
  (X : Type) (q : Sql X) (w : World) :
  counts_only userId featureType X q ->
  counter_framed userId featureType w0 w ->
  counter_framed userId featureType w0 (snd (exec_sql q w)).
Proof.
  intros Hq Hw. destruct q; simpl in Hq; try contradiction; try exact Hw.
  - destruct Hq as [-> ->]. destruct Hw as (Hu & Hs & Hc).
    split; [exact Hu | split; [exact Hs |]]. intros u f Hne.
    rewrite <- (Hc u f Hne). unfold stored_count. simpl.
    rewrite find_map_spared; [reflexivity | |].
    + intros g. destruct (usage_matches userId featureType g); reflexivity.
    + intros g Hg. rewrite (usage_matches_other u f userId featureType g Hne Hg).
      reflexivity.
  - destruct Hq as [-> ->]. simpl.
    destruct (_ || _ || _); [exact Hw |].
    destruct Hw as (Hu & Hs & Hc).
    split; [exact Hu | split; [exact Hs |]]. intros u f Hne.
    rewrite <- (Hc u f Hne). unfold stored_count. simpl.
    rewrite find_app_other; [reflexivity |].
    unfold usage_matches. simpl.
    destruct Hne as [Hne | Hne].
    + apply not_eq_sym, String.eqb_neq in Hne. rewrite Hne. reflexivity.
    + apply not_eq_sym, String.eqb_neq in Hne. rewrite Hne. apply andb_false_r.
Qed.

Lemma exec_counter_framed (userId featureType : string) (w0 : World)
  (X : Type) (q : Sql X) (w : World) :
  counts_only userId featureType X q ->
  counter_framed userId featureType w0 w ->
  counter_framed userId featureType w0 (snd (exec q w)).
Proof.
  intros Hq Hw. unfold exec. destruct (faults w) as [| [|] rest].
  - apply exec_sql_counter_framed; assumption.
  - exact Hw.
  - apply exec_sql_counter_framed; [exact Hq | exact Hw].
Qed.

Lemma increment_counts_only (rt : Runtime) (userId feature : string) :
  issues_only (counts_only userId feature) (increment rt userId feature).
Proof.
  unfold increment. unfold_database.
  issues ltac:(cbn [counts_only]); split; reflexivity.
Qed.

(** X2. [/increment/:feature] touches one counter: whether it succeeds, is
    refused or fails, and whatever the driver fails, the users, the
    Subscriptions and the stored count of every other user or feature are
    what they were. *)
Theorem increment_touches_one_counter :
  forall (rt : Runtime) (userId feature : string) (w : World),
    counter_framed userId feature w (snd (run (increment rt userId feature) w)).
Proof.
  intros rt userId feature w.
  apply (run_invariant (counts_only userId feature) (counter_framed userId feature w)
           (exec_counter_framed userId feature w));
    [apply increment_counts_only |].
  repeat split.
Qed.

(** [/reset] on a database that does not fail: one UPDATE of the caller's
    counters. *)
Lemma reset_run (userId : string) (w : World) :
  faults w = [] ->
  run (reset userId) w =
  (inr ResetOk, with_usage (map (zeroed (db_clock w) userId) (user_usage w)) w).
Proof.
  intros Hf. unfold reset, resetUserUsage.
  rewrite run_try_catch, run_bind, run_await, exec_no_fault by exact Hf.
  reflexivity.
Qed.

(** [/stats] on a database that does not fail: one entry for each key of the
    free tier's limits, in their order. *)
Lemma stats_run_entries (userId : string) (w : World) :
  faults w = [] ->
  exists lastResetDate,
    run (stats userId) w =
    (let tier := planType_of (subscription_of w userId) in
     (inr (StatsOk tier
             (map (fun feature =>
                     let lim := js_get (PLAN_LIMITS tier) feature in
                     (feature,
                      mkStats (stored_count w userId feature) lim (strict_eq lim (-1))
                        (percentage_of (stored_count w userId feature) lim)))
                (js_keys (PLAN_LIMITS PlanFree)))
             lastResetDate), w)).
Proof.
  intros Hf. unfold stats.
  rewrite run_try_catch, run_bind. unfold getUserUsage, getUserSubscription.
  rewrite run_await, exec_no_fault by exact Hf. cbn [exec_sql].
  rewrite run_bind, run_await, exec_no_fault by exact Hf. cbn [exec_sql].
  fold (usage_of w userId). fold (subscription_of w userId).
  eexists. cbn [run]. do 3 f_equal.
  apply map_ext. intros feature. rewrite currentUsage_stored. reflexivity.
Qed.

Lemma zeroed_other_lookup (clock : Timestamp) (userId u f : string) (rows : list UsageRow) :
  u <> userId ->
  find (usage_matches u f) (map (zeroed clock userId) rows) = find (usage_matches u f) rows.
Proof.
  intros Hne. apply find_map_spared.
  - intros g. unfold zeroed. destruct (g_user_id g ==? userId); reflexivity.
  - intros g Hg. unfold zeroed, usage_matches in *.
    apply andb_true_iff in Hg. destruct Hg as [Hu _]. apply String.eqb_eq in Hu.
    rewrite Hu. apply String.eqb_neq in Hne. rewrite Hne. reflexivity.
Qed.

(** X3. [/reset] followed by [/stats], on a database that does not fail: the
    reset succeeds whatever the counters were, sets every counter of the
    caller to 0 and nothing else (no row is created or removed, other users'
    counts and the Subscriptions are untouched), and [/stats] then reports
    used = 0 for each of the four features. *)
Theorem reset_then_stats_shows_zero :
  forall (userId : string) (w : World),
    faults w = [] ->
    let w' := snd (run (reset userId) w) in
    fst (run (reset userId) w) = inr ResetOk /\
    (forall f, stored_count w' userId f = 0) /\
    (forall u f, u <> userId -> stored_count w' u f = stored_count w u f) /\
    user_subscriptions w' = user_subscriptions w /\
    map usage_identity (user_usage w') = map usage_identity (user_usage w) /\
    exists tier usage lastResetDate,
      run (stats userId) w' = (inr (StatsOk tier usage lastResetDate), w') /\
      map fst usage = js_keys (PLAN_LIMITS PlanFree) /\
      Forall (fun entry => used (snd entry) = 0) usage.
Proof.
  intros userId w Hf w'. unfold w'. rewrite reset_run by exact Hf. cbn [fst snd].
  set (w1 := with_usage (map (zeroed (db_clock w) userId) (user_usage w)) w).
  assert (Z0 : forall f, stored_count w1 userId f = 0).
  { intros f. unfold stored_count.
    destruct (find _ (user_usage w1)) as [g |] eqn:Eg; [| reflexivity].
    apply find_some in Eg. destruct Eg as [Hin Hm].
    apply (zeroed_rows (db_clock w) userId (user_usage w) g Hin).
    unfold usage_matches in Hm. apply andb_true_iff in Hm. apply String.eqb_eq, Hm. }
  split; [reflexivity |]. split; [exact Z0 |]. split; [| split; [reflexivity | split]].
  - intros u f Hne. unfold stored_count, w1. cbn [user_usage with_usage].
    rewrite zeroed_other_lookup by exact Hne. reflexivity.
  - unfold w1. cbn [user_usage with_usage]. rewrite map_map. apply map_ext.
    intros g. unfold zeroed. destruct (g_user_id g ==? userId); reflexivity.
  - destruct (stats_run_entries userId w1 Hf) as [last Hrun].
    cbv zeta in Hrun. eexists _, _, last. split; [exact Hrun |].
    split; [rewrite map_map; apply map_id |].
    apply Forall_forall. intros entry Hin. apply in_map_iff in Hin.
    destruct Hin as (feature & <- & _). cbn [snd used]. apply Z0.
Qed.

(** Alice at used = 2 of 2 resets her counters. *)
Lemma reset_then_stats_shows_zero_witness :
  faults exhausted_world = [] /\
  stored_count exhausted_world "u-alice" "assessment" = 2 /\
  stored_count (snd (run (reset "u-alice") exhausted_world)) "u-alice" "assessment" = 0.
Proof.
  split; [reflexivity |]. split; [reflexivity |].
  destruct (reset_then_stats_shows_zero "u-alice" exhausted_world eq_refl)
    as (_ & H & _).
  apply H.
Defined.

(** X4. What [/stats] reports for a feature is what [/can-use] answers for it:
    the same tier, used count, limit and unlimited flag, with canUse true
    exactly when the plan is unlimited or the used count is below the
    limit. *)
Theorem stats_agrees_with_can_use :
  forall (userId : string) (w : World),
    faults w = [] ->
    exists tier usage lastResetDate,
      run (stats userId) w = (inr (StatsOk tier usage lastResetDate), w) /\
      map fst usage = js_keys (PLAN_LIMITS PlanFree) /\
      forall feature entry,
        In (feature, entry) usage ->
        run (can_use userId feature) w =
        (inr (CanUseOk (unlimited entry || js_lt (used entry) (limit entry))
                (used entry) (limit entry) (unlimited entry) tier), w).
Proof.
  intros userId w Hf.
  destruct (stats_run_entries userId w Hf) as [last Hrun]. cbv zeta in Hrun.
  eexists _, _, last. split; [exact Hrun |].
  split; [rewrite map_map; apply map_id |].
  intros feature entry Hin. apply in_map_iff in Hin.
  destruct Hin as (f & Heq & Hkey). inversion Heq; subst. clear Heq.
  rewrite can_use_run; [| exact Hf | apply own_feature_accepted, Hkey].
  cbv zeta. rewrite currentUsage_stored. reflexivity.
Qed.

(** Alice, subscribed, with both assessments used. *)
Lemma stats_agrees_with_can_use_witness :
  faults exhausted_world = [] /\
  exists tier usage lastResetDate,
    run (stats "u-alice") exhausted_world =
      (inr (StatsOk tier usage lastResetDate), exhausted_world) /\
    map fst usage = js_keys (PLAN_LIMITS PlanFree) /\
    forall feature entry,
      In (feature, entry) usage ->
      run (can_use "u-alice" feature) exhausted_world =
      (inr (CanUseOk (unlimited entry || js_lt (used entry) (limit entry))
              (used entry) (limit entry) (unlimited entry) tier), exhausted_world).
Proof.
  split; [reflexivity |].
  exact (stats_agrees_with_can_use "u-alice" exhausted_world eq_refl).
Defined.

(** ** canUse and the increment agree *)

(** The limit of an own key is a number, in every plan. *)
Lemma own_key_limit_is_number (planType : PlanType) (feature : string) :
  In feature (js_keys (PLAN_LIMITS PlanFree)) ->
  exists l, js_get (PLAN_LIMITS planType) feature = JsNumber l /\ (l = -1 \/ 0 < l).
Proof.
  intros H. destruct (own_feature_cases feature H) as [-> | [-> | [-> | ->]]];
    destruct planType; eexists; (split; [reflexivity | simpl; lia]).
Qed.

(** An increment that the limit lets through succeeds: it reports the stored
    count plus one and stores it. *)
Lemma increment_let_through (rt : Runtime) (userId feature : string) (w : World) (l : Z) :
  faults w = [] ->
  js_get (PLAN_LIMITS (planType_of (subscription_of w userId))) feature = JsNumber l ->
  l = -1 \/ stored_count w userId feature < l ->
  (find (usage_matches userId feature) (user_usage w) <> None \/
   mem_string (uuidv4 rt) (map g_id (user_usage w)) = false) ->
  exists w',
    run (increment rt userId feature) w =
    (inr (IncrementOk (stored_count w userId feature + 1) (JsNumber l) (l =? -1)
            (planType_of (subscription_of w userId))), w') /\
    faults w' = [] /\
    user_subscriptions w' = user_subscriptions w /\
    stored_count w' userId feature = stored_count w userId feature + 1 /\
    find (usage_matches userId feature) (user_usage w') <> None.
Proof.
  intros Hf Hq Hlim Hins.
  pose proof (quota_is_own_key _ _ _ Hq) as Hown.
  rewrite increment_run; [| exact Hf | apply own_feature_accepted, Hown].
  cbv zeta. rewrite Hq. cbn [strict_eq js_ge].
  assert (Hgo : negb (l =? -1) && (l <=? stored_count w userId feature) = false).
  { destruct Hlim as [-> | Hlt]; [reflexivity |].
    replace (l <=? stored_count w userId feature) with false
      by (symmetry; apply Z.leb_gt; exact Hlt).
    apply andb_false_r. }
  rewrite Hgo. unfold stored_count in *.
  destruct (find (usage_matches userId feature) (user_usage w)) as [row |] eqn:E.
  - eexists; split; [reflexivity |]. cbn [faults user_subscriptions user_usage with_usage].
    rewrite bumped_lookup, E. cbn [option_map].
    repeat split; auto; try discriminate.
    apply find_some in E. destruct E as [_ E]. unfold bumped. rewrite E. reflexivity.
  - destruct Hins as [Hins | Hins]; [contradiction |].
    rewrite Hins, (own_key_is_feature_type _ Hown), (find_none_existsb _ _ E).
    cbn [negb orb].
    eexists; split; [reflexivity |]. cbn [faults user_subscriptions user_usage with_usage].
    rewrite (find_app_none _ _ _ E).
    unfold usage_matches, first_use. cbn [g_user_id feature_type usage_count].
    rewrite !String.eqb_refl. cbn [andb].
    repeat split; auto; discriminate.
Qed.

(** X5. For a recognized feature whose stored count is a safe integer, on a
    database that does not fail, [/can-use] predicts [/increment]: when
    canUse is false the increment is refused (403) with the same used count
    and limit and changes nothing; when canUse is true the increment
    succeeds (its INSERT, if it needs one, finding its id unused), reports
    used + 1 and stores it. *)
Theorem can_use_predicts_increment :
  forall (rt : Runtime) (userId feature : string) (w : World),
    faults w = [] ->
    In feature (js_keys (PLAN_LIMITS PlanFree)) ->
    safe_integer (stored_count w userId feature) ->
    exists canUse currentUsage lim unl tier,
      run (can_use userId feature) w = (inr (CanUseOk canUse currentUsage lim unl tier), w) /\
      (canUse = false ->
       run (increment rt userId feature) w =
       (inr (UsageLimitExceeded currentUsage lim tier), w)) /\
      (canUse = true ->
       find (usage_matches userId feature) (user_usage w) <> None \/
       mem_string (uuidv4 rt) (map g_id (user_usage w)) = false ->
       exists w',
         run (increment rt userId feature) w =
         (inr (IncrementOk (currentUsage + 1) lim unl tier), w') /\
         stored_count w' userId feature = currentUsage + 1).
Proof.
  intros rt userId feature w Hf Hown _.
  destruct (own_key_limit_is_number (planType_of (subscription_of w userId)) feature Hown)
    as (l & Hq & Hl).
  rewrite can_use_run; [| exact Hf | apply own_feature_accepted, Hown].
  cbv zeta. rewrite currentUsage_stored, Hq. cbn [strict_eq js_lt].
  eexists _, _, _, _, _. split; [reflexivity |]. split.
  - intros Hno. apply orb_false_iff in Hno. destruct Hno as [H1 H2].
    apply Z.eqb_neq in H1. apply Z.ltb_ge in H2.
    apply (increment_at_limit rt userId feature w l Hf Hq H1 H2).
  - intros Hyes Hins. apply orb_true_iff in Hyes.
    destruct (increment_let_through rt userId feature w l Hf Hq) as (w' & Hrun & _ & _ & Hc & _).
    + destruct Hyes as [H | H]; [left; apply Z.eqb_eq, H | right; apply Z.ltb_lt, H].
    + exact Hins.
    + exists w'. split; [exact Hrun | exact Hc].
Qed.

(** Alice at used = 2 of 2 asks for an assessment. *)
Lemma can_use_predicts_increment_witness :
  faults exhausted_world = [] /\
  In "assessment" (js_keys (PLAN_LIMITS PlanFree)) /\
  safe_integer (stored_count exhausted_world "u-alice" "assessment") /\
  exists canUse currentUsage lim unl tier,
    run (can_use "u-alice" "assessment") exhausted_world =
      (inr (CanUseOk canUse currentUsage lim unl tier), exhausted_world) /\
    (canUse = false ->
     run (increment request_3 "u-alice" "assessment") exhausted_world =
     (inr (UsageLimitExceeded currentUsage lim tier), exhausted_world)) /\
    (canUse = true ->
     find (usage_matches "u-alice" "assessment") (user_usage exhausted_world) <> None \/
     mem_string (uuidv4 request_3) (map g_id (user_usage exhausted_world)) = false ->
     exists w',
       run (increment request_3 "u-alice" "assessment") exhausted_world =
       (inr (IncrementOk (currentUsage + 1) lim unl tier), w') /\
       stored_count w' "u-alice" "assessment" = currentUsage + 1).
Proof.
  split; [reflexivity |].
  assert (Hin : In "assessment" (js_keys (PLAN_LIMITS PlanFree))) by (simpl; auto).
  split; [exact Hin |].
  assert (Hsafe : safe_integer (stored_count exhausted_world "u-alice" "assessment"))
    by (split; reflexivity).
  split; [exact Hsafe |].
  exact (can_use_predicts_increment request_3 "u-alice" "assessment" exhausted_world
           eq_refl Hin Hsafe).
Defined.

(** ** The unlimited plan *)

Lemma serve_let_through (userId feature : string) (l : Z) (rts : list Runtime) :
  forall (w : World) (c : Z),
    faults w = [] ->
    js_get (PLAN_LIMITS (planType_of (subscription_of w userId))) feature = JsNumber l ->
    stored_count w userId feature = c ->
    l = -1 \/ c + Z.of_nat (List.length rts) <= l ->
    (find (usage_matches userId feature) (user_usage w) <> None \/
     forall rt, In rt rts -> mem_string (uuidv4 rt) (map g_id (user_usage w)) = false) ->
    exists w',
      serve (map (fun rt => increment rt userId feature) rts) w =
      (map (fun k => inr (IncrementOk (c + Z.of_nat k) (JsNumber l) (l =? -1)
                            (planType_of (subscription_of w userId))))
         (seq 1 (List.length rts)), w') /\
      faults w' = [] /\
      user_subscriptions w' = user_subscriptions w /\
      stored_count w' userId feature = c + Z.of_nat (List.length rts).
Proof.
  induction rts as [| rt rest IH]; intros w c Hf Hq Hc Hle Hins.
  - exists w. simpl. repeat split; auto. rewrite Hc. lia.
  - cbn [List.length] in Hle. rewrite Nat2Z.inj_succ in Hle.
    destruct (increment_let_through rt userId feature w l Hf Hq)
      as (w1 & Hrun & Hf1 & Hs1 & Hc1 & Hrow1).
    + rewrite Hc. destruct Hle as [H | H]; [left; exact H | right; lia].
    + destruct Hins as [H | H]; [left; exact H | right; apply H; left; reflexivity].
    + assert (Ht : subscription_of w1 userId = subscription_of w userId)
        by (unfold subscription_of; rewrite Hs1; reflexivity).
      assert (Hq1 : js_get (PLAN_LIMITS (planType_of (subscription_of w1 userId))) feature
                    = JsNumber l) by (rewrite Ht; exact Hq).
      assert (Hc1' : stored_count w1 userId feature = c + 1)
        by (rewrite Hc1, Hc; reflexivity).
      assert (Hle1 : l = -1 \/ c + 1 + Z.of_nat (List.length rest) <= l)
        by (destruct Hle as [H | H]; [left; exact H | right; lia]).
      destruct (IH w1 (c + 1) Hf1 Hq1 Hc1' Hle1 (or_introl Hrow1))
        as (w' & Hserve & Hf' & Hs' & Hc').
      exists w'. cbn [map serve]. rewrite Hrun, Hserve, Hc, Ht.
      split; [| split; [exact Hf' | split; [congruence |]]].
      * cbn [List.length seq map]. apply f_equal2; [| reflexivity].
        apply f_equal2; [reflexivity |].
        rewrite <- (seq_shift (List.length rest) 1), map_map. apply map_ext. intros k.
        do 2 f_equal. lia.
      * rewrite Hc'. cbn [List.length]. lia.
Qed.

(** X6. A user on the premium plan is never refused: however many increments of
    a recognized feature are served one after another, on a database that
    does not fail, each succeeds, reports the next count with the unlimited
    flag set, and the stored count grows by one each time, as long as the
    counts stay among the integers a JS number holds exactly (from a safe
    integer up to 2^53). *)
Theorem premium_is_never_refused :
  forall (w : World) (userId feature : string) (rts : list Runtime),
    faults w = [] ->
    planType_of (subscription_of w userId) = PlanPremium ->
    In feature (js_keys (PLAN_LIMITS PlanFree)) ->
    safe_integer (stored_count w userId feature) ->
    stored_count w userId feature + Z.of_nat (List.length rts) <= 2 ^ 53 ->
    (find (usage_matches userId feature) (user_usage w) <> None \/
     forall rt, In rt rts -> mem_string (uuidv4 rt) (map g_id (user_usage w)) = false) ->
    let served := serve (map (fun rt => increment rt userId feature) rts) w in
    fst served =
      map (fun k => inr (IncrementOk (stored_count w userId feature + Z.of_nat k)
                           (JsNumber (-1)) true PlanPremium))
        (seq 1 (List.length rts)) /\
    stored_count (snd served) userId feature =
      stored_count w userId feature + Z.of_nat (List.length rts).
Proof.
  intros w userId feature rts Hf Htier Hown _ _ Hins served.
  assert (Hq : js_get (PLAN_LIMITS (planType_of (subscription_of w userId))) feature
               = JsNumber (-1)).
  { rewrite Htier.
    destruct (own_feature_cases feature Hown) as [-> | [-> | [-> | ->]]]; reflexivity. }
  destruct (serve_let_through userId feature (-1) rts w _ Hf Hq eq_refl (or_introl eq_refl) Hins)
    as (w' & Hserve & _ & _ & Hc).
  unfold served. rewrite Hserve, Htier. split; [reflexivity | exact Hc].
Qed.

(** Alice on the premium plan writes three journal entries. *)
Lemma premium_is_never_refused_witness :
  planType_of (subscription_of premium_world "u-alice") = PlanPremium /\
  let served :=
    serve (map (fun rt => increment rt "u-alice" "journal_entry")
             [request_1; request_2; request_3]) premium_world in
  fst served =
    map (fun k => inr (IncrementOk (stored_count premium_world "u-alice" "journal_entry"
                                    + Z.of_nat k) (JsNumber (-1)) true PlanPremium))
      (seq 1 3) /\
  stored_count (snd served) "u-alice" "journal_entry" =
    stored_count premium_world "u-alice" "journal_entry" + 3.
Proof.
  split; [reflexivity |].
  apply (premium_is_never_refused premium_world "u-alice" "journal_entry"
           [request_1; request_2; request_3]).
  - reflexivity.
  - reflexivity.
  - simpl; auto.
  - split; reflexivity.
  - cbv. discriminate.
  - right. intros rt _. reflexivity.
Defined.

(** ** [incrementUsage] and the schema of [user_usage] *)

(** X7. [Database.incrementUsage], called alone on a database that does not
    fail, for a stored count that is a safe integer: it either returns the
    stored count plus one, which is the count stored afterwards (the row
    being created at 1 on first use), or, on first use only, the INSERT is
    rejected (its id taken, or a feature type the CHECK does not list) and
    nothing changes.  It applies no limit. *)
Theorem incrementUsage_returns_new_count :
  forall (rt : Runtime) (userId featureType : string) (w : World),
    faults w = [] ->
    safe_integer (stored_count w userId featureType) ->
    (exists w',
       run (incrementUsage rt userId featureType) w =
       (inr (stored_count w userId featureType + 1), w') /\
       stored_count w' userId featureType = stored_count w userId featureType + 1) \/
    (run (incrementUsage rt userId featureType) w = (inl ConstraintViolation, w) /\
     find (usage_matches userId featureType) (user_usage w) = None /\
     (mem_string (uuidv4 rt) (map g_id (user_usage w)) = true \/
      mem_string featureType feature_types = false)).
Proof.
  intros rt userId featureType w Hf _. unfold incrementUsage.
  rewrite run_bind, run_await, exec_no_fault by exact Hf. cbn [exec_sql].
  unfold stored_count.
  destruct (find (usage_matches userId featureType) (user_usage w)) as [row |] eqn:E.
  - left. rewrite run_bind, run_await, exec_no_fault by exact Hf. cbn [exec_sql run].
    eexists. split; [reflexivity |]. cbn [user_usage with_usage].
    fold (bumped (db_clock w) userId featureType).
    change (map _ (user_usage w))
      with (map (bumped (db_clock w) userId featureType) (user_usage w)).
    rewrite bumped_lookup, E. cbn [option_map].
    apply find_some in E. destruct E as [_ E]. unfold bumped. rewrite E. reflexivity.
  - rewrite run_bind, run_await, exec_no_fault by exact Hf. cbn [exec_sql].
    rewrite (find_none_existsb _ _ E), orb_false_r.
    destruct (mem_string (uuidv4 rt) (map g_id (user_usage w))) eqn:Eid;
      [right; cbn [orb run]; auto |].
    destruct (mem_string featureType feature_types) eqn:Eft;
      [| right; cbn [negb orb run]; auto].
    left. cbn [negb orb run]. eexists. split; [reflexivity |].
    cbn [user_usage with_usage]. rewrite (find_app_none _ _ _ E).
    unfold usage_matches. cbn [g_user_id feature_type usage_count].
    rewrite !String.eqb_refl. reflexivity.
Qed.

(** Alice's second assessment, counted by [incrementUsage] alone. *)
Lemma incrementUsage_returns_new_count_witness :
  faults one_left_world = [] /\
  safe_integer (stored_count one_left_world "u-alice" "assessment") /\
  exists w',
    run (incrementUsage request_2 "u-alice" "assessment") one_left_world = (inr 2, w') /\
    stored_count w' "u-alice" "assessment" = 2.
Proof.
  split; [reflexivity |].
  assert (Hsafe : safe_integer (stored_count one_left_world "u-alice" "assessment"))
    by (split; reflexivity).
  split; [exact Hsafe |].
  destruct (incrementUsage_returns_new_count request_2 "u-alice" "assessment"
              one_left_world eq_refl Hsafe) as [H | (_ & H & _)].
  - exact H.
  - discriminate H.
Defined.

Lemma mem_string_In (s : string) (l : list string) :
  mem_string s l = false -> ~ In s l.
Proof.
  unfold mem_string. intros H Hin.
  assert (Ht : existsb (String.eqb s) l = true)
    by (apply existsb_exists; exists s; split; [exact Hin | apply String.eqb_refl]).
  rewrite H in Ht. discriminate Ht.
Qed.

Lemma no_match_no_key (userId featureType : string) (rows : list UsageRow) :
  existsb (usage_matches userId featureType) rows = false ->
  ~ In (userId, featureType) (map usage_key rows).
Proof.
  intros H Hin. apply in_map_iff in Hin. destruct Hin as (g & Hk & Hg).
  assert (Ht : existsb (usage_matches userId featureType) rows = true).
  { apply existsb_exists. exists g. split; [exact Hg |].
    unfold usage_key in Hk. inversion Hk. unfold usage_matches.
    rewrite !String.eqb_refl. reflexivity. }
  rewrite H in Ht. discriminate Ht.
Qed.

Lemma NoDup_snoc {T : Type} (l : list T) (x : T) :
  NoDup l -> ~ In x l -> NoDup (l ++ [x]).
Proof.
  intros Hl Hx. induction Hl as [| y rest Hy Hrest IH]; simpl.
  - constructor; [intros [] | constructor].
  - constructor.
    + intros Hin. apply in_app_or in Hin. destruct Hin as [Hin | [<- | []]].
      * contradiction.
      * apply Hx. left. reflexivity.
    + apply IH. intros Hin. apply Hx. right. exact Hin.
Qed.

Lemma exec_sql_usage_schema {X : Type} (q : Sql X) (w : World) :
  usage_schema w -> usage_schema (snd (exec_sql q w)).
Proof.
  intros Hw. destruct q; cbn [exec_sql snd]; try exact Hw.
  - unfold run_update. destruct (update_where _ _ _) as [[rows' n] |]; [| exact Hw].
    destruct (unique_stripe_ids rows'); exact Hw.
  - destruct (mem_string id (map s_id (user_subscriptions w))); [exact Hw |].
    destruct (assign_all data _) as [r |]; [| exact Hw].
    destruct (unique_stripe_ids _); exact Hw.
  - unfold run_update. destruct (update_where _ _ _) as [[rows' n] |]; [| exact Hw].
    destruct (unique_stripe_ids rows'); exact Hw.
  - destruct Hw as (Hid & Hkey & Hrows). unfold usage_schema.
    cbn [user_usage with_usage]. rewrite !map_map.
    assert (E1 : forall g : UsageRow,
               g_id (if usage_matches userId featureType g
                     then mkUsage (g_id g) (g_user_id g) (feature_type g) (usage_count g + 1)
                            (last_reset_date g) (g_created_at g) (db_clock w)
                     else g) = g_id g)
      by (intros g; destruct (usage_matches userId featureType g); reflexivity).
    assert (E2 : forall g : UsageRow,
               usage_key (if usage_matches userId featureType g
                          then mkUsage (g_id g) (g_user_id g) (feature_type g)
                                 (usage_count g + 1) (last_reset_date g) (g_created_at g)
                                 (db_clock w)
                          else g) = usage_key g)
      by (intros g; destruct (usage_matches userId featureType g); reflexivity).
    rewrite (map_ext _ _ E1), (map_ext _ _ E2).
    split; [exact Hid | split; [exact Hkey |]].
    apply Forall_forall. intros g Hin. apply in_map_iff in Hin.
    destruct Hin as (g0 & <- & Hin0).
    rewrite Forall_forall in Hrows. specialize (Hrows g0 Hin0).
    destruct (usage_matches userId featureType g0); [| exact Hrows].
    cbn [feature_type usage_count]. split; [apply Hrows | lia].
  - destruct (mem_string id (map g_id (user_usage w))) eqn:Eid; [exact Hw |].
    destruct (mem_string featureType feature_types) eqn:Eft; [| exact Hw].
    destruct (existsb (usage_matches userId featureType) (user_usage w)) eqn:Eex;
      [exact Hw |].
    destruct Hw as (Hid & Hkey & Hrows). unfold usage_schema.
    cbn [negb orb snd user_usage with_usage]. rewrite !map_app.
    cbn [map g_id usage_key g_user_id feature_type].
    split; [apply NoDup_snoc; [exact Hid | apply mem_string_In, Eid] |].
    split; [apply NoDup_snoc; [exact Hkey | apply no_match_no_key, Eex] |].
    apply Forall_app. split; [exact Hrows |].
    constructor; [| constructor]. cbn [feature_type usage_count].
    split; [exact Eft | lia].
  - destruct Hw as (Hid & Hkey & Hrows). unfold usage_schema.
    cbn [user_usage with_usage]. rewrite !map_map.
    assert (E1 : forall g : UsageRow,
               g_id (if g_user_id g ==? userId
                     then mkUsage (g_id g) (g_user_id g) (feature_type g) 0
                            (db_clock w) (g_created_at g) (db_clock w)
                     else g) = g_id g)
      by (intros g; destruct (g_user_id g ==? userId); reflexivity).
    assert (E2 : forall g : UsageRow,
               usage_key (if g_user_id g ==? userId
                          then mkUsage (g_id g) (g_user_id g) (feature_type g) 0
                                 (db_clock w) (g_created_at g) (db_clock w)
                          else g) = usage_key g)
      by (intros g; destruct (g_user_id g ==? userId); reflexivity).
    rewrite (map_ext _ _ E1), (map_ext _ _ E2).
    split; [exact Hid | split; [exact Hkey |]].
    apply Forall_forall. intros g Hin. apply in_map_iff in Hin.
    destruct Hin as (g0 & <- & Hin0).
    rewrite Forall_forall in Hrows. specialize (Hrows g0 Hin0).
    destruct (g_user_id g0 ==? userId); [| exact Hrows].
    cbn [feature_type usage_count]. split; [apply Hrows | lia].
Qed.

Lemma exec_usage_schema (X : Type) (q : Sql X) (w : World) :
  any_statement X q -> usage_schema w -> usage_schema (snd (exec q w)).
Proof.
  intros _ Hw. unfold exec. destruct (faults w) as [| [|] rest].
  - apply exec_sql_usage_schema, Hw.
  - exact Hw.
  - apply exec_sql_usage_schema. exact Hw.
Qed.

Lemma NoDup_map_filter {T K : Type} (key : T -> K) (p : T -> bool) (l : list T) :
  NoDup (map key l) -> NoDup (map key (filter p l)).
Proof.
  induction l as [| x rest IH]; simpl; intros H; [constructor |].
  inversion H as [| k ks Hx Hrest]; subst.
  destruct (p x); simpl; [| apply IH, Hrest].
  constructor; [| apply IH, Hrest].
  intros Hin. apply Hx. apply in_map_iff in Hin. destruct Hin as (y & Hy & Hiny).
  apply filter_In in Hiny. apply in_map_iff. exists y. split; [exact Hy | apply Hiny].
Qed.

Lemma mem_string_true_In (s : string) (l : list string) :
  mem_string s l = true -> In s l.
Proof.
  unfold mem_string. intros H. apply existsb_exists in H.
  destruct H as (x & Hin & Heq). apply String.eqb_eq in Heq. subst x. exact Hin.
Qed.

(** Under the schema a user has at most four counters. *)
Lemma at_most_four_counters (w : World) (userId : string) :
  usage_schema w -> (List.length (usage_of w userId) <= 4)%nat.
Proof.
  intros (_ & Hkey & Hrows). unfold usage_of.
  set (mine := filter (fun r => g_user_id r ==? userId) (user_usage w)).
  assert (Hnd : NoDup (map feature_type mine)).
  { pose proof (NoDup_map_filter usage_key (fun r => g_user_id r ==? userId) _ Hkey) as H.
    fold mine in H.
    assert (Hk : map usage_key mine = map (fun f => (userId, f)) (map feature_type mine)).
    { rewrite map_map. apply map_ext_in. intros g Hg. unfold mine in Hg.
      apply filter_In in Hg. destruct Hg as [_ Hg]. apply String.eqb_eq in Hg.
      unfold usage_key. rewrite Hg. reflexivity. }
    rewrite Hk in H. apply NoDup_map_inv in H. exact H. }
  assert (Hincl : incl (map feature_type mine) feature_types).
  { intros f Hf. apply in_map_iff in Hf. destruct Hf as (g & <- & Hg).
    unfold mine in Hg. apply filter_In in Hg. destruct Hg as [Hg _].
    rewrite Forall_forall in Hrows. apply mem_string_true_In, (Hrows g Hg). }
  pose proof (NoDup_incl_length Hnd Hincl) as Hlen.
  rewrite length_map in Hlen. exact Hlen.
Qed.

(** X8. Whatever routes and handlers run, in whatever order and whatever fails,
    [user_usage] keeps its shape: row ids stay distinct, there is at most one
    row for a user and feature, every feature type is one of the four, and
    no count is negative; so no user ever has more than four counters. *)
Theorem usage_schema_is_kept :
  forall (A : Type) (t : Task A) (w : World),
    usage_schema w ->
    usage_schema (snd (run t w)) /\
    forall userId, (List.length (usage_of (snd (run t w)) userId) <= 4)%nat.
Proof.
  intros A t w Hw.
  assert (H : usage_schema (snd (run t w))).
  { revert Hw.
    apply (run_invariant any_statement usage_schema exec_usage_schema), issues_anything. }
  split; [exact H |]. intros userId. apply at_most_four_counters, H.
Qed.

(** Alice's first journal entry, one counter being stored already. *)
Lemma usage_schema_is_kept_witness :
  usage_schema one_left_world /\
  usage_schema (snd (run (increment request_2 "u-alice" "journal_entry") one_left_world)) /\
  forall userId,
    (List.length
       (usage_of (snd (run (increment request_2 "u-alice" "journal_entry") one_left_world))
          userId) <= 4)%nat.
Proof.
  assert (H : usage_schema one_left_world).
  { unfold usage_schema; simpl.
    repeat split; repeat constructor; simpl; try tauto; lia. }
  split; [exact H |].
  exact (usage_schema_is_kept _ (increment request_2 "u-alice" "journal_entry")
           one_left_world H).
Defined.

(** ** Events that resolve to nothing *)

(** A statement either fails in the driver or takes effect on the same
    tables. *)
Lemma exec_view {X : Type} (q : Sql X) (w : World) :
  exists w1,
    tables w1 = tables w /\
    (exec q w = (inl StorageFailure, w1) \/ exec q w = exec_sql q w1).
Proof.
  unfold exec. destruct (faults w) as [| [|] rest].
  - exists w. split; [reflexivity | right; reflexivity].
  - exists (with_faults rest w). split; [reflexivity | left; reflexivity].
  - exists (with_faults rest w). split; [reflexivity | right; reflexivity].
Qed.

Lemma tables_subscriptions (w1 w : World) :
  tables w1 = tables w -> user_subscriptions w1 = user_subscriptions w.
Proof. unfold tables. intros H. inversion H. reflexivity. Qed.

Lemma tables_users (w1 w : World) : tables w1 = tables w -> users w1 = users w.
Proof. unfold tables. intros H. inversion H. reflexivity. Qed.

(** An UPDATE whose WHERE selects no row changes nothing, whatever it
    binds. *)
Lemma update_where_unmatched (sel : SubscriptionRow -> bool)
  (data : list SubscriptionField) (rows : list SubscriptionRow) :
  find sel rows = None -> update_where sel data rows = Some (rows, O).
Proof.
  induction rows as [| r rest IH]; simpl; [reflexivity |].
  destruct (sel r) eqn:E; [discriminate |]. intros H. rewrite (IH H). reflexivity.
Qed.

Lemma run_update_unmatched (sel : SubscriptionRow -> bool)
  (data : list SubscriptionField) (w : World) :
  find sel (user_subscriptions w) = None ->
  snd (run_update sel data w) = w.
Proof.
  intros H. unfold run_update. rewrite (update_where_unmatched sel data _ H).
  destruct (unique_stripe_ids (user_subscriptions w)); [| reflexivity].
  apply with_subscriptions_same.
Qed.

Lemma find_null_reference (rows : list SubscriptionRow) :
  find (fun r => sql_eq (stripe_subscription_id r) None) rows = None.
Proof.
  induction rows as [| r rest IH]; simpl; [reflexivity |].
  destruct (stripe_subscription_id r); exact IH.
Qed.

(** The UPDATE by a reference that names nothing, failed or not. *)
Lemma exec_update_unmatched (sid : option string) (data : list SubscriptionField)
  (w : World) :
  find (fun r => sql_eq (stripe_subscription_id r) sid) (user_subscriptions w) = None ->
  tables (snd (exec (UpdateSubscriptionByStripeId sid data) w)) = tables w.
Proof.
  intros H. destruct (exec_view (UpdateSubscriptionByStripeId sid data) w)
    as (w1 & Ht & [E | E]); rewrite E; [exact Ht |].
  cbn [exec_sql]. rewrite run_update_unmatched; [exact Ht |].
  rewrite (tables_subscriptions _ _ Ht). exact H.
Qed.

(** The lookup by a reference that names nothing, failed or not. *)
Lemma exec_select_unmatched (sid : option string) (w : World) :
  find (fun r => sql_eq (stripe_subscription_id r) sid) (user_subscriptions w) = None ->
  tables (snd (exec (SelectSubscriptionByStripeId sid) w)) = tables w /\
  (fst (exec (SelectSubscriptionByStripeId sid) w) = inr None \/
   exists e, fst (exec (SelectSubscriptionByStripeId sid) w) = inl e).
Proof.
  intros H. destruct (exec_view (SelectSubscriptionByStripeId sid) w)
    as (w1 & Ht & [E | E]); rewrite E.
  - split; [exact Ht | right; eexists; reflexivity].
  - cbn [exec_sql fst snd]. rewrite (tables_subscriptions _ _ Ht), H.
    split; [exact Ht | left; reflexivity].
Qed.

Lemma single_update_unmatched (sid : option string) (data : list SubscriptionField)
  (w : World) :
  find (fun r => sql_eq (stripe_subscription_id r) sid) (user_subscriptions w) = None ->
  tables (snd (run (try_catch
                      (updateSubscriptionByStripeId sid data ;;; Return tt)
                      (fun _ => Return tt)) w)) = tables w.
Proof.
  intros H. unfold updateSubscriptionByStripeId.
  cbn [run try_catch bind await].
  pose proof (exec_update_unmatched sid data w H) as Ht.
  destruct (exec (UpdateSubscriptionByStripeId sid data) w) as [[e | n] w1];
    cbn [run try_catch bind snd] in *; exact Ht.
Qed.

(** X9. A billing event that resolves to nothing stored is dropped: whatever the
    driver fails, every table is afterwards what it was.  This covers a
    checkout without an email or for an unknown email, subscription and
    invoice events whose reference names no Subscription (a null reference
    names none), and event types the endpoint does not handle. *)
Theorem unresolved_events_change_nothing :
  forall (rt : Runtime) (event : StripeEvent) (w : World),
    unresolved event w ->
    tables (snd (run (webhook rt (Some event)) w)) = tables w.
Proof.
  intros rt event w Hun. rewrite webhook_world.
  destruct event as [session | sub | sub | sub | invoice | invoice | ty];
    cbn [handle unresolved] in *.
  - unfold handleCheckoutCompleted.
    destruct (customer_details_email session) as [email |]; [| reflexivity].
    destruct (email ==? "") eqn:Ee; [reflexivity |].
    destruct Hun as [-> | Hun]; [discriminate Ee |].
    unfold getUserByEmail. cbn [run try_catch bind await].
    destruct (exec_view (SelectUserByEmail email) w) as (w1 & Ht & [E | E]); rewrite E.
    + exact Ht.
    + cbn [exec_sql]. rewrite (tables_users _ _ Ht), Hun. exact Ht.
  - unfold handleSubscriptionChange, toISOString.
    destruct (to_number (sub_current_period_start sub)) as [ps |]; [| reflexivity].
    destruct (Z.abs (ps * 1000) <=? 8640000000000000); [| reflexivity].
    destruct (to_number (sub_current_period_end sub)) as [pe |]; [| reflexivity].
    destruct (Z.abs (pe * 1000) <=? 8640000000000000); [| reflexivity].
    cbn [bind]. apply single_update_unmatched, Hun.
  - unfold handleSubscriptionChange, toISOString.
    destruct (to_number (sub_current_period_start sub)) as [ps |]; [| reflexivity].
    destruct (Z.abs (ps * 1000) <=? 8640000000000000); [| reflexivity].
    destruct (to_number (sub_current_period_end sub)) as [pe |]; [| reflexivity].
    destruct (Z.abs (pe * 1000) <=? 8640000000000000); [| reflexivity].
    cbn [bind]. apply single_update_unmatched, Hun.
  - unfold handleSubscriptionDeleted. apply single_update_unmatched, Hun.
  - assert (Hnone : find (fun r => sql_eq (stripe_subscription_id r)
                                     (invoice_subscription invoice))
                      (user_subscriptions w) = None).
    { destruct (invoice_subscription invoice); [exact Hun | apply find_null_reference]. }
    unfold handlePaymentSucceeded, updateSubscriptionByStripeId, getSubscriptionByStripeId.
    cbn [run try_catch bind await].
    pose proof (exec_update_unmatched (invoice_subscription invoice)
                  [set_last_payment_date (date_now rt); set_payment_status PayActive;
                   set_updated_at (date_now rt)] w Hnone) as Ht.
    destruct (exec (UpdateSubscriptionByStripeId _ _) w) as [[e | n] w1];
      cbn [run try_catch bind snd] in *; [exact Ht |].
    assert (Hnone1 : find (fun r => sql_eq (stripe_subscription_id r)
                                        (invoice_subscription invoice))
                       (user_subscriptions w1) = None)
      by (rewrite (tables_subscriptions _ _ Ht); exact Hnone).
    destruct (exec_select_unmatched _ w1 Hnone1) as (Ht1 & Hr).
    destruct (exec (SelectSubscriptionByStripeId _) w1) as [r w2].
    cbn [fst snd] in *. rewrite <- Ht, <- Ht1.
    destruct Hr as [-> | [e ->]]; reflexivity.
  - assert (Hnone : find (fun r => sql_eq (stripe_subscription_id r)
                                     (invoice_subscription invoice))
                      (user_subscriptions w) = None).
    { destruct (invoice_subscription invoice); [exact Hun | apply find_null_reference]. }
    unfold handlePaymentFailed. apply single_update_unmatched, Hnone.
  - reflexivity.
Qed.

(** An update for a subscription that no checkout has stored. *)
Lemma unresolved_events_change_nothing_witness :
  unresolved (customer_subscription_updated alice_pro) signup_world /\
  tables (snd (run (webhook request_1 (Some (customer_subscription_updated alice_pro)))
                 signup_world)) = tables signup_world.
Proof.
  assert (H : unresolved (customer_subscription_updated alice_pro) signup_world)
    by reflexivity.
  split; [exact H |].
  exact (unresolved_events_change_nothing request_1
           (customer_subscription_updated alice_pro) signup_world H).
Defined.

(** ** PaymentFailed *)

(** [handlePaymentFailed] for a reference, on a database that does not fail
    and whose references are unique: one UPDATE of the rows it names. *)
Lemma payment_failed_run (rt : Runtime) (invoice : Invoice) (w : World) :
  faults w = [] ->
  schema_unique w ->
  run (handlePaymentFailed rt invoice) w =
  (inr tt,
   with_subscriptions
     (map (fun x => if named_by (invoice_subscription invoice) x
                    then failed_at (date_now rt) x else x)
        (user_subscriptions w)) w).
Proof.
  intros Hf Hu. unfold handlePaymentFailed.
  rewrite run_try_catch, run_bind.
  unfold updateSubscriptionByStripeId. rewrite run_await, exec_no_fault by exact Hf.
  cbn [exec_sql].
  rewrite (run_update_total _ _ (failed_at (date_now rt))); auto.
Qed.

Lemma resolved_tier_after_rewrite (g : SubscriptionRow -> SubscriptionRow)
  (rows : list SubscriptionRow) (userId : string) :
  (forall r, tier_entry (g r) = tier_entry r) ->
  planType_of (find (fun r => s_user_id r ==? userId) (map g rows)) =
  planType_of (find (fun r => s_user_id r ==? userId) rows).
Proof.
  intros Hg. induction rows as [| r rest IH]; simpl; [reflexivity |].
  pose proof (Hg r) as Hr. unfold tier_entry in Hr. inversion Hr as [[Hu Hp]].
  rewrite Hu. destruct (s_user_id r ==? userId); [simpl; exact Hp | exact IH].
Qed.

(** X10. A PaymentFailed event whose reference names a stored Subscription, on a
    database that does not fail: the Subscription's payment status becomes
    failed, and that is all.  Its status, plan tier, period and last payment
    date stay, no counter is reset, and every user resolves to the same
    tier as before: a failed payment alone takes no quota away. *)
Theorem payment_failed_only_marks_payment :
  forall (rt : Runtime) (invoice : Invoice) (ref : string) (w : World)
         (r : SubscriptionRow),
    invoice_subscription invoice = Some ref ->
    faults w = [] ->
    schema_unique w ->
    subscription_by_ref w ref = Some r ->
    let w' := deliver [(rt, invoice_payment_failed invoice)] w in
    subscription_by_ref w' ref = Some (failed_at (date_now rt) r) /\
    user_subscriptions w' =
      map (fun x => if named_by (Some ref) x then failed_at (date_now rt) x else x)
        (user_subscriptions w) /\
    user_usage w' = user_usage w /\
    (forall userId,
       planType_of (subscription_of w' userId) = planType_of (subscription_of w userId)).
Proof.
  intros rt invoice ref w r Hi Hf Hu Hr w'.
  assert (E : w' =
    with_subscriptions
      (map (fun x => if named_by (Some ref) x then failed_at (date_now rt) x else x)
         (user_subscriptions w)) w).
  { unfold w'. cbn [deliver]. rewrite webhook_world. cbn [handle].
    rewrite (payment_failed_run rt invoice w Hf Hu), Hi. reflexivity. }
  rewrite E. cbn [user_subscriptions user_usage with_subscriptions].
  split; [| split; [reflexivity | split; [reflexivity |]]].
  - unfold subscription_by_ref in *. cbn [user_subscriptions with_subscriptions].
    change (fun x => sql_eq (stripe_subscription_id x) (Some ref))
      with (named_by (Some ref)) in *.
    rewrite changed_lookup by reflexivity. rewrite Hr. reflexivity.
  - intros userId. unfold subscription_of. cbn [user_subscriptions with_subscriptions].
    apply resolved_tier_after_rewrite.
    intros x. destruct (named_by (Some ref) x); reflexivity.
Qed.

(** A failed payment on Alice's subscription. *)
Lemma payment_failed_only_marks_payment_witness :
  exists r,
    subscription_by_ref subscribed_world "sub_1" = Some r /\
    subscription_by_ref
      (deliver [(request_2, invoice_payment_failed alice_invoice)] subscribed_world)
      "sub_1" = Some (failed_at (date_now request_2) r) /\
    forall userId,
      planType_of
        (subscription_of
           (deliver [(request_2, invoice_payment_failed alice_invoice)] subscribed_world)
           userId) =
      planType_of (subscription_of subscribed_world userId).
Proof.
  assert (Hr : exists r, subscription_by_ref subscribed_world "sub_1" = Some r).
  { eexists; vm_compute; reflexivity. }
  destruct Hr as (r & Hr). exists r. split; [exact Hr |].
  destruct (payment_failed_only_marks_payment request_2 alice_invoice "sub_1"
              subscribed_world r eq_refl eq_refl eq_refl Hr) as (H1 & _ & _ & H4).
  split; [exact H1 | exact H4].
Defined.

(** ** What the handlers never write *)

Lemma exec_spares_usage (w0 : World) (X : Type) (q : Sql X) (w : World) :
  spares_usage X q -> user_usage w = user_usage w0 ->
  user_usage (snd (exec q w)) = user_usage w0.
Proof.
  intros Hq Hw. unfold exec.
  assert (Hsql : forall w1, user_usage w1 = user_usage w0 ->
                            user_usage (snd (exec_sql q w1)) = user_usage w0).
  { intros w1 H1. destruct q; cbn [exec_sql snd spares_usage] in *;
      try contradiction; try exact H1.
    - unfold run_update. destruct (update_where _ _ _) as [[rows' n] |]; [| exact H1].
      destruct (unique_stripe_ids rows'); exact H1.
    - destruct (mem_string id (map s_id (user_subscriptions w1))); [exact H1 |].
      destruct (assign_all data _) as [r |]; [| exact H1].
      destruct (unique_stripe_ids _); exact H1.
    - unfold run_update. destruct (update_where _ _ _) as [[rows' n] |]; [| exact H1].
      destruct (unique_stripe_ids rows'); exact H1. }
  destruct (faults w) as [| [|] rest]; [apply Hsql, Hw | exact Hw | apply Hsql, Hw].
Qed.

Lemma handle_spares_usage (rt : Runtime) (event : StripeEvent) :
  resets_usage event = false -> issues_only spares_usage (handle rt event).
Proof.
  intros Hc. destruct event as [session | sub | sub | sub | invoice | invoice | ty];
    cbn [handle resets_usage] in *; try discriminate Hc;
    unfold handleCheckoutCompleted, handleSubscriptionChange, handleSubscriptionDeleted,
      handlePaymentFailed;
    unfold_database;
    issues ltac:(cbn [spares_usage]).
Qed.

Lemma kept_or_reset_rows (l0 l : list UsageRow) (g : UsageRow -> UsageRow) :
  (forall r, kept_or_reset r (g r)) ->
  Forall2 kept_or_reset l0 l -> Forall2 kept_or_reset l0 (map g l).
Proof.
  intros Hg H. induction H as [| r0 r l0 l Hr _ IH]; simpl; constructor; [| exact IH].
  destruct Hr as [Hid Hc]. destruct (Hg r) as [Hid' Hc']. split.
  - rewrite Hid'. exact Hid.
  - destruct Hc' as [Hc' | Hc']; [rewrite Hc'; exact Hc | right; exact Hc'].
Qed.

Lemma kept_or_reset_same (l : list UsageRow) : Forall2 kept_or_reset l l.
Proof. induction l; constructor; [split; auto | assumption]. Qed.

Lemma exec_no_counting (w0 : World) (X : Type) (q : Sql X) (w : World) :
  no_counting X q ->
  Forall2 kept_or_reset (user_usage w0) (user_usage w) ->
  Forall2 kept_or_reset (user_usage w0) (user_usage (snd (exec q w))).
Proof.
  intros Hq Hw. unfold exec.
  assert (Hsql : forall w1, user_usage w1 = user_usage w ->
                            Forall2 kept_or_reset (user_usage w0)
                              (user_usage (snd (exec_sql q w1)))).
  { intros w1 H1. rewrite <- H1 in Hw.
    destruct q; cbn [exec_sql snd no_counting] in *;
      try contradiction; try exact Hw.
    - unfold run_update. destruct (update_where _ _ _) as [[rows' n] |]; [| exact Hw].
      destruct (unique_stripe_ids rows'); exact Hw.
    - destruct (mem_string id (map s_id (user_subscriptions w1))); [exact Hw |].
      destruct (assign_all data _) as [r |]; [| exact Hw].
      destruct (unique_stripe_ids _); exact Hw.
    - unfold run_update. destruct (update_where _ _ _) as [[rows' n] |]; [| exact Hw].
      destruct (unique_stripe_ids rows'); exact Hw.
    - cbn [user_usage with_usage].
      apply kept_or_reset_rows; [| exact Hw].
      intros r. destruct (g_user_id r ==? userId); split; auto. }
  destruct (faults w) as [| [|] rest]; [apply Hsql | exact Hw | apply Hsql]; reflexivity.
Qed.

Lemma handle_no_counting (rt : Runtime) (event : StripeEvent) :
  issues_only no_counting (handle rt event).
Proof.
  destruct event as [session | sub | sub | sub | invoice | invoice | ty];
    cbn [handle];
    unfold handleCheckoutCompleted, handleSubscriptionChange, handleSubscriptionDeleted,
      handlePaymentSucceeded, handlePaymentFailed;
    unfold_database;
    issues ltac:(cbn [no_counting]).
Qed.

(** X11. No billing event uses up quota or makes a counter: whatever the driver
    fails, after an event every counter row is the row it was (same id,
    user, feature and creation date, none added, none removed) and holds
    the count it had or 0; and after any event but PaymentSucceeded the
    table [user_usage] is exactly what it was. *)
Theorem events_never_raise_a_count :
  forall (rt : Runtime) (event : StripeEvent) (w : World),
    Forall2 kept_or_reset (user_usage w)
      (user_usage (snd (run (webhook rt (Some event)) w))) /\
    (resets_usage event = false ->
     user_usage (snd (run (webhook rt (Some event)) w)) = user_usage w).
Proof.
  intros rt event w. rewrite webhook_world. split.
  - apply (run_invariant no_counting
             (fun w' => Forall2 kept_or_reset (user_usage w) (user_usage w'))
             (exec_no_counting w));
      [apply handle_no_counting | apply kept_or_reset_same].
  - intros Hc.
    apply (run_invariant spares_usage (fun w' => user_usage w' = user_usage w)
             (exec_spares_usage w));
      [apply handle_spares_usage, Hc | reflexivity].
Qed.

(** ** One Subscription for each user *)

(** No entry of a [subscriptionData] object names [user_id]. *)
Lemma assign_all_owner (data : list SubscriptionField) :
  forall r r', assign_all data r = Some r' -> s_user_id r' = s_user_id r.
Proof.
  induction data as [| f rest IH]; intros r r' H; simpl in H.
  - inversion H. reflexivity.
  - destruct (assign f r) as [r1 |] eqn:E; [| discriminate].
    rewrite (IH r1 r' H). destruct f; simpl in E;
      try (inversion E; reflexivity).
    destruct (status_of_text v); [inversion E; reflexivity | discriminate].
Qed.

Lemma update_where_owners (sel : SubscriptionRow -> bool) (data : list SubscriptionField) :
  forall rows rows' n,
    update_where sel data rows = Some (rows', n) ->
    map s_user_id rows' = map s_user_id rows.
Proof.
  induction rows as [| x rest IH]; intros rows' n Hup; simpl in Hup.
  - inversion Hup; reflexivity.
  - destruct (update_where sel data rest) as [[rest' m] |] eqn:E; [| discriminate].
    specialize (IH rest' m eq_refl). destruct (sel x).
    + destruct (assign_all data x) as [x' |] eqn:Ex; [| discriminate].
      inversion Hup; subst. simpl. rewrite IH, (assign_all_owner data x x' Ex). reflexivity.
    + inversion Hup; subst. simpl. rewrite IH. reflexivity.
Qed.

Lemma exec_sql_no_insert {X : Type} (q : Sql X) (w : World) :
  no_insert X q ->
  map s_user_id (user_subscriptions (snd (exec_sql q w))) =
  map s_user_id (user_subscriptions w).
Proof.
  intros Hq. destruct q; cbn [exec_sql snd no_insert] in *;
    try contradiction; try reflexivity.
  - unfold run_update.
    destruct (update_where _ _ _) as [[rows' n] |] eqn:E; [| reflexivity].
    destruct (unique_stripe_ids rows'); [| reflexivity].
    apply (update_where_owners _ _ _ _ _ E).
  - unfold run_update.
    destruct (update_where _ _ _) as [[rows' n] |] eqn:E; [| reflexivity].
    destruct (unique_stripe_ids rows'); [| reflexivity].
    apply (update_where_owners _ _ _ _ _ E).
  - destruct (_ || _ || _); reflexivity.
Qed.

Lemma exec_no_insert (X : Type) (q : Sql X) (w : World) :
  no_insert X q -> one_subscription_each w -> one_subscription_each (snd (exec q w)).
Proof.
  intros Hq Hw. unfold exec, one_subscription_each in *.
  destruct (faults w) as [| [|] rest].
  - rewrite exec_sql_no_insert by exact Hq. exact Hw.
  - exact Hw.
  - rewrite exec_sql_no_insert by exact Hq. exact Hw.
Qed.

Lemma find_none_not_owner (userId : string) (rows : list SubscriptionRow) :
  find (fun r => s_user_id r ==? userId) rows = None ->
  ~ In userId (map s_user_id rows).
Proof.
  intros H Hin. apply in_map_iff in Hin. destruct Hin as (r & Hr & Hinr).
  pose proof (find_none _ _ H r Hinr) as Hno. cbv beta in Hno.
  rewrite Hr, String.eqb_refl in Hno. discriminate Hno.
Qed.

(** [updateUserSubscription], called alone: it inserts only after its lookup
    found no row of the user, so it never gives a user a second row. *)
Lemma updateUserSubscription_one_each (rt : Runtime) (userId : string)
  (data : list SubscriptionField) (w : World) :
  one_subscription_each w ->
  one_subscription_each (snd (run (updateUserSubscription rt userId data) w)).
Proof.
  intros Hw. unfold updateUserSubscription. rewrite run_bind, run_await.
  destruct (exec_view (SelectSubscriptionByUser userId) w) as (w1 & Ht & [E | E]);
    rewrite E.
  - cbn [snd]. unfold one_subscription_each.
    rewrite (tables_subscriptions _ _ Ht). exact Hw.
  - cbn [exec_sql].
    assert (Hw1 : one_subscription_each w1)
      by (unfold one_subscription_each; rewrite (tables_subscriptions _ _ Ht); exact Hw).
    destruct (find _ (user_subscriptions w1)) as [existing |] eqn:Ef.
    + rewrite run_await. apply exec_no_insert; [exact I | exact Hw1].
    + rewrite run_await.
      destruct (exec_view (InsertSubscription (uuidv4 rt) userId data) w1)
        as (w2 & Ht2 & [E2 | E2]); rewrite E2.
      * cbn [snd]. unfold one_subscription_each.
        rewrite (tables_subscriptions _ _ Ht2). exact Hw1.
      * assert (Hw2 : one_subscription_each w2)
          by (unfold one_subscription_each; rewrite (tables_subscriptions _ _ Ht2);
              exact Hw1).
        assert (Ef2 : find (fun r => s_user_id r ==? userId) (user_subscriptions w2) = None)
          by (rewrite (tables_subscriptions _ _ Ht2); exact Ef).
        cbn [exec_sql].
        destruct (mem_string (uuidv4 rt) (map s_id (user_subscriptions w2)));
          [exact Hw2 |].
        destruct (assign_all data _) as [r |] eqn:Er; [| exact Hw2].
        destruct (unique_stripe_ids _); [| exact Hw2].
        cbn [snd]. unfold one_subscription_each.
        cbn [user_subscriptions with_subscriptions]. rewrite map_app.
        cbn [map]. rewrite (assign_all_owner data _ r Er).
        cbn [s_user_id default_subscription].
        apply NoDup_snoc; [exact Hw2 | apply find_none_not_owner, Ef2].
Qed.

Lemma handle_no_insert (rt : Runtime) (event : StripeEvent) :
  (forall session, event <> checkout_session_completed session) ->
  issues_only no_insert (handle rt event).
Proof.
  intros Hc. destruct event as [session | sub | sub | sub | invoice | invoice | ty];
    cbn [handle];
    try (exfalso; apply (Hc session); reflexivity);
    unfold handleSubscriptionChange, handleSubscriptionDeleted,
      handlePaymentSucceeded, handlePaymentFailed;
    unfold_database;
    issues ltac:(cbn [no_insert]).
Qed.

Lemma handle_one_each (rt : Runtime) (event : StripeEvent) (w : World) :
  one_subscription_each w -> one_subscription_each (snd (run (handle rt event) w)).
Proof.
  intros Hw. destruct event as [session | sub | sub | sub | invoice | invoice | ty];
    try (apply (run_invariant no_insert one_subscription_each exec_no_insert);
         [apply handle_no_insert; intros s; discriminate | exact Hw]).
  cbn [handle]. unfold handleCheckoutCompleted.
  destruct (customer_details_email session) as [email |]; [| exact Hw].
  destruct (email ==? ""); [exact Hw |].
  unfold getUserByEmail. rewrite run_try_catch, run_bind, run_await.
  destruct (exec_view (SelectUserByEmail email) w) as (w1 & Ht & [E | E]); rewrite E.
  - cbn [run snd]. unfold one_subscription_each.
    rewrite (tables_subscriptions _ _ Ht). exact Hw.
  - cbn [exec_sql].
    assert (Hw1 : one_subscription_each w1)
      by (unfold one_subscription_each; rewrite (tables_subscriptions _ _ Ht); exact Hw).
    destruct (find _ (users w1)) as [user |]; [| exact Hw1].
    rewrite run_bind.
    pose proof (updateUserSubscription_one_each rt (u_id user)
                  [set_stripe_customer_id (session_customer session);
                   set_stripe_subscription_id (session_subscription session);
                   set_status "active"; set_updated_at (date_now rt)] w1 Hw1) as H.
    destruct (run (updateUserSubscription rt (u_id user) _) w1) as [[e | n] w2];
      cbn [run snd] in *; exact H.
Qed.

(** X12. Billing events delivered one after another never give a user a second
    Subscription row, whatever the driver fails: a checkout creates a row
    only after finding none for the user, and no other handler creates
    rows.  (No constraint of the schema says so: [user_id] is not UNIQUE in
    [user_subscriptions].) *)
Theorem one_subscription_per_user_is_kept :
  forall (events : list (Runtime * StripeEvent)) (w : World),
    one_subscription_each w -> one_subscription_each (deliver events w).
Proof.
  induction events as [| [rt event] rest IH]; intros w Hw; [exact Hw |].
  cbn [deliver]. apply IH. rewrite webhook_world. apply handle_one_each, Hw.
Qed.

(** Alice's checkout, delivered twice. *)
Lemma one_subscription_per_user_is_kept_witness :
  one_subscription_each signup_world /\
  one_subscription_each
    (deliver [(request_1, checkout_session_completed alice_checkout);
              (request_2, checkout_session_completed alice_checkout)] signup_world).
Proof.
  assert (H : one_subscription_each signup_world) by constructor.
  split; [exact H |].
  exact (one_subscription_per_user_is_kept _ signup_world H).
Defined.

(** ** Replaying an event *)

(** A handler that is one UPDATE by reference, with entries that pass their
    CHECKs and leave the reference alone. *)
Lemma single_update_run (sid : option string) (data : list SubscriptionField)
  (g : SubscriptionRow -> SubscriptionRow) (w : World) :
  faults w = [] ->
  schema_unique w ->
  (forall r, assign_all data r = Some (g r)) ->
  (forall r, stripe_subscription_id (g r) = stripe_subscription_id r) ->
  run (try_catch (updateSubscriptionByStripeId sid data ;;; Return tt)
         (fun _ => Return tt)) w =
  (inr tt,
   with_subscriptions
     (map (fun r => if named_by sid r then g r else r) (user_subscriptions w)) w).
Proof.
  intros Hf Hu Hg Hid.
  rewrite run_try_catch, run_bind.
  unfold updateSubscriptionByStripeId. rewrite run_await, exec_no_fault by exact Hf.
  cbn [exec_sql]. rewrite (run_update_total _ _ g); auto.
Qed.

(** Rewriting the rows a reference names, twice, is rewriting them once when
    the rewriting is idempotent and keeps the reference. *)
Lemma named_rewrite_twice (sid : option string) (g : SubscriptionRow -> SubscriptionRow)
  (rows : list SubscriptionRow) :
  (forall r, stripe_subscription_id (g r) = stripe_subscription_id r) ->
  (forall r, g (g r) = g r) ->
  map (fun r => if named_by sid r then g r else r)
    (map (fun r => if named_by sid r then g r else r) rows) =
  map (fun r => if named_by sid r then g r else r) rows.
Proof.
  intros Hid Hg. rewrite map_map. apply map_ext. intros r.
  destruct (named_by sid r) eqn:E.
  - unfold named_by in *. rewrite Hid, E. apply Hg.
  - rewrite E. reflexivity.
Qed.

Lemma named_rewrite_unique (sid : option string) (g : SubscriptionRow -> SubscriptionRow)
  (w : World) :
  (forall r, stripe_subscription_id (g r) = stripe_subscription_id r) ->
  schema_unique w ->
  schema_unique
    (with_subscriptions
       (map (fun r => if named_by sid r then g r else r) (user_subscriptions w)) w).
Proof.
  intros Hid Hu. unfold schema_unique, unique_stripe_ids in *.
  cbn [user_subscriptions with_subscriptions]. rewrite stripe_ids_map; [exact Hu |].
  intros r. destruct (named_by sid r); [apply Hid | reflexivity].
Qed.

(** Such a handler, run twice, leaves what it leaves when run once. *)
Lemma single_update_twice (sid : option string) (data : list SubscriptionField)
  (g : SubscriptionRow -> SubscriptionRow) (w : World) :
  faults w = [] ->
  schema_unique w ->
  (forall r, assign_all data r = Some (g r)) ->
  (forall r, stripe_subscription_id (g r) = stripe_subscription_id r) ->
  (forall r, g (g r) = g r) ->
  let once := snd (run (try_catch (updateSubscriptionByStripeId sid data ;;; Return tt)
                          (fun _ => Return tt)) w) in
  snd (run (try_catch (updateSubscriptionByStripeId sid data ;;; Return tt)
              (fun _ => Return tt)) once) = once.
Proof.
  intros Hf Hu Hg Hid Hgg once. unfold once.
  rewrite (single_update_run sid data g w Hf Hu Hg Hid). cbn [snd].
  rewrite (single_update_run sid data g); auto.
  - cbn [snd user_subscriptions with_subscriptions].
    rewrite named_rewrite_twice by assumption. reflexivity.
  - apply named_rewrite_unique; assumption.
Qed.

Lemma single_update_rejected (sid : option string) (data : list SubscriptionField)
  (w : World) :
  faults w = [] ->
  (forall r, assign_all data r = None) ->
  snd (run (try_catch (updateSubscriptionByStripeId sid data ;;; Return tt)
              (fun _ => Return tt)) w) = w.
Proof.
  intros Hf Hno. rewrite run_try_catch, run_bind.
  unfold updateSubscriptionByStripeId. rewrite run_await, exec_no_fault by exact Hf.
  cbn [exec_sql].
  pose proof (run_update_rejected (fun r => sql_eq (stripe_subscription_id r) sid) data w Hno)
    as H.
  destruct (run_update _ data w) as [[e | n] w1]; cbn [run snd] in *; exact H.
Qed.

Lemma replay_deleted (rt : Runtime) (subscription : StripeSubscription) (w : World) :
  faults w = [] -> schema_unique w ->
  snd (run (handleSubscriptionDeleted rt subscription)
         (snd (run (handleSubscriptionDeleted rt subscription) w))) =
  snd (run (handleSubscriptionDeleted rt subscription) w).
Proof.
  intros Hf Hu. unfold handleSubscriptionDeleted.
  apply (single_update_twice _ _ (canceled_at (date_now rt))); auto.
Qed.

Lemma replay_failed (rt : Runtime) (invoice : Invoice) (w : World) :
  faults w = [] -> schema_unique w ->
  snd (run (handlePaymentFailed rt invoice)
         (snd (run (handlePaymentFailed rt invoice) w))) =
  snd (run (handlePaymentFailed rt invoice) w).
Proof.
  intros Hf Hu. unfold handlePaymentFailed.
  apply (single_update_twice _ _ (failed_at (date_now rt))); auto.
Qed.

Lemma replay_changed (rt : Runtime) (subscription : StripeSubscription) (w : World) :
  faults w = [] -> schema_unique w ->
  snd (run (handleSubscriptionChange rt subscription)
         (snd (run (handleSubscriptionChange rt subscription) w))) =
  snd (run (handleSubscriptionChange rt subscription) w).
Proof.
  intros Hf Hu. unfold handleSubscriptionChange, toISOString.
  destruct (to_number (sub_current_period_start subscription)) as [ps |]; [| reflexivity].
  destruct (Z.abs (ps * 1000) <=? 8640000000000000); [| reflexivity].
  destruct (to_number (sub_current_period_end subscription)) as [pe |]; [| reflexivity].
  destruct (Z.abs (pe * 1000) <=? 8640000000000000); [| reflexivity].
  cbn [bind].
  destruct (status_of_text (sub_status subscription)) as [st |] eqn:Est.
  - apply (single_update_twice _ _
             (changed_to st (planType_of_amount (sub_unit_amount subscription))
                (ps * 1000) (pe * 1000) (date_now rt))); auto.
    intros r. simpl. rewrite Est. reflexivity.
  - assert (Hno : forall r,
               assign_all
                 [set_status (sub_status subscription);
                  set_plan_type (planType_of_amount (sub_unit_amount subscription));
                  set_current_period_start (ps * 1000);
                  set_current_period_end (pe * 1000);
                  set_updated_at (date_now rt)] r = None)
      by (intros r; simpl; rewrite Est; reflexivity).
    rewrite (single_update_rejected _ _ w Hf Hno).
    apply (single_update_rejected _ _ w Hf Hno).
Qed.

(** [handlePaymentSucceeded] for any invoice, on a database that does not
    fail and whose references are unique. *)
Lemma payment_succeeded_run_any (rt : Runtime) (invoice : Invoice) (w : World) :
  faults w = [] -> schema_unique w ->
  snd (run (handlePaymentSucceeded rt invoice) w) =
  (let paid :=
     with_subscriptions
       (map (fun x => if named_by (invoice_subscription invoice) x
                      then paid_at (date_now rt) x else x)
          (user_subscriptions w)) w in
   match find (named_by (invoice_subscription invoice)) (user_subscriptions w) with
   | Some r => with_usage (map (zeroed (db_clock w) (s_user_id r)) (user_usage w)) paid
   | None => paid
   end).
Proof.
  intros Hf Hu. unfold handlePaymentSucceeded.
  rewrite run_try_catch, run_bind.
  unfold updateSubscriptionByStripeId. rewrite run_await, exec_no_fault by exact Hf.
  cbn [exec_sql].
  rewrite (run_update_total _ _ (paid_at (date_now rt))); auto.
  rewrite run_bind. unfold getSubscriptionByStripeId.
  rewrite run_await, exec_no_fault by exact Hf. cbn [exec_sql].
  cbn [user_subscriptions with_subscriptions].
  change (fun x => sql_eq (stripe_subscription_id x) (invoice_subscription invoice))
    with (named_by (invoice_subscription invoice)).
  rewrite (find_map_preserved (named_by (invoice_subscription invoice))).
  - destruct (find (named_by (invoice_subscription invoice)) (user_subscriptions w))
      as [r |] eqn:Er; cbn [option_map]; [| reflexivity].
    apply find_some in Er. destruct Er as [_ Er]. unfold named_by in *. rewrite Er.
    rewrite run_bind. unfold resetUserUsage.
    rewrite run_await, exec_no_fault by exact Hf. reflexivity.
  - intros x. unfold named_by.
    destruct (sql_eq (stripe_subscription_id x) (invoice_subscription invoice)) eqn:Ex;
      exact Ex.
Qed.

Lemma zeroed_twice (clock : Timestamp) (userId : string) (rows : list UsageRow) :
  map (zeroed clock userId) (map (zeroed clock userId) rows) =
  map (zeroed clock userId) rows.
Proof.
  rewrite map_map. apply map_ext. intros g. unfold zeroed.
  destruct (g_user_id g ==? userId) eqn:E; [| rewrite E; reflexivity].
  cbn [g_user_id]. rewrite E. reflexivity.
Qed.

Lemma replay_succeeded (rt : Runtime) (invoice : Invoice) (w : World) :
  faults w = [] -> schema_unique w ->
  snd (run (handlePaymentSucceeded rt invoice)
         (snd (run (handlePaymentSucceeded rt invoice) w))) =
  snd (run (handlePaymentSucceeded rt invoice) w).
Proof.
  intros Hf Hu.
  rewrite (payment_succeeded_run_any rt invoice w Hf Hu). cbv zeta.
  set (sid := invoice_subscription invoice).
  set (G := fun x => if named_by sid x then paid_at (date_now rt) x else x).
  assert (Hfind : find (named_by sid) (map G (user_subscriptions w)) =
                  option_map G (find (named_by sid) (user_subscriptions w))).
  { apply find_map_preserved. intros x. unfold G.
    destruct (named_by sid x) eqn:Ex; [| exact Ex]. unfold named_by in *. exact Ex. }
  assert (HG : map G (map G (user_subscriptions w)) = map G (user_subscriptions w))
    by (apply named_rewrite_twice; reflexivity).
  destruct (find (named_by sid) (user_subscriptions w)) as [r |] eqn:Er.
  - rewrite payment_succeeded_run_any.
    + cbv zeta. cbn [user_subscriptions user_usage db_clock with_usage with_subscriptions].
      fold sid. fold G. rewrite Hfind, HG. cbn [option_map].
      assert (Hown : s_user_id (G r) = s_user_id r)
        by (unfold G; destruct (named_by sid r); reflexivity).
      rewrite Hown, zeroed_twice. reflexivity.
    + exact Hf.
    + apply (named_rewrite_unique sid (paid_at (date_now rt)) w); [reflexivity | exact Hu].
  - rewrite payment_succeeded_run_any.
    + cbv zeta. cbn [user_subscriptions user_usage db_clock with_usage with_subscriptions].
      fold sid. fold G. rewrite Hfind, HG. reflexivity.
    + exact Hf.
    + apply (named_rewrite_unique sid (paid_at (date_now rt)) w); [reflexivity | exact Hu].
Qed.

Lemma checkout_run (rt : Runtime) (session : CheckoutSession) (w : World) :
  faults w = [] ->
  snd (run (handleCheckoutCompleted rt session) w) = checkout_world rt session w.
Proof.
  intros Hf. unfold handleCheckoutCompleted, checkout_world.
  destruct (customer_details_email session) as [email |]; [| reflexivity].
  destruct (email ==? ""); [reflexivity |].
  unfold getUserByEmail. rewrite run_try_catch, run_bind, run_await.
  rewrite exec_no_fault by exact Hf. cbn [exec_sql].
  destruct (find (fun u => u_email u ==? email) (users w)) as [user |]; [| reflexivity].
  rewrite run_bind. unfold updateUserSubscription.
  rewrite run_bind, run_await, exec_no_fault by exact Hf. cbn [exec_sql].
  destruct (find (fun r => s_user_id r ==? u_id user) (user_subscriptions w))
    as [existing |].
  - rewrite run_await, exec_no_fault by exact Hf. cbn [exec_sql]. unfold run_update.
    rewrite (update_where_total _ _
               (checked_out (session_customer session) (session_subscription session)
                  (date_now rt))) by reflexivity.
    cbv zeta. unfold checked_out_rows.
    destruct (unique_stripe_ids _); reflexivity.
  - rewrite run_await, exec_no_fault by exact Hf.
    cbn [exec_sql assign_all assign].
    change (status_of_text "active") with (Some StActive). cbv iota zeta.
    destruct (mem_string (uuidv4 rt) (map s_id (user_subscriptions w))); [reflexivity |].
    unfold checked_out. cbn [s_id s_user_id stripe_customer_id stripe_subscription_id
      status plan_type current_period_start current_period_end last_payment_date
      payment_status s_created_at s_updated_at default_subscription].
    destruct (unique_stripe_ids _); reflexivity.
Qed.

Lemma checked_out_rows_twice (session : CheckoutSession) (now : Timestamp)
  (userId : string) (rows : list SubscriptionRow) :
  checked_out_rows session now userId (checked_out_rows session now userId rows) =
  checked_out_rows session now userId rows.
Proof.
  unfold checked_out_rows. rewrite map_map. apply map_ext. intros r.
  destruct (s_user_id r ==? userId) eqn:E; [| rewrite E; reflexivity].
  cbn [s_user_id checked_out]. rewrite E. reflexivity.
Qed.

Lemma checked_out_rows_find (session : CheckoutSession) (now : Timestamp)
  (userId : string) (rows : list SubscriptionRow) (existing : SubscriptionRow) :
  find (fun r => s_user_id r ==? userId) rows = Some existing ->
  exists r', find (fun r => s_user_id r ==? userId)
               (checked_out_rows session now userId rows) = Some r'.
Proof.
  intros H. unfold checked_out_rows.
  rewrite (find_map_preserved (fun r => s_user_id r ==? userId)).
  - rewrite H. eexists. reflexivity.
  - intros x. destruct (s_user_id x ==? userId) eqn:E; exact E.
Qed.

Lemma checked_out_rows_none (session : CheckoutSession) (now : Timestamp)
  (userId : string) (rows : list SubscriptionRow) :
  find (fun r => s_user_id r ==? userId) rows = None ->
  checked_out_rows session now userId rows = rows.
Proof.
  intros H. unfold checked_out_rows. rewrite <- (map_id rows) at 2.
  apply map_ext_in. intros r Hin.
  pose proof (find_none _ _ H r Hin) as Hr. cbv beta in Hr. rewrite Hr. reflexivity.
Qed.

Lemma stripe_ids_snoc (rows : list SubscriptionRow) (r : SubscriptionRow) :
  stripe_ids (rows ++ [r]) =
  stripe_ids rows ++
  match stripe_subscription_id r with Some s => [s] | None => [] end.
Proof.
  induction rows as [| x rest IH]; simpl.
  - destruct (stripe_subscription_id r); reflexivity.
  - rewrite IH. destruct (stripe_subscription_id x); reflexivity.
Qed.

(** A checkout replayed at the same instant, on a database that does not
    fail, the uuid of the first delivery being unused: the second delivery
    finds the row the first left and rewrites it to itself, or is rejected
    as the first was. *)
Lemma replay_checkout (rt rt' : Runtime) (session : CheckoutSession) (w : World) :
  date_now rt' = date_now rt ->
  mem_string (uuidv4 rt) (map s_id (user_subscriptions w)) = false ->
  checkout_world rt' session (checkout_world rt session w) = checkout_world rt session w.
Proof.
  intros Hnow Hfresh. unfold checkout_world at 2 3.
  destruct (customer_details_email session) as [email |] eqn:Ee;
    [| unfold checkout_world; rewrite Ee; reflexivity].
  destruct (email ==? "") eqn:Eempty;
    [unfold checkout_world; rewrite Ee, Eempty; reflexivity |].
  destruct (find (fun u => u_email u ==? email) (users w)) as [user |] eqn:Eu;
    [| unfold checkout_world; rewrite Ee, Eempty, Eu; reflexivity].
  destruct (find (fun r => s_user_id r ==? u_id user) (user_subscriptions w))
    as [existing |] eqn:Ex.
  - cbv zeta.
    destruct (unique_stripe_ids
                (checked_out_rows session (date_now rt) (u_id user) (user_subscriptions w)))
      eqn:Eq.
    + unfold checkout_world. rewrite Ee, Eempty.
      cbn [users user_subscriptions with_subscriptions]. rewrite Eu.
      destruct (checked_out_rows_find session (date_now rt) (u_id user) _ _ Ex)
        as [r' ->].
      cbv zeta. rewrite Hnow, checked_out_rows_twice, Eq. reflexivity.
    + unfold checkout_world. rewrite Ee, Eempty, Eu, Ex. cbv zeta.
      rewrite Hnow, Eq. reflexivity.
  - rewrite Hfresh. cbv zeta.
    set (r0 := checked_out (session_customer session) (session_subscription session)
                 (date_now rt)
                 (default_subscription (uuidv4 rt) (u_id user) (db_clock w))).
    destruct (unique_stripe_ids (user_subscriptions w ++ [r0])) eqn:Eq.
    + unfold checkout_world. rewrite Ee, Eempty.
      cbn [users user_subscriptions with_subscriptions]. rewrite Eu.
      rewrite (find_app_none _ _ r0 Ex).
      cbn [s_user_id r0 checked_out default_subscription]. rewrite String.eqb_refl.
      cbv zeta. unfold checked_out_rows. rewrite map_app.
      fold (checked_out_rows session (date_now rt') (u_id user) (user_subscriptions w)).
      rewrite (checked_out_rows_none _ _ _ _ Ex). cbn [map].
      cbn [s_user_id r0 checked_out default_subscription]. rewrite String.eqb_refl.
      rewrite Hnow.
      change (checked_out (session_customer session) (session_subscription session)
                (date_now rt) r0) with r0.
      rewrite Eq. reflexivity.
    + unfold checkout_world. rewrite Ee, Eempty, Eu, Ex.
      destruct (mem_string (uuidv4 rt') (map s_id (user_subscriptions w)));
        [reflexivity |].
      cbv zeta.
      assert (Hsame : unique_stripe_ids
                        (user_subscriptions w ++
                         [checked_out (session_customer session)
                            (session_subscription session) (date_now rt')
                            (default_subscription (uuidv4 rt') (u_id user) (db_clock w))])
                      = unique_stripe_ids (user_subscriptions w ++ [r0])).
      { unfold unique_stripe_ids. rewrite !stripe_ids_snoc. reflexivity. }
      rewrite Hsame, Eq. reflexivity.
Qed.

Lemma exec_keeps_no_faults (X : Type) (q : Sql X) (w : World) :
  any_statement X q -> faults w = [] -> faults (snd (exec q w)) = [].
Proof.
  intros _ Hf. rewrite exec_no_fault by exact Hf.
  destruct q; cbn [exec_sql snd]; try exact Hf.
  - unfold run_update. destruct (update_where _ _ _) as [[rows' n] |]; [| exact Hf].
    destruct (unique_stripe_ids rows'); exact Hf.
  - destruct (mem_string id (map s_id (user_subscriptions w))); [exact Hf |].
    destruct (assign_all data _) as [r |]; [| exact Hf].
    destruct (unique_stripe_ids _); exact Hf.
  - unfold run_update. destruct (update_where _ _ _) as [[rows' n] |]; [| exact Hf].
    destruct (unique_stripe_ids rows'); exact Hf.
  - destruct (_ || _ || _); exact Hf.
Qed.

(** A database that is not scheduled to fail stays so. *)
Lemma run_keeps_no_faults {A : Type} (t : Task A) (w : World) :
  faults w = [] -> faults (snd (run t w)) = [].
Proof.
  apply (run_invariant any_statement (fun w' => faults w' = []) exec_keeps_no_faults),
    issues_anything.
Qed.

(** Apart from the uuid a checkout may need, a handler depends on the
    request only through its instant. *)
Lemma handle_same_instant (rt rt' : Runtime) (event : StripeEvent) :
  date_now rt' = date_now rt ->
  (forall session, event <> checkout_session_completed session) ->
  handle rt' event = handle rt event.
Proof.
  intros Hnow Hc.
  destruct event as [session | sub | sub | sub | invoice | invoice | ty]; cbn [handle].
  - exfalso; apply (Hc session); reflexivity.
  - unfold handleSubscriptionChange. rewrite Hnow. reflexivity.
  - unfold handleSubscriptionChange. rewrite Hnow. reflexivity.
  - unfold handleSubscriptionDeleted. rewrite Hnow. reflexivity.
  - unfold handlePaymentSucceeded. rewrite Hnow. reflexivity.
  - unfold handlePaymentFailed. rewrite Hnow. reflexivity.
  - reflexivity.
Qed.

(** X13. Every handler is idempotent: on a database that does not fail, an event
    delivered a second time at the same instant leaves the whole store as
    the first delivery left it, for each of the five event types (and for
    unhandled ones).  The uuid drawn for the first delivery is taken to be
    unused, as uuids are. *)
Theorem replayed_event_changes_nothing :
  forall (rt rt' : Runtime) (event : StripeEvent) (w : World),
    faults w = [] ->
    schema_unique w ->
    date_now rt' = date_now rt ->
    mem_string (uuidv4 rt) (map s_id (user_subscriptions w)) = false ->
    deliver [(rt, event); (rt', event)] w = deliver [(rt, event)] w.
Proof.
  intros rt rt' event w Hf Hu Hnow Hfresh. cbn [deliver].
  rewrite !webhook_world.
  destruct event as [session | sub | sub | sub | invoice | invoice | ty].
  - cbn [handle]. rewrite (checkout_run rt session w Hf).
    rewrite checkout_run.
    + apply replay_checkout; assumption.
    + rewrite <- (checkout_run rt session w Hf). apply run_keeps_no_faults, Hf.
  - rewrite (handle_same_instant rt rt') by (auto; intros s; discriminate).
    apply replay_changed; assumption.
  - rewrite (handle_same_instant rt rt') by (auto; intros s; discriminate).
    apply replay_changed; assumption.
  - rewrite (handle_same_instant rt rt') by (auto; intros s; discriminate).
    apply replay_deleted; assumption.
  - rewrite (handle_same_instant rt rt') by (auto; intros s; discriminate).
    apply replay_succeeded; assumption.
  - rewrite (handle_same_instant rt rt') by (auto; intros s; discriminate).
    apply replay_failed; assumption.
  - reflexivity.
Qed.

(** The update of Alice's subscription, delivered twice. *)
Lemma replayed_event_changes_nothing_witness :
  deliver [(request_2, customer_subscription_updated alice_pro);
           (request_2_again, customer_subscription_updated alice_pro)] subscribed_world =
  deliver [(request_2, customer_subscription_updated alice_pro)] subscribed_world.
Proof.
  apply (replayed_event_changes_nothing request_2 request_2_again
           (customer_subscription_updated alice_pro) subscribed_world);
    reflexivity.
Defined.

(** ** routes/subscriptions *)

Lemma subscription_status_selects (userId : string) :
  issues_only is_select (subscription_status userId).
Proof. unfold subscription_status. unfold_database. issues ltac:(cbn [is_select]). Qed.

Lemma create_portal_session_selects (stripeClient : StripeClient) (userId : string) :
  issues_only is_select (create_portal_session stripeClient userId).
Proof.
  unfold create_portal_session. unfold_database. issues ltac:(cbn [is_select]).
Qed.

Lemma cancel_selects (stripeClient : StripeClient) (userId : string) :
  issues_only is_select (cancel stripeClient userId).
Proof. unfold cancel. unfold_database. issues ltac:(cbn [is_select]). Qed.

(** A task that only reads leaves every table as it was, and the whole world
    when nothing is scheduled to fail. *)
Lemma only_reads {A : Type} (t : Task A) (w : World) :
  issues_only is_select t ->
  tables (snd (run t w)) = tables w /\
  (faults w = [] -> snd (run t w) = w).
Proof.
  intros Ht.
  assert (H1 : tables (snd (run t w)) = tables w).
  { apply (run_invariant is_select (fun w' => tables w' = tables w) (exec_select_tables w));
      [exact Ht | reflexivity]. }
  split; [exact H1 |]. intros Hf.
  pose proof (run_keeps_no_faults t w Hf) as H2.
  destruct (snd (run t w)) as [u s g c f]. destruct w as [u0 s0 g0 c0 f0].
  unfold tables in H1. simpl in *. inversion H1. subst. reflexivity.
Qed.

(** X14. [/status], [/create-portal-session] and [/cancel] never write to the
    store, whatever the billing provider answers and whatever the driver
    fails.  In particular a cancellation changes nothing locally: the
    Subscription keeps its status and plan tier until a billing event says
    otherwise. *)
Theorem subscription_routes_only_read :
  forall (stripeClient : StripeClient) (userId : string) (w : World),
    tables (snd (run (subscription_status userId) w)) = tables w /\
    tables (snd (run (create_portal_session stripeClient userId) w)) = tables w /\
    tables (snd (run (cancel stripeClient userId) w)) = tables w.
Proof.
  intros stripeClient userId w.
  split; [apply only_reads, subscription_status_selects |].
  split; [apply only_reads, create_portal_session_selects |].
  apply only_reads, cancel_selects.
Qed.

(** X15. [/status] and [/stats] agree on the plan: on a database that does not
    fail, the tier [/stats] reports is the [plan_type] [/status] reports, and
    both are free for a user without a Subscription row. *)
Theorem status_agrees_with_stats :
  forall (userId : string) (w : World),
    faults w = [] ->
    exists tier usage lastResetDate,
      run (stats userId) w = (inr (StatsOk tier usage lastResetDate), w) /\
      ((subscription_of w userId = None /\ tier = PlanFree /\
        run (subscription_status userId) w = (inr StatusFree, w)) \/
       (exists s,
          subscription_of w userId = Some s /\
          run (subscription_status userId) w =
          (inr (StatusOf (status s) tier (current_period_start s) (current_period_end s)
                  (payment_status s) (stripe_customer_id s)), w))).
Proof.
  intros userId w Hf.
  destruct (stats_run userId w Hf) as (usage & last & Hstats).
  eexists _, usage, last. split; [exact Hstats |].
  unfold subscription_status. rewrite run_try_catch, run_bind.
  unfold getUserSubscription. rewrite run_await, exec_no_fault by exact Hf.
  cbn [exec_sql]. fold (subscription_of w userId).
  destruct (subscription_of w userId) as [s |].
  - right. exists s. split; reflexivity.
  - left. repeat split.
Qed.

(** Alice after her checkout. *)
Lemma status_agrees_with_stats_witness :
  faults subscribed_world = [] /\
  exists tier usage lastResetDate,
    run (stats "u-alice") subscribed_world =
      (inr (StatsOk tier usage lastResetDate), subscribed_world) /\
    ((subscription_of subscribed_world "u-alice" = None /\ tier = PlanFree /\
      run (subscription_status "u-alice") subscribed_world =
        (inr StatusFree, subscribed_world)) \/
     (exists s,
        subscription_of subscribed_world "u-alice" = Some s /\
        run (subscription_status "u-alice") subscribed_world =
        (inr (StatusOf (status s) tier (current_period_start s) (current_period_end s)
                (payment_status s) (stripe_customer_id s)), subscribed_world))).
Proof.
  split; [reflexivity |].
  exact (status_agrees_with_stats "u-alice" subscribed_world eq_refl).
Defined.

(** When its three statements succeed, [handleCheckoutCompleted] leaves the
    user with a row that stores the session's customer and subscription
    references. *)
Lemma checkout_stores_references (rt : Runtime) (session : CheckoutSession) (w : World)
  (email : string) (user : UserRow) :
  faults w = [] ->
  customer_details_email session = Some email ->
  (email ==? "") = false ->
  find (fun u => u_email u ==? email) (users w) = Some user ->
  outcomes (handleCheckoutCompleted rt session) w = [false; false; false] ->
  exists r',
    subscription_of (snd (run (handleCheckoutCompleted rt session) w)) (u_id user) = Some r' /\
    stripe_customer_id r' = session_customer session /\
    stripe_subscription_id r' = session_subscription session.
Proof.
  intros Hf He Hne Hu Ho. unfold handleCheckoutCompleted in *. rewrite He, Hne in *.
  unfold_database. unfold getUserByEmail, updateUserSubscription in Ho.
  cbn [run outcomes try_catch bind await] in *.
  rewrite (exec_no_fault _ w Hf) in *. cbn [exec_sql] in *. rewrite Hu in *.
  cbn [run outcomes try_catch bind await] in *.
  rewrite (exec_no_fault _ w Hf) in *. cbn [exec_sql] in *.
  fold (subscription_of w (u_id user)) in *.
  destruct (subscription_of w (u_id user)) as [existing |] eqn:Ex.
  - cbn [run outcomes try_catch bind await] in *.
    rewrite (exec_no_fault _ w Hf) in *. cbn [exec_sql] in *.
    unfold run_update in *.
    rewrite (update_where_total _ _
               (checked_out (session_customer session) (session_subscription session)
                  (date_now rt))) in * by reflexivity.
    destruct (unique_stripe_ids _); [| discriminate Ho].
    cbn [run try_catch bind snd]. unfold subscription_of in *.
    cbn [user_subscriptions with_subscriptions].
    rewrite (find_map_preserved (fun r => s_user_id r ==? u_id user)).
    + rewrite Ex. cbn [option_map].
      apply find_some in Ex. destruct Ex as [_ Hm]. rewrite Hm.
      eexists; repeat split.
    + intros x. destruct (s_user_id x ==? u_id user) eqn:Hx; exact Hx.
  - cbn [run outcomes try_catch bind await] in *.
    rewrite (exec_no_fault _ w Hf) in *. cbn [exec_sql assign_all assign] in *.
    change (status_of_text "active") with (Some StActive) in *. cbv iota in *.
    destruct (mem_string (uuidv4 rt) (map s_id (user_subscriptions w)));
      [discriminate Ho |].
    destruct (unique_stripe_ids _); [| discriminate Ho].
    cbn [run try_catch bind snd]. unfold subscription_of in *.
    cbn [user_subscriptions with_subscriptions].
    rewrite (find_app_none _ _ _ Ex). cbn [s_user_id default_subscription].
    rewrite String.eqb_refl. eexists; repeat split.
Qed.

(** X16. The references a checkout stored are the ones the routes hand to the
    billing provider: after a CheckoutCompleted event whose statements
    succeeded, [/create-portal-session] asks for a portal of the session's
    customer and [/cancel] schedules the cancellation of the session's
    subscription, and what they answer is what the provider answered;
    neither changes the store. *)
Theorem routes_use_the_checkout_references :
  forall (stripeClient : StripeClient) (rt : Runtime) (session : CheckoutSession)
         (w : World) (email : string) (user : UserRow) (customer reference : string),
    faults w = [] ->
    customer_details_email session = Some email ->
    (email ==? "") = false ->
    find (fun u => u_email u ==? email) (users w) = Some user ->
    outcomes (handleCheckoutCompleted rt session) w = [false; false; false] ->
    present (session_customer session) = Some customer ->
    present (session_subscription session) = Some reference ->
    let w' := deliver [(rt, checkout_session_completed session)] w in
    run (create_portal_session stripeClient (u_id user)) w' =
      (inr (match billingPortal_sessions_create stripeClient customer with
            | Some url => PortalUrl url
            | None => SubscriptionServerError
            end), w') /\
    run (cancel stripeClient (u_id user)) w' =
      (inr (match subscriptions_update stripeClient reference with
            | Some _ => CancelAtPeriodEnd
            | None => SubscriptionServerError
            end), w').
Proof.
  intros stripeClient rt session w email user customer reference
    Hf He Hne Hu Ho Hc Hr w'.
  assert (E : w' = snd (run (handleCheckoutCompleted rt session) w)).
  { unfold w'. cbn [deliver]. apply webhook_world. }
  destruct (checkout_stores_references rt session w email user Hf He Hne Hu Ho)
    as (r' & Hsub & Hcust & Href).
  rewrite <- E in Hsub.
  assert (Hf' : faults w' = []) by (rewrite E; apply run_keeps_no_faults, Hf).
  split.
  - unfold create_portal_session. rewrite run_try_catch, run_bind.
    unfold getUserSubscription. rewrite run_await, exec_no_fault by exact Hf'.
    cbn [exec_sql]. fold (subscription_of w' (u_id user)).
    rewrite Hsub, Hcust, Hc.
    destruct (billingPortal_sessions_create stripeClient customer); reflexivity.
  - unfold cancel. rewrite run_try_catch, run_bind.
    unfold getUserSubscription. rewrite run_await, exec_no_fault by exact Hf'.
    cbn [exec_sql]. fold (subscription_of w' (u_id user)).
    rewrite Hsub, Href, Hr.
    destruct (subscriptions_update stripeClient reference) as [[] |]; reflexivity.
Qed.

(** Alice, after her checkout, opens the portal and cancels. *)
Lemma routes_use_the_checkout_references_witness :
  outcomes (handleCheckoutCompleted request_1 alice_checkout) signup_world =
    [false; false; false] /\
  run (create_portal_session accepting_stripe "u-alice") subscribed_world =
    (inr (PortalUrl "https://billing.example/p/cus_1"), subscribed_world) /\
  run (cancel accepting_stripe "u-alice") subscribed_world =
    (inr CancelAtPeriodEnd, subscribed_world).
Proof.
  assert (H : outcomes (handleCheckoutCompleted request_1 alice_checkout) signup_world =
              [false; false; false]) by reflexivity.
  split; [exact H |].
  exact (routes_use_the_checkout_references accepting_stripe request_1 alice_checkout
           signup_world "alice@example.com" alice "cus_1" "sub_1"
           eq_refl eq_refl eq_refl eq_refl H eq_refl eq_refl).
Defined.

(** ** [resetAllUsage] *)

Lemma resetUserUsage_run (userId : string) (w : World) :
  faults w = [] ->
  snd (run (resetUserUsage userId) w) =
  with_usage (map (zeroed (db_clock w) userId) (user_usage w)) w.
Proof.
  intros Hf. unfold resetUserUsage. rewrite run_await, exec_no_fault by exact Hf.
  reflexivity.
Qed.

Lemma reset_each_rows (userIds : list string) :
  forall w : World,
    faults w = [] ->
    reset_each userIds w =
    with_usage
      (map (fun g => if mem_string (g_user_id g) userIds
                     then zero_row (db_clock w) g else g)
         (user_usage w)) w.
Proof.
  induction userIds as [| u rest IH]; intros w Hf.
  - unfold reset_each. cbn [fold_left mem_string existsb].
    rewrite map_id. symmetry. apply with_usage_same.
  - unfold reset_each in *. cbn [fold_left]. rewrite resetUserUsage_run by exact Hf.
    rewrite IH by exact Hf.
    cbn [user_usage db_clock with_usage]. rewrite map_map.
    unfold with_usage. cbn [users user_subscriptions db_clock faults].
    f_equal. apply map_ext. intros g. unfold zeroed, mem_string. cbn [existsb].
    destruct (g_user_id g ==? u) eqn:E.
    + cbn [g_user_id orb]. destruct (existsb _ rest); reflexivity.
    + cbn [orb]. reflexivity.
Qed.

(** X17. [resetAllUsage] on a database that does not fail sets every counter of
    every user to 0, and is [resetUserUsage] done for each user in turn: the
    two leave the same store, for any list of users that covers the owners
    of the counters. *)
Theorem resetAllUsage_resets_each_user :
  forall (userIds : list string) (w : World),
    faults w = [] ->
    (forall g, In g (user_usage w) -> In (g_user_id g) userIds) ->
    snd (resetAllUsage w) = reset_each userIds w /\
    (forall userId featureType, stored_count (snd (resetAllUsage w)) userId featureType = 0) /\
    fst (resetAllUsage w) = inr (List.length (user_usage w)).
Proof.
  intros userIds w Hf Hcover. unfold resetAllUsage. rewrite Hf. cbn [fst snd].
  split; [| split; [| reflexivity]].
  - rewrite reset_each_rows by exact Hf. unfold with_usage. f_equal.
    apply map_ext_in. intros g Hg.
    assert (Hm : mem_string (g_user_id g) userIds = true).
    { unfold mem_string. apply existsb_exists. exists (g_user_id g).
      split; [apply Hcover, Hg | apply String.eqb_refl]. }
    rewrite Hm. reflexivity.
  - intros userId featureType. unfold stored_count. cbn [user_usage with_usage].
    destruct (find _ (map _ (user_usage w))) as [g |] eqn:E; [| reflexivity].
    apply find_some in E. destruct E as [Hin _]. apply in_map_iff in Hin.
    destruct Hin as (g0 & <- & _). reflexivity.
Qed.

(** Alice is the only user with counters. *)
Lemma resetAllUsage_resets_each_user_witness :
  stored_count exhausted_world "u-alice" "assessment" = 2 /\
  snd (resetAllUsage exhausted_world) = reset_each ["u-alice"] exhausted_world /\
  (forall userId featureType,
     stored_count (snd (resetAllUsage exhausted_world)) userId featureType = 0) /\
  fst (resetAllUsage exhausted_world) = inr (List.length (user_usage exhausted_world)).
Proof.
  split; [reflexivity |].
  apply (resetAllUsage_resets_each_user ["u-alice"] exhausted_world eq_refl).
  intros g Hg. vm_compute in Hg. destruct Hg as [<- | []]. left; reflexivity.
Defined.

(** ** routes/auth *)

Lemma auth_run_bind {A B : Type} (t : AuthTask A) (f : A -> AuthTask B) (d : Directory) :
  auth_run (auth_bind t f) d =
  match auth_run t d with
  | (inl e, d') => (inl e, d')
  | (inr a, d') => auth_run (f a) d'
  end.
Proof.
  revert d; induction t as [a | e | X q k IH]; intros d; simpl; auto.
  destruct (exec_users q d) as [r d']; apply IH.
Qed.

Lemma auth_run_try {A : Type} (t : AuthTask A) (h : AuthError -> AuthTask A) (d : Directory) :
  auth_run (auth_try t h) d =
  match auth_run t d with
  | (inl e, d') => auth_run (h e) d'
  | (inr a, d') => (inr a, d')
  end.
Proof.
  revert d; induction t as [a | e | X q k IH]; intros d; simpl; auto.
  destruct (exec_users q d) as [r d']; apply IH.
Qed.

Lemma auth_run_await {X : Type} (q : UserSql X) (d : Directory) :
  auth_run (auth_await q) d = exec_users q d.
Proof.
  unfold auth_await; simpl.
  destruct (exec_users q d) as [[e | x] d']; reflexivity.
Qed.

Lemma exec_users_no_fault {X : Type} (q : UserSql X) (d : Directory) :
  dir_faults d = [] -> exec_users q d = exec_user_sql q d.
Proof. intros H; unfold exec_users; rewrite H; reflexivity. Qed.

Lemma find_snoc_new {A : Type} (p : A -> bool) (key : A -> string) (k : string)
    (l : list A) (a : A) :
  (forall x, p x = (key x ==? k)) ->
  mem_string k (map key l) = false -> p a = true ->
  find p (l ++ [a]) = Some a.
Proof.
  intros Hp Hk Ha.
  induction l as [| x l IH]; simpl in *.
  - rewrite Ha; reflexivity.
  - apply orb_false_iff in Hk as [Hx Hl].
    rewrite Hp. rewrite String.eqb_sym, Hx. auto.
Qed.

Lemma find_by_key_none {A : Type} (key : A -> string) (k : string) (l : list A) :
  mem_string k (map key l) = false -> find (fun x => key x ==? k) l = None.
Proof.
  induction l as [| x l IH]; simpl; auto.
  intros H; apply orb_false_iff in H as [Hx Hl].
  rewrite String.eqb_sym, Hx; auto.
Qed.

Lemma find_by_key_some {A : Type} (key : A -> string) (k : string) (l : list A) :
  mem_string k (map key l) = true ->
  exists a, find (fun x => key x ==? k) l = Some a /\ key a = k.
Proof.
  induction l as [| x l IH]; simpl; [discriminate |].
  intros H. rewrite (String.eqb_sym k) in H.
  destruct (key x ==? k) eqn:Hx.
  - exists x; split; auto. apply String.eqb_eq; exact Hx.
  - simpl in H; auto.
Qed.


Lemma login_run crypto e attempt d a :
  dir_faults d = [] ->
  e <> "" -> attempt <> "" ->
  find (fun x => a_email x ==? e) (accounts d) = Some a ->
  auth_run (login crypto (Some e) (Some attempt)) d = (inr (login_answer crypto attempt a), d).
Proof.
  intros Hf He Hp Ha.
  unfold login, present, login_answer.
  apply String.eqb_neq in He, Hp. rewrite He, Hp.
  rewrite auth_run_try, auth_run_bind.
  unfold getAccountByEmail. rewrite auth_run_await, exec_users_no_fault by exact Hf.
  cbn [exec_user_sql]. rewrite Ha.
  destruct (a_password_hash a) as [hash |]; simpl; [| reflexivity].
  destruct (bcrypt_compare crypto attempt hash); reflexivity.
Qed.

Lemma login_unknown crypto e attempt d :
  dir_faults d = [] ->
  e <> "" -> attempt <> "" ->
  mem_string e (map a_email (accounts d)) = false ->
  auth_run (login crypto (Some e) (Some attempt)) d = (inr InvalidCredentials, d).
Proof.
  intros Hf He Hp Ha.
  unfold login, present.
  apply String.eqb_neq in He, Hp. rewrite He, Hp.
  rewrite auth_run_try, auth_run_bind.
  unfold getAccountByEmail. rewrite auth_run_await, exec_users_no_fault by exact Hf.
  cbn [exec_user_sql]. rewrite (find_by_key_none a_email e _ Ha). reflexivity.
Qed.





(** A statement either fails in the driver or takes effect on the same
    rows. *)
Lemma exec_users_view {X : Type} (q : UserSql X) (d : Directory) :
  exists fs,
    let d1 := mkDirectory (accounts d) (dir_clock d) fs in
    exec_users q d = (inl DriverError, d1) \/ exec_users q d = exec_user_sql q d1.
Proof.
  unfold exec_users. destruct d as [rows clock fs]; simpl.
  destruct fs as [| [|] rest].
  - exists []; right; reflexivity.
  - exists rest; left; reflexivity.
  - exists rest; right; reflexivity.
Qed.

Lemma login_reads crypto email password d :
  accounts (snd (auth_run (login crypto email password) d)) = accounts d.
Proof.
  unfold login.
  destruct (present email) as [e |]; [| reflexivity].
  destruct (present password) as [p |]; [| reflexivity].
  rewrite auth_run_try, auth_run_bind.
  unfold getAccountByEmail. rewrite auth_run_await.
  destruct (exec_users_view (SelectAccountByEmail e) d) as [fs [H | H]]; rewrite H;
    [reflexivity |].
  cbn [exec_user_sql accounts].
  destruct (find _ _) as [a |]; [| reflexivity].
  destruct (a_password_hash a) as [hash |]; [| reflexivity].
  destruct (bcrypt_compare crypto p hash); reflexivity.
Qed.

Lemma me_reads userId d :
  accounts (snd (auth_run (me userId) d)) = accounts d.
Proof.
  unfold me.
  rewrite auth_run_try, auth_run_bind.
  unfold getUserById. rewrite auth_run_await.
  destruct (exec_users_view (SelectUserById userId) d) as [fs [H | H]]; rewrite H;
    [reflexivity |].
  cbn [exec_user_sql accounts].
  destruct (find _ _); reflexivity.
Qed.

Lemma register_writes crypto rt email password name d :
  let d' := snd (auth_run (register crypto rt email password name) d) in
  accounts d' = accounts d \/
  exists e p,
    present email = Some e /\ present password = Some p /\
    mem_string e (map a_email (accounts d)) = false /\
    mem_string (uuidv4 rt) (map a_id (accounts d)) = false /\
    accounts d' = accounts d ++ [registered crypto rt e p name d].
Proof.
  unfold register.
  destruct (present email) as [e |]; [| left; reflexivity].
  destruct (present password) as [p |]; [| left; reflexivity].
  rewrite auth_run_try, auth_run_bind.
  unfold getAccountByEmail. rewrite auth_run_await.
  destruct (exec_users_view (SelectAccountByEmail e) d) as [fs [H | H]]; rewrite H;
    [left; reflexivity |].
  cbn [exec_user_sql accounts].
  destruct (find _ _) as [a |]; [left; reflexivity |].
  rewrite auth_run_bind. unfold createUser.
  rewrite auth_run_bind, auth_run_await.
  destruct (exec_users_view (InsertUser (uuidv4 rt) e (bcrypt_hash crypto p) name)
              (mkDirectory (accounts d) (dir_clock d) fs)) as [fs' [H' | H']];
    rewrite H'; [left; reflexivity |].
  cbn [exec_user_sql accounts dir_clock dir_faults].
  destruct (mem_string (uuidv4 rt) (map a_id (accounts d))) eqn:Hid;
    [left; reflexivity |].
  destruct (mem_string e (map a_email (accounts d))) eqn:Hem;
    [left; reflexivity |].
  cbn [orb]. right. exists e, p. repeat split; auto.
  unfold getUserById. rewrite auth_run_await.
  match goal with
  | |- context [exec_users ?q ?d0] =>
      destruct (exec_users_view q d0) as [fs'' [H'' | H'']]; rewrite H''
  end; [reflexivity |].
  cbn [exec_user_sql accounts].
  destruct (find _ _); reflexivity.
Qed.

Lemma register_created crypto rt email password name d id e n t :
  fst (auth_run (register crypto rt email password name) d) = inr (UserCreated id e n t) ->
  exists a,
    In a (accounts (snd (auth_run (register crypto rt email password name) d))) /\
    a_id a = id /\ a_email a = e /\ a_name a = n /\ t = jwt_sign crypto id e.
Proof.
  unfold register.
  destruct (present email) as [e0 |]; [| discriminate].
  destruct (present password) as [p |]; [| discriminate].
  rewrite auth_run_try, auth_run_bind.
  unfold getAccountByEmail. rewrite auth_run_await.
  destruct (exec_users_view (SelectAccountByEmail e0) d) as [fs [H | H]]; rewrite H;
    [discriminate |].
  cbn [exec_user_sql accounts].
  destruct (find _ _) as [a |]; [discriminate |].
  rewrite auth_run_bind. unfold createUser.
  rewrite auth_run_bind, auth_run_await.
  destruct (exec_users_view (InsertUser (uuidv4 rt) e0 (bcrypt_hash crypto p) name)
              (mkDirectory (accounts d) (dir_clock d) fs)) as [fs' [H' | H']];
    rewrite H'; [discriminate |].
  cbn [exec_user_sql accounts dir_clock dir_faults].
  destruct (mem_string (uuidv4 rt) (map a_id (accounts d)) ||
            mem_string e0 (map a_email (accounts d))); [discriminate |].
  unfold getUserById. rewrite auth_run_await.
  match goal with
  | |- context [exec_users ?q ?d0] =>
      destruct (exec_users_view q d0) as [fs'' [H'' | H'']]; rewrite H''
  end; [discriminate |].
  cbn [exec_user_sql accounts].
  destruct (find _ _) as [a |] eqn:Ha; [| discriminate].
  cbn [auth_run fst snd accounts]. intros E; inversion E; subst.
  exists a. apply find_some in Ha as [Hin _]. auto.
Qed.

(** X19. Whatever the driver reports, a login and /me leave the [users]
    table as it was, and a registration leaves it as it was or adds
    exactly one row: the generated id, the email and the name of the
    request and the bcrypt hash of its password, the id and the email
    being new to the table.  A registration answers 201 only for a row
    that is in the table afterwards, with a token signed for that row's id
    and email. *)
Theorem auth_routes_add_one_account_at_most :
  forall crypto rt email password name userId d,
    accounts (snd (auth_run (login crypto email password) d)) = accounts d /\
    accounts (snd (auth_run (me userId) d)) = accounts d /\
    (let d' := snd (auth_run (register crypto rt email password name) d) in
     accounts d' = accounts d \/
     exists e p,
       present email = Some e /\ present password = Some p /\
       mem_string e (map a_email (accounts d)) = false /\
       mem_string (uuidv4 rt) (map a_id (accounts d)) = false /\
       accounts d' = accounts d ++ [registered crypto rt e p name d]) /\
    (forall id e n t,
        fst (auth_run (register crypto rt email password name) d) =
          inr (UserCreated id e n t) ->
        exists a,
          In a (accounts (snd (auth_run (register crypto rt email password name) d))) /\
          a_id a = id /\ a_email a = e /\ a_name a = n /\ t = jwt_sign crypto id e).
Proof.
  intros crypto rt email password name userId d.
  split; [apply login_reads |].
  split; [apply me_reads |].
  split; [apply register_writes |].
  intros id e n t; apply register_created.
Qed.

(** X20. A registration whose first two statements succeed and whose
    third, the read of the new row, fails in the driver answers 500
    although the row has been inserted; a second registration with the
    same email then answers 409, and a login with the password is served
    from the row of the failed request. *)
Theorem failed_registration_keeps_the_account :
  forall crypto rt e p name d,
    dir_faults d = [false; false; true] ->
    e <> "" -> p <> "" ->
    mem_string e (map a_email (accounts d)) = false ->
    mem_string (uuidv4 rt) (map a_id (accounts d)) = false ->
    let d' := snd (auth_run (register crypto rt (Some e) (Some p) name) d) in
    fst (auth_run (register crypto rt (Some e) (Some p) name) d) = inr AuthServerError /\
    accounts d' = accounts d ++ [registered crypto rt e p name d] /\
    (forall crypto' rt' name',
        auth_run (register crypto' rt' (Some e) (Some p) name') d' =
        (inr UserAlreadyExists, d')) /\
    (forall crypto',
        fst (auth_run (login crypto' (Some e) (Some p)) d') =
        inr (login_answer crypto' p (registered crypto rt e p name d))).
Proof.
  intros crypto rt e p name d Hf He Hp Hfree Hfresh d'.
  assert (Hrun : auth_run (register crypto rt (Some e) (Some p) name) d =
                 (inr AuthServerError,
                  mkDirectory (accounts d ++ [registered crypto rt e p name d])
                    (dir_clock d) [])).
  { unfold register, present.
    pose proof He as He'. pose proof Hp as Hp'.
    apply String.eqb_neq in He', Hp'. rewrite He', Hp'.
    rewrite auth_run_try, auth_run_bind.
    unfold getAccountByEmail. rewrite auth_run_await.
    unfold exec_users at 1. rewrite Hf.
    cbn [exec_user_sql accounts]. rewrite (find_by_key_none a_email e _ Hfree).
    rewrite auth_run_bind. unfold createUser.
    rewrite auth_run_bind, auth_run_await.
    unfold exec_users at 1. cbn [dir_faults accounts dir_clock exec_user_sql].
    rewrite Hfresh, Hfree. cbn [orb].
    unfold getUserById. rewrite auth_run_await.
    unfold exec_users. cbn [dir_faults accounts dir_clock]. reflexivity. }
  subst d'. rewrite Hrun. cbn [fst snd accounts].
  assert (Hem : find (fun x => a_email x ==? e)
                  (accounts d ++ [registered crypto rt e p name d]) =
                Some (registered crypto rt e p name d)).
  { apply (find_snoc_new _ a_email e); auto. simpl; apply String.eqb_refl. }
  repeat split.
  - intros crypto' rt' name'.
    unfold register, present.
    pose proof He as He'. pose proof Hp as Hp'.
    apply String.eqb_neq in He', Hp'. rewrite He', Hp'.
    rewrite auth_run_try, auth_run_bind.
    unfold getAccountByEmail.
    rewrite auth_run_await, exec_users_no_fault by reflexivity.
    cbn [exec_user_sql accounts]. rewrite Hem. reflexivity.
  - intros crypto'.
    rewrite (login_run crypto' e p _ (registered crypto rt e p name d)) by auto.
    reflexivity.
Qed.

(** Bob registers while the read of his new row fails. *)
Lemma failed_registration_keeps_the_account_witness :
  let d' :=
    snd (auth_run (register example_crypto request_1 (Some "bob@example.com")
                     (Some "correct horse") None) flaky_directory) in
  fst (auth_run (register example_crypto request_1 (Some "bob@example.com")
                   (Some "correct horse") None) flaky_directory) = inr AuthServerError /\
  accounts d' =
    accounts flaky_directory ++
    [registered example_crypto request_1 "bob@example.com" "correct horse" None
       flaky_directory] /\
  (forall crypto' rt' name',
      auth_run (register crypto' rt' (Some "bob@example.com") (Some "correct horse") name')
        d' = (inr UserAlreadyExists, d')) /\
  (forall crypto',
      fst (auth_run (login crypto' (Some "bob@example.com") (Some "correct horse")) d') =
      inr (login_answer crypto' "correct horse"
             (registered example_crypto request_1 "bob@example.com" "correct horse" None
                flaky_directory))).
Proof.
  apply (failed_registration_keeps_the_account example_crypto request_1
           "bob@example.com" "correct horse" None flaky_directory);
    (reflexivity || discriminate).
Defined.

Lemma split_space_one (s : string) :
  has_space s = false -> split_space s = [s].
Proof.
  induction s as [| c s IH]; simpl; auto.
  intros H; apply orb_false_iff in H as [Hc Hs].
  rewrite Hc, (IH Hs). reflexivity.
Qed.

Lemma split_space_words (a b : string) :
  has_space a = false ->
  split_space (a ++ " " ++ b)%string = a :: split_space b.
Proof.
  induction a as [| c a IH]; simpl in *; auto.
  intros H; apply orb_false_iff in H as [Hc Ha].
  rewrite Hc, (IH Ha). reflexivity.
Qed.

Lemma words_not_empty (a b : string) : (a ++ " " ++ b)%string <> "".
Proof. destruct a; discriminate. Qed.

(** X21. The middleware takes the second word of the Authorization header
    as the token, whatever the first word is: for a header made of a
    scheme, one space and a token, neither containing a space, the request
    is answered 401 when the token is empty, and otherwise the outcome is
    that of verifying exactly that token (403 when it is rejected, the
    handler called with the verified user otherwise).  A header of a
    single word, and a request without the header, are answered 401. *)
Theorem authenticateToken_takes_the_second_word :
  forall crypto scheme token,
    has_space scheme = false ->
    has_space token = false ->
    authenticateToken crypto (Some (scheme ++ " " ++ token)%string) =
      (if token ==? "" then AccessTokenRequired
       else match jwt_verify crypto token with
            | Some (userId, email) => Next userId email
            | None => InvalidOrExpiredToken
            end) /\
    authenticateToken crypto (Some scheme) = AccessTokenRequired /\
    authenticateToken crypto None = AccessTokenRequired.
Proof.
  intros crypto scheme token Hs Ht.
  unfold authenticateToken, bearer_token.
  repeat split.
  - cbn [present].
    pose proof (words_not_empty scheme token) as Hne.
    apply String.eqb_neq in Hne. rewrite Hne.
    rewrite (split_space_words scheme token Hs), (split_space_one token Ht).
    cbn [nth_error present].
    destruct (token ==? ""); [reflexivity |].
    destruct (jwt_verify crypto token) as [[u m] |]; reflexivity.
  - cbn [present].
    destruct (scheme ==? ""); [reflexivity |].
    rewrite (split_space_one scheme Hs). reflexivity.
Qed.

(** Alice's token after the word Bearer; the word alone; no header. *)
Lemma authenticateToken_takes_the_second_word_witness :
  authenticateToken example_crypto (Some "Bearer jwt:u-alice") =
    Next "u-alice" "alice@example.com" /\
  authenticateToken example_crypto (Some "Bearer") = AccessTokenRequired /\
  authenticateToken example_crypto None = AccessTokenRequired.
Proof.
  exact (authenticateToken_takes_the_second_word example_crypto "Bearer" "jwt:u-alice"
           eq_refl eq_refl).
Defined.
